(** * Technova public reporting portal: the report lifecycle of [app.js]

    A shallow embedding of the Express application in [src/app.js]: the
    case-identifier generator, the multer upload middleware, the MySQL
    tables the handlers read and write, and every route handler that checks
    a connection out of the pool.  Handlers are computations in a small
    state-and-exception monad over a [World] (tables, pool counter,
    statement log, fault oracle); [try]/[catch]/[finally] is a combinator
    with the JavaScript evaluation order.

    What is outside [app.js] is modelled as follows.
    - Route parameters, environment variables and the query parameter of
      the tracker form are strings.  A field of [req.body] is any value
      the body parsers deliver: [express.json] gives every JSON value,
      [express.urlencoded({extended: true})] and multer give strings,
      arrays and objects; an absent field reads [undefined].  Strings are
      sequences of 8-bit characters.
    - The store is MySQL in strict mode, as version 8 is by default: a
      string longer than its column, NULL in a NOT NULL column and a
      duplicate in a UNIQUE column are errors of the statement, which then
      writes nothing.  The tables name no collation: text is compared by
      the weight the store's collation gives a string ([collation]), so
      two strings are the same [case_id] or [username] when their weights
      are; under the default of MySQL 8 that ignores case and accents.
      What the enumerated column makes of a string that is not the name of
      a member is the store's ([enum_of_text]), as are its comparison of
      the integer column [id] with the string bound to it ([sql_id_eq]),
      and bcrypt.
    - mysql2 writes a parameter into the statement: [undefined] and [null]
      as NULL, a string as a quoted literal, an array as a list of values,
      an object as a list of [`key` = value] pairs.  What the store makes
      of a statement built from a parameter that is not text is left open
      ([foreign_value], [foreign_status], [foreign_username]), within what
      a single INSERT, UPDATE or SELECT can do.
    - Any connection request and any statement may also fail for reasons of
      its own (link, server); an oracle in the world says which do.
    - multer reads the parts of a multipart body in order.  A file part
      whose file name has an empty base name is skipped; a file is refused
      once its size reaches [limits.fileSize]; a file under another field
      than [photo], or a second one, is unexpected.  The files on disk are
      not modelled: a stored upload is [req.file].
    - Views are not rendered: a response records the view and its locals. *)

From Stdlib Require Import ZArith List String Ascii Bool Lia Floats.
Import ListNotations.

Local Open Scope string_scope.
Local Open Scope Z_scope.

(* ================================================================== *)
(** ** JavaScript strings and numbers *)

Module JS.

(** Strings are sequences of 8-bit characters. *)

Definition is_digit (c : ascii) : bool :=
  let n := nat_of_ascii c in (48 <=? n)%nat && (n <=? 57)%nat.

Fixpoint all_digits (s : string) : bool :=
  match s with
  | EmptyString => true
  | String c r => is_digit c && all_digits r
  end.

Definition digit_char (d : Z) : ascii := ascii_of_nat (48 + Z.to_nat d).

Arguments digit_char : simpl never.

(** Decimal digits of a non-negative integer, most significant first;
    [fuel] bounds the number of digits produced. *)
Fixpoint digits_fuel (fuel : nat) (n : Z) (acc : string) : string :=
  match fuel with
  | O => acc
  | S f =>
      let acc' := String (digit_char (n mod 10)) acc in
      if n / 10 =? 0 then acc' else digits_fuel f (n / 10) acc'
  end.

(** [Number.prototype.toString] (and template interpolation [`${n}`]) on an
    integer below 1e21: plain decimal, with a minus sign for negatives. *)
Definition toString (n : Z) : string :=
  if n <? 0
  then String "-" (digits_fuel (S (Z.to_nat (Z.log2 (- n)))) (- n) "")
  else digits_fuel (S (Z.to_nat (Z.log2 n))) n "".

Fixpoint repeat_char (c : ascii) (k : nat) : string :=
  match k with
  | O => ""
  | S k' => String c (repeat_char c k')
  end.

(** [s.padStart(target, fill)] for a one-character [fill]. *)
Definition padStart (s : string) (target : nat) (fill : ascii) : string :=
  repeat_char fill (target - String.length s) ++ s.

Definition lower_char (c : ascii) : ascii :=
  let n := nat_of_ascii c in
  if (65 <=? n)%nat && (n <=? 90)%nat then ascii_of_nat (n + 32) else c.

(** [s.toLowerCase()] on 8-bit strings. *)
Fixpoint toLowerCase (s : string) : string :=
  match s with
  | EmptyString => EmptyString
  | String c r => String (lower_char c) (toLowerCase r)
  end.

(** A value of [req.body], as the body parsers deliver it.  A number is a
    double. *)
Inductive value :=
| Undefined
| Null
| Bool (b : bool)
| Num (x : float)
| Str (s : string)
| Arr (items : list value)
| Obj (entries : list (string * value)).

(** JavaScript truthiness: [undefined], [null], [false], [0], [-0], [NaN]
    and [''] are falsy; every array and every object is truthy. *)
Definition truthy (v : value) : bool :=
  match v with
  | Undefined | Null => false
  | Bool b => b
  | Num x => negb (PrimFloat.eqb x 0%float || negb (PrimFloat.eqb x x))
  | Str s => negb (String.eqb s "")
  | Arr _ | Obj _ => true
  end.

(** [x || null]: a falsy value becomes [null]. *)
Definition or_null (v : value) : value :=
  if truthy v then v else Null.

(** What mysql2 writes for a parameter that is text or nothing:
    [undefined] and [null] are written NULL, a string is written as a
    quoted literal.  Every other value is expanded by the driver, and has
    no reading here. *)
Definition as_text (v : value) : option (option string) :=
  match v with
  | Undefined | Null => Some None
  | Str s => Some (Some s)
  | _ => None
  end.

(** A variable of the environment or of the query string: [undefined]
    when it is not set, a string otherwise. *)
Definition field := option string.

(** [x || 'default'] on such a variable. *)
Definition or_else (f : field) (d : string) : string :=
  match f with
  | Some s => if String.eqb s "" then d else s
  | None => d
  end.

(** The scan of Node's [path.extname] (POSIX): the indices it tracks
    while it walks the path from its last character to its first. *)
Record ExtScan := mkExtScan {
  startDot : Z;
  startPart : Z;
  end_ : Z;
  matchedSlash : bool;
  preDotState : Z
}.

Fixpoint extname_scan (rev_path : list ascii) (i : Z) (st : ExtScan) : ExtScan :=
  match rev_path with
  | [] => st
  | c :: rest =>
      if Ascii.eqb c "/" then
        if negb (matchedSlash st)
        then mkExtScan (startDot st) (i + 1) (end_ st) (matchedSlash st)
                       (preDotState st)
        else extname_scan rest (i - 1) st
      else
        let st1 :=
          if end_ st =? -1
          then mkExtScan (startDot st) (startPart st) (i + 1) false
                         (preDotState st)
          else st in
        let st2 :=
          if Ascii.eqb c "." then
            if startDot st1 =? -1
            then mkExtScan i (startPart st1) (end_ st1) (matchedSlash st1)
                           (preDotState st1)
            else if negb (preDotState st1 =? 1)
            then mkExtScan (startDot st1) (startPart st1) (end_ st1)
                           (matchedSlash st1) 1
            else st1
          else if negb (startDot st1 =? -1)
          then mkExtScan (startDot st1) (startPart st1) (end_ st1)
                         (matchedSlash st1) (-1)
          else st1 in
        extname_scan rest (i - 1) st2
  end.

(** [path.extname(p)]: from the last dot of the last path component to its
    end; empty when there is no dot, or none but a leading one. *)
Definition extname (p : string) : string :=
  let chars := list_ascii_of_string p in
  let st := extname_scan (rev chars) (Z.of_nat (List.length chars) - 1)
                         (mkExtScan (-1) 0 (-1) true 0) in
  if (startDot st =? -1) || (end_ st =? -1) || (preDotState st =? 0)
     || ((preDotState st =? 1) && (startDot st =? end_ st - 1)
         && (startDot st =? startPart st + 1))
  then ""
  else substring (Z.to_nat (startDot st))
                 (Z.to_nat (end_ st - startDot st)) p.

End JS.

(* ================================================================== *)
(** ** Case identifiers: [genCaseId] *)

(** The values the JavaScript runtime supplies while one request is served. *)
Record Runtime := mkRuntime {
  full_year : Z;              (** [new Date().getFullYear()] *)
  rand_1e6 : Z;               (** [Math.floor(Math.random()*1e6)] *)
  date_now : Z;               (** [Date.now()] *)
  rand_1e9 : Z;               (** [Math.round(Math.random()*1e9)] *)
  DB_NAME : JS.field;         (** [process.env.DB_NAME] *)
  ADMIN_USERNAME : JS.field;  (** [process.env.ADMIN_USERNAME] *)
  ADMIN_PASSWORD : JS.field   (** [process.env.ADMIN_PASSWORD] *)
}.

(** [Math.random()] lies in [0, 1), so the floor of its product with 1e6 is
    an integer of [0, 10^6); the year is the calendar year of the clock. *)
Definition runtime_ok (rt : Runtime) : Prop :=
  1000 <= full_year rt <= 9999 /\ 0 <= rand_1e6 rt < 10 ^ 6.

Definition genCaseId (rt : Runtime) : string :=
  let y := full_year rt in
  let seq := JS.padStart (JS.toString (rand_1e6 rt)) 6 "0" in
  "REP" ++ JS.toString y ++ seq.

(** The anchored pattern [REP\d{4}\d{6}]. *)
Definition matches_REP_pattern (s : string) : bool :=
  match s with
  | String "R" (String "E" (String "P" rest)) =>
      (String.length rest =? 10)%nat && JS.all_digits rest
  | _ => false
  end.

(* ================================================================== *)
(** ** The tables of [ensureDatabase] *)

(** What a cell of [status
    ENUM('NEW','UNDER_REVIEW','VERIFIED','ACTION_TAKEN','CLOSED')] holds
    when it is not NULL: one of the five members, or the empty string that
    MySQL keeps, at index 0, as the error value of every enumeration. *)
Inductive Status :=
| NEW | UNDER_REVIEW | VERIFIED | ACTION_TAKEN | CLOSED
| EMPTY.

Definition status_name (s : Status) : string :=
  match s with
  | NEW => "NEW"
  | UNDER_REVIEW => "UNDER_REVIEW"
  | VERIFIED => "VERIFIED"
  | ACTION_TAKEN => "ACTION_TAKEN"
  | CLOSED => "CLOSED"
  | EMPTY => ""
  end.

(** The member of the enumeration a string is the name of. *)
Definition member_named (s : string) : option Status :=
  if String.eqb s "NEW" then Some NEW
  else if String.eqb s "UNDER_REVIEW" then Some UNDER_REVIEW
  else if String.eqb s "VERIFIED" then Some VERIFIED
  else if String.eqb s "ACTION_TAKEN" then Some ACTION_TAKEN
  else if String.eqb s "CLOSED" then Some CLOSED
  else None.

(** A row of [reports], with the nullability of the schema: [id],
    [location] and [issue_type] are NOT NULL; [status] defaults to [NEW]
    and [created_at] to the store's clock. *)
Module Report.
Record t := mk {
  id : Z;
  case_id : option string;
  citizen_name : option string;
  email : option string;
  phone : option string;
  image_path : option string;
  location : string;
  description : option string;
  issue_type : string;
  status : option Status;
  created_at : option Z
}.

Definition set_status (s : option Status) (r : t) : t :=
  mk (id r) (case_id r) (citizen_name r) (email r) (phone r) (image_path r)
     (location r) (description r) (issue_type r) s (created_at r).

Definition set_location (l : string) (r : t) : t :=
  mk (id r) (case_id r) (citizen_name r) (email r) (phone r) (image_path r)
     l (description r) (issue_type r) (status r) (created_at r).

Definition set_issue_type (i : string) (r : t) : t :=
  mk (id r) (case_id r) (citizen_name r) (email r) (phone r) (image_path r)
     (location r) (description r) i (status r) (created_at r).

Definition set_case_id (c : option string) (r : t) : t :=
  mk (id r) c (citizen_name r) (email r) (phone r) (image_path r)
     (location r) (description r) (issue_type r) (status r) (created_at r).
End Report.

(** A row of [admin_users]. *)
Module AdminUser.
Record t := mk {
  id : Z;
  username : string;
  password_hash : string;
  role : string;
  created_at : Z
}.
End AdminUser.

(** [req.session.user]. *)
Record SessionUser := mkSessionUser {
  su_id : Z;
  su_username : string;
  su_role : string
}.

(** Values of result rows and of response bodies. *)
Inductive JVal :=
| JNull
| JBool (b : bool)
| JNum (n : Z)
| JStr (s : string)
| JDate (t : Z).

(** A result row, or a JSON object: its keys in order, with their values. *)
Definition Row : Type := list (string * JVal).

Definition jopt (o : option string) : JVal :=
  match o with Some s => JStr s | None => JNull end.

Definition jstatus (o : option Status) : JVal :=
  match o with Some s => JStr (status_name s) | None => JNull end.

Definition jdate (o : option Z) : JVal :=
  match o with Some t => JDate t | None => JNull end.

(** [SELECT * FROM reports]: all the columns, in table order. *)
Definition row_of_report (r : Report.t) : Row :=
       [ ("id", JNum (Report.id r));
         ("case_id", jopt (Report.case_id r));
         ("citizen_name", jopt (Report.citizen_name r));
         ("email", jopt (Report.email r));
         ("phone", jopt (Report.phone r));
         ("image_path", jopt (Report.image_path r));
         ("location", JStr (Report.location r));
         ("description", jopt (Report.description r));
         ("issue_type", JStr (Report.issue_type r));
         ("status", jstatus (Report.status r));
         ("created_at", jdate (Report.created_at r)) ].

(** [SELECT case_id, status, issue_type, location, created_at]. *)
Definition public_projection (r : Report.t) : Row :=
       [ ("case_id", jopt (Report.case_id r));
         ("status", jstatus (Report.status r));
         ("issue_type", JStr (Report.issue_type r));
         ("location", JStr (Report.location r));
         ("created_at", jdate (Report.created_at r)) ].

(** [SELECT id, case_id, issue_type, status, created_at]. *)
Definition dashboard_projection (r : Report.t) : Row :=
       [ ("id", JNum (Report.id r));
         ("case_id", jopt (Report.case_id r));
         ("issue_type", JStr (Report.issue_type r));
         ("status", jstatus (Report.status r));
         ("created_at", jdate (Report.created_at r)) ].

Definition row_of_admin (u : AdminUser.t) : Row :=
       [ ("id", JNum (AdminUser.id u));
         ("username", JStr (AdminUser.username u));
         ("password_hash", JStr (AdminUser.password_hash u));
         ("role", JStr (AdminUser.role u));
         ("created_at", JDate (AdminUser.created_at u)) ].

(* ================================================================== *)
(** ** The world a handler runs in *)

(** The statements the application sends, with the parameters bound. *)
Inductive Stmt :=
| CREATE_DATABASE (db : string)
| USE (db : string)
| CREATE_TABLE_reports
| CREATE_TABLE_admin_users
| SELECT_admin_id_by_username (username : string)
| INSERT_admin_user (username : string)
| INSERT_report (case_id : string)
| SELECT_report_by_case_id (caseId : string)
| SELECT_projection_by_case_id (caseId : string)
| SELECT_admin_by_username (username : JS.value)
| SELECT_recent_reports
| SELECT_report_by_id (id : string)
| UPDATE_report_status (status : JS.value) (id : string).

(** Errors a handler can see. *)
Inductive Err :=
| ConnectionError        (** [pool.getConnection()] rejected *)
| QueryError             (** the statement failed outside the model: link, server *)
| ER_DUP_ENTRY           (** a UNIQUE key already holds the value *)
| ER_BAD_NULL_ERROR      (** NULL into a NOT NULL column *)
| ER_DATA_TOO_LONG       (** a string longer than its column *)
| WARN_DATA_TRUNCATED    (** a string the enumerated column does not take *)
| StatementRefused       (** the statement built from a parameter that is no
                             text: a syntax error, an unknown column, a value
                             its column does not take *)
| BcryptError            (** [bcrypt.compare] on data that is no string *)
| OnlyJpgPngAllowed      (** [new Error('Only JPG/PNG allowed')] *)
| LIMIT_FILE_SIZE        (** multer: a file that reaches [limits.fileSize] *)
| LIMIT_UNEXPECTED_FILE  (** multer: a file the route does not expect *)
| IntakeError (code : string).
                         (** multer or busboy on another part: a field over
                             a default limit, a malformed body *)

(** The provisioned database, the pool, and the client's session.
    [faults] is an oracle: each connection request and each statement
    consumes one flag, and fails when the flag is set; an exhausted
    oracle means no further failure.  [log] lists the statements sent,
    oldest first. *)
Record World := mkWorld {
  reports : list Report.t;
  reports_auto_increment : Z;
  admin_users : list AdminUser.t;
  admin_users_auto_increment : Z;
  current_timestamp : Z;
  held : nat;
  faults : list bool;
  log : list Stmt;
  session_user : option SessionUser
}.

Definition set_reports (rs : list Report.t) (n : Z) (w : World) : World :=
  mkWorld rs n (admin_users w) (admin_users_auto_increment w)
          (current_timestamp w) (held w) (faults w) (log w) (session_user w).

Definition set_admin_users (us : list AdminUser.t) (n : Z) (w : World) : World :=
  mkWorld (reports w) (reports_auto_increment w) us n
          (current_timestamp w) (held w) (faults w) (log w) (session_user w).

Definition set_held (h : nat) (w : World) : World :=
  mkWorld (reports w) (reports_auto_increment w) (admin_users w)
          (admin_users_auto_increment w) (current_timestamp w) h (faults w)
          (log w) (session_user w).

Definition set_faults (fs : list bool) (w : World) : World :=
  mkWorld (reports w) (reports_auto_increment w) (admin_users w)
          (admin_users_auto_increment w) (current_timestamp w) (held w) fs
          (log w) (session_user w).

Definition add_log (s : Stmt) (w : World) : World :=
  mkWorld (reports w) (reports_auto_increment w) (admin_users w)
          (admin_users_auto_increment w) (current_timestamp w) (held w)
          (faults w) (log w ++ [s]) (session_user w).

Definition set_session_user (u : option SessionUser) (w : World) : World :=
  mkWorld (reports w) (reports_auto_increment w) (admin_users w)
          (admin_users_auto_increment w) (current_timestamp w) (held w)
          (faults w) (log w) u.

(* ================================================================== *)
(** ** Computations: state, exceptions, and a promise that may not settle *)

Inductive Outcome (A : Type) :=
| Returned (a : A)
| Thrown (e : Err)
| Pending.

Arguments Returned {A} a.
Arguments Thrown {A} e.
Arguments Pending {A}.

Definition M (A : Type) : Type := World -> Outcome A * World.

Definition ret {A} (a : A) : M A := fun w => (Returned a, w).

Definition throw {A} (e : Err) : M A := fun w => (Thrown e, w).

Definition bind {A B} (m : M A) (k : A -> M B) : M B :=
  fun w =>
    match m w with
    | (Returned a, w') => k a w'
    | (Thrown e, w') => (Thrown e, w')
    | (Pending, w') => (Pending, w')
    end.

Declare Scope js_scope.
Delimit Scope js_scope with js.
Notation "x <- m ;; k" := (bind m (fun x => k))
  (at level 61, m at next level, right associativity) : js_scope.
Notation "m ;; k" := (bind m (fun _ => k))
  (at level 61, right associativity) : js_scope.
Local Open Scope js_scope.

(** The [finally] block runs after a settled [try]/[catch]; the value or
    exception of the block stands unless [finally] itself throws. *)
Definition and_finally {A} (fin : M unit) (o : Outcome A) : M A :=
  fun w =>
    match fin w with
    | (Returned _, w') => (o, w')
    | (Thrown e, w') => (Thrown e, w')
    | (Pending, w') => (Pending, w')
    end.

(** [try { body } catch (e) { handler e } finally { fin }]. *)
Definition try_catch_finally {A}
    (body : M A) (handler : Err -> M A) (fin : M unit) : M A :=
  fun w =>
    match body w with
    | (Returned a, w1) => and_finally fin (Returned a) w1
    | (Thrown e, w1) =>
        match handler e w1 with
        | (Pending, w2) => (Pending, w2)
        | (o, w2) => and_finally fin o w2
        end
    | (Pending, w1) => (Pending, w1)
    end.

(** [try { body } finally { fin }]. *)
Definition try_finally {A} (body : M A) (fin : M unit) : M A :=
  try_catch_finally body throw fin.

(* ================================================================== *)
(** ** The connection pool and the statements *)

(** [connectionLimit: 10], [waitForConnections: true], [queueLimit: 0]. *)
Definition connectionLimit : nat := 10.

Definition take_fault (w : World) : bool * World :=
  (hd false (faults w), set_faults (tl (faults w)) w).

(** [await pool.getConnection()]: below the limit a connection is handed
    out, or the attempt fails; at the limit the caller is queued, and the
    promise stays unsettled for as long as nothing is released. *)
Definition getConnection : M unit :=
  fun w =>
    if (held w <? connectionLimit)%nat then
      let (f, w1) := take_fault w in
      if f then (Thrown ConnectionError, w1)
      else (Returned tt, set_held (S (held w1)) w1)
    else (Pending, w).

(** [req.session.user = u]. *)
Definition session_set_user (u : SessionUser) : M unit :=
  fun w => (Returned tt, set_session_user (Some u) w).

(** [conn.release()]. *)
Definition release : M unit :=
  fun w => (Returned tt, set_held (Nat.pred (held w)) w).

(** Sending a statement: it is logged, and fails when the oracle says so. *)
Definition statement (s : Stmt) : M unit :=
  fun w =>
    let (f, w1) := take_fault (add_log s w) in
    if f then (Thrown QueryError, w1) else (Returned tt, w1).

(** A string fits a [VARCHAR(n)] column (strict SQL mode: a longer one is
    an error, not a truncation); NULL always fits. *)
Definition fits (n : Z) (o : option string) : bool :=
  match o with
  | None => true
  | Some s => Z.of_nat (String.length s) <=? n
  end.

(** The declared widths of the columns of [reports]. *)
Definition fits_reports
    (case_id : string) (citizen_name email phone image_path : option string)
    (location : string) (description : option string) (issue_type : string)
  : bool :=
  fits 32 (Some case_id) && fits 100 citizen_name && fits 120 email
  && fits 20 phone && fits 255 image_path && fits 255 (Some location)
  && fits 65535 description && fits 32 (Some issue_type).

(** Rows in descending [id] order. *)
Fixpoint insert_desc (r : Report.t) (rs : list Report.t) : list Report.t :=
  match rs with
  | [] => [r]
  | x :: xs =>
      if Report.id x <=? Report.id r then r :: x :: xs
      else x :: insert_desc r xs
  end.

Definition order_by_id_desc (rs : list Report.t) : list Report.t :=
  fold_right insert_desc [] rs.

(** [SELECT id, case_id, issue_type, status, created_at FROM reports
    ORDER BY id DESC LIMIT 100]. *)
Definition query_select_recent_reports : M (list Row) :=
  statement SELECT_recent_reports ;;
  fun w =>
    (Returned (map dashboard_projection
                   (firstn 100 (order_by_id_desc (reports w)))), w).

(** What the application takes from outside.
    - [sql_id_eq]: the store's comparison of the integer column [id] with
      the string bound to [?].
    - [collation]: the weight of a string under the collation of the text
      columns; the store holds two strings equal when their weights are.
    - [enum_of_text]: what the column [status] makes of a string that is
      not the name of a member: the cell it stores (a member whose name
      has the same weight, the member at a quoted index), or nothing when
      it refuses the statement.
    - [foreign_value]: what the store evaluates a parameter of the INSERT
      to when the parameter is no text, given all the parameters of the
      statement: the value of the column, or nothing when the statement
      is refused.
    - [foreign_status]: what [SET status=?] does to a row when the
      parameter is no text: nothing when the statement is refused as a
      whole; otherwise the row written in place of each row of the id, or
      nothing when the store refuses that.
    - [foreign_username]: the rows [WHERE username=?] selects when the
      parameter is no text, or nothing when the statement is refused.
    - [bcrypt_hash], [bcrypt_compare]: bcrypt on strings. *)
Class Platform := {
  sql_id_eq : string -> Z -> bool;
  collation : string -> string;
  enum_of_text : string -> option Status;
  foreign_value : list JS.value -> JS.value -> option (option string);
  foreign_status : JS.value -> option (Report.t -> option Report.t);
  foreign_username : JS.value -> option (AdminUser.t -> bool);
  bcrypt_hash : string -> string;
  bcrypt_compare : string -> string -> bool
}.

Section Queries.
Context {P : Platform}.

(** Equality of text, as the store sees it. *)
Definition sql_eq (a b : string) : bool :=
  String.eqb (collation a) (collation b).

(** The row carries that case identifier; NULL equals nothing. *)
Definition carries (caseId : string) (r : Report.t) : bool :=
  match Report.case_id r with
  | Some c => sql_eq c caseId
  | None => false
  end.

Definition case_id_taken (case_id : string) (rs : list Report.t) : bool :=
  existsb (carries case_id) rs.

(** The value a column takes from its parameter. *)
Definition column (params : list JS.value) (v : JS.value)
  : option (option string) :=
  match JS.as_text v with
  | Some c => Some c
  | None => foreign_value params v
  end.

Definition of_text (o : option string) : JS.value :=
  match o with Some s => JS.Str s | None => JS.Null end.

(** What the store does with [INSERT INTO reports (case_id, citizen_name,
    email, phone, image_path, location, description, issue_type) VALUES
    (?,?,?,?,?,?,?,?)]: [id] from the counter, [status] and [created_at]
    from their defaults.  The identifier and the image path are always
    text. *)
Definition insert_report
    (case_id : string) (citizen_name email phone : JS.value)
    (image_path : option string)
    (location description issue_type : JS.value) : M unit :=
  fun w =>
    let params := [JS.Str case_id; citizen_name; email; phone;
                   of_text image_path; location; description; issue_type] in
    match column params citizen_name, column params email,
          column params phone, column params location,
          column params description, column params issue_type with
    | Some n, Some e, Some p, Some l, Some d, Some t =>
        match l, t with
        | Some loc, Some it =>
            if negb (fits_reports case_id n e p image_path loc d it)
            then (Thrown ER_DATA_TOO_LONG, w)
            else if case_id_taken case_id (reports w)
            then (Thrown ER_DUP_ENTRY, w)
            else
              let r := Report.mk (reports_auto_increment w) (Some case_id)
                                 n e p image_path loc d it
                                 (Some NEW) (Some (current_timestamp w)) in
              (Returned tt,
               set_reports (reports w ++ [r]) (reports_auto_increment w + 1) w)
        | _, _ => (Thrown ER_BAD_NULL_ERROR, w)
        end
    | _, _, _, _, _, _ => (Thrown StatementRefused, w)
    end.

Definition query_insert_report
    (case_id : string) (citizen_name email phone : JS.value)
    (image_path : option string)
    (location description issue_type : JS.value) : M unit :=
  statement (INSERT_report case_id) ;;
  insert_report case_id citizen_name email phone image_path
                location description issue_type.

(** The rows [WHERE case_id = ?] selects. *)
Definition select_by_case_id (caseId : string) (rs : list Report.t)
  : list Report.t :=
  filter (carries caseId) rs.

(** [SELECT * FROM reports WHERE case_id = ?]. *)
Definition query_select_report_by_case_id (caseId : string) : M (list Row) :=
  statement (SELECT_report_by_case_id caseId) ;;
  fun w => (Returned (map row_of_report (select_by_case_id caseId (reports w))), w).

(** [SELECT case_id, status, issue_type, location, created_at FROM reports
    WHERE case_id = ?]. *)
Definition query_select_projection_by_case_id (caseId : string)
  : M (list Row) :=
  statement (SELECT_projection_by_case_id caseId) ;;
  fun w =>
    (Returned (map public_projection (select_by_case_id caseId (reports w))), w).

(** The administrator has that name. *)
Definition named (username : string) (u : AdminUser.t) : bool :=
  sql_eq (AdminUser.username u) username.

(** The test of [WHERE username=?]: NULL equals nothing. *)
Definition username_matches (username : JS.value)
  : option (AdminUser.t -> bool) :=
  match JS.as_text username with
  | Some None => Some (fun _ => false)
  | Some (Some s) => Some (named s)
  | None => foreign_username username
  end.

(** [SELECT * FROM admin_users WHERE username=?]. *)
Definition query_select_admin_by_username (username : JS.value)
  : M (list AdminUser.t) :=
  statement (SELECT_admin_by_username username) ;;
  match username_matches username with
  | Some test => fun w => (Returned (filter test (admin_users w)), w)
  | None => throw StatementRefused
  end.

(** [SELECT id FROM admin_users WHERE username=?]. *)
Definition query_select_admin_id_by_username (username : string)
  : M (list Z) :=
  statement (SELECT_admin_id_by_username username) ;;
  fun w =>
    (Returned (map AdminUser.id (filter (named username) (admin_users w))), w).

(** [INSERT INTO admin_users (username, password_hash) VALUES (?, ?)]. *)
Definition query_insert_admin_user (username hash : string) : M unit :=
  statement (INSERT_admin_user username) ;;
  fun w =>
    if negb (fits 50 (Some username) && fits 255 (Some hash))
    then (Thrown ER_DATA_TOO_LONG, w)
    else if existsb (named username) (admin_users w)
    then (Thrown ER_DUP_ENTRY, w)
    else
      let u := AdminUser.mk (admin_users_auto_increment w) username hash
                            "officer" (current_timestamp w) in
      (Returned tt,
       set_admin_users (admin_users w ++ [u])
                       (admin_users_auto_increment w + 1) w).

Definition id_matches (id : string) (r : Report.t) : bool :=
  sql_id_eq id (Report.id r).

(** [SELECT * FROM reports WHERE id=?]. *)
Definition query_select_report_by_id (id : string) : M (list Row) :=
  statement (SELECT_report_by_id id) ;;
  fun w => (Returned (map row_of_report (filter (id_matches id) (reports w))), w).

(** What the enumerated column makes of a string: the name of a member is
    stored as that member; of any other string the store decides. *)
Definition status_of_string (s : string) : option Status :=
  match member_named s with
  | Some st => Some st
  | None => enum_of_text s
  end.

Definition apply_status (s : option Status) (id : string) (r : Report.t)
  : Report.t :=
  if id_matches id r then Report.set_status s r else r.

(** The rows of the id rewritten one by one, the others kept; nothing
    when one of them is refused. *)
Fixpoint rewrite_rows (f : Report.t -> option Report.t) (id : string)
    (rs : list Report.t) : option (list Report.t) :=
  match rs with
  | [] => Some []
  | r :: rest =>
      match (if id_matches id r then f r else Some r),
            rewrite_rows f id rest with
      | Some r', Some rest' => Some (r' :: rest')
      | _, _ => None
      end
  end.

(** The keys of [reports]: no two rows with the same [id] (PRIMARY KEY),
    no two with the same [case_id] (UNIQUE; NULL excepted). *)
Definition same_key (r x : Report.t) : bool :=
  (Report.id x =? Report.id r)
  || match Report.case_id r with
     | Some c => carries c x
     | None => false
     end.

Fixpoint distinct_keys (rs : list Report.t) : bool :=
  match rs with
  | [] => true
  | r :: rest => negb (existsb (same_key r) rest) && distinct_keys rest
  end.

(** What the store does with [UPDATE reports SET status=? WHERE id=?].
    An [undefined] status is written NULL, which the nullable column
    takes; a string the column does not take is refused when a row is to
    be written.  A parameter that is no text is expanded by the driver
    into the statement, which is still one UPDATE of the rows of the id:
    it adds and removes no row and leaves the other rows alone, and the
    keys of the table hold after it. *)
Definition update_status (status : JS.value) (id : string) : M unit :=
  fun w =>
    match JS.as_text status with
    | Some text =>
        if existsb (id_matches id) (reports w) then
          match text with
          | None =>
              (Returned tt,
               set_reports (map (apply_status None id) (reports w))
                           (reports_auto_increment w) w)
          | Some s =>
              match status_of_string s with
              | Some st =>
                  (Returned tt,
                   set_reports (map (apply_status (Some st) id) (reports w))
                               (reports_auto_increment w) w)
              | None => (Thrown WARN_DATA_TRUNCATED, w)
              end
          end
        else (Returned tt, w)
    | None =>
        match foreign_status status with
        | Some f =>
            if existsb (id_matches id) (reports w) then
              match rewrite_rows f id (reports w) with
              | Some rs =>
                  if distinct_keys rs
                  then (Returned tt,
                        set_reports rs (reports_auto_increment w) w)
                  else (Thrown ER_DUP_ENTRY, w)
              | None => (Thrown StatementRefused, w)
              end
            else (Returned tt, w)
        | None => (Thrown StatementRefused, w)
        end
    end.

Definition query_update_status (status : JS.value) (id : string) : M unit :=
  statement (UPDATE_report_status status id) ;;
  update_status status id.
End Queries.

(* ================================================================== *)
(** ** Media intake: multer *)

(** A part of a multipart body, as busboy hands it to multer.  A file
    part comes with the name of its field, the file name as sent and the
    number of bytes of the file.  Any other part is a text field, which
    multer adds to [req.body], unless it trips one of the limits multer
    leaves at their defaults or the body is malformed there: the request
    is then aborted with that error. *)
Inductive Part :=
| FilePart (fieldname filename : string) (size : Z)
| OtherPart (abort : option Err).

Definition is_separator (c : ascii) : bool :=
  Ascii.eqb c "/" || Ascii.eqb c "\".

(** What follows the last [/] or [\] of a string that has one. *)
Fixpoint after_separator (s : string) : option string :=
  match s with
  | EmptyString => None
  | String c r =>
      match after_separator r with
      | Some t => Some t
      | None => if is_separator c then Some r else None
      end
  end.

(** busboy's [basename], applied to the file name of every file part:
    what follows the last separator, and nothing for [.] and [..]. *)
Definition basename (p : string) : string :=
  let b := match after_separator p with Some t => t | None => p end in
  if String.eqb b ".." || String.eqb b "." then "" else b.

(** The [file] object multer builds for a file part. *)
Record Upload := mkUpload {
  originalname : string;
  size : Z
}.

(** [req.file], once multer has stored the upload. *)
Record MulterFile := mkMulterFile {
  filename : string
}.

(** [storage.filename]. *)
Definition storage_filename (rt : Runtime) (file : Upload) : string :=
  let ext := JS.toLowerCase (JS.extname (originalname file)) in
  JS.toString (date_now rt) ++ "-" ++ JS.toString (rand_1e9 rt) ++ ext.

Definition allowed : list string := [".jpg"; ".jpeg"; ".png"].

(** [fileFilter]: the callback's error, or its verdict. *)
Definition fileFilter (file : Upload) : Err + bool :=
  let ext := JS.toLowerCase (JS.extname (originalname file)) in
  if negb (existsb (String.eqb ext) allowed) then inl OnlyJpgPngAllowed
  else inr true.

(** [limits: { fileSize: 5 * 1024 * 1024 }], in bytes. *)
Definition fileSize : Z := 5 * 1024 * 1024.

(** What multer does with one file part. *)
Inductive Verdict :=
| Skipped                  (** no file name: the part is drained *)
| Filtered                 (** the filter said no: the part is drained *)
| Aborted (e : Err)        (** the request ends with [next(e)] *)
| Stored (f : MulterFile). (** the file is on disk *)

(** multer's handler of a file part on a route with
    [upload.single('photo')]; [left] is the number of files the field
    [photo] may still take.  The part is skipped when its file name has
    no base name; a file under another field, or one too many, is
    unexpected; then comes the filter; the file is written unless its
    size reaches the limit. *)
Definition handle_file (rt : Runtime) (left : nat)
    (fieldname filename : string) (size : Z) : Verdict :=
  let name := basename filename in
  if String.eqb name "" then Skipped
  else if negb (String.eqb fieldname "photo") || (left =? 0)%nat
  then Aborted LIMIT_UNEXPECTED_FILE
  else
    let file := mkUpload name size in
    match fileFilter file with
    | inl e => Aborted e
    | inr false => Filtered
    | inr true =>
        if fileSize <=? size then Aborted LIMIT_FILE_SIZE
        else Stored (mkMulterFile (storage_filename rt file))
    end.

(** The parts in order, up to the first that aborts the request. *)
Fixpoint intake (rt : Runtime) (left : nat) (stored : option MulterFile)
    (parts : list Part) : Err + option MulterFile :=
  match parts with
  | [] => inr stored
  | OtherPart (Some e) :: _ => inl e
  | OtherPart None :: rest => intake rt left stored rest
  | FilePart fieldname filename size :: rest =>
      match handle_file rt left fieldname filename size with
      | Skipped => intake rt left stored rest
      | Filtered => intake rt (Nat.pred left) stored rest
      | Aborted e => inl e
      | Stored f => intake rt (Nat.pred left) (Some f) rest
      end
  end.

(** [upload.single('photo')]: the error handed to [next], or [req.file].
    A body that is not multipart has no parts. *)
Definition upload_single (rt : Runtime) (parts : list Part)
  : Err + option MulterFile :=
  intake rt 1 None parts.

(* ================================================================== *)
(** ** Requests and responses *)

(** [req.body]: the fields the handlers read. *)
Module Body.
Record t := mk {
  citizen_name : JS.value;
  email : JS.value;
  phone : JS.value;
  location : JS.value;
  description : JS.value;
  issue_type : JS.value;
  status : JS.value;
  username : JS.value;
  password : JS.value
}.
End Body.

(** [req.params]. *)
Module Params.
Record t := mk {
  caseId : string;
  id : string
}.
End Params.

Record Request := mkRequest {
  body : Body.t;
  params : Params.t;
  parts : list Part;          (** the parts of a multipart body, in order *)
  file : option MulterFile    (** [req.file], after multer *)
}.

Definition with_file (f : option MulterFile) (req : Request) : Request :=
  mkRequest (body req) (params req) (parts req) f.

(** A local handed to a view. *)
Inductive Local :=
| LVal (v : JVal)
| LRow (r : Row)
| LRows (rs : list Row).

(** What the handler answers: [res.status(c).json(o)] ([res.json] is status
    200), [res.status(c).send(s)], [res.render(view, locals)],
    [res.redirect(url)]. *)
Inductive Response :=
| Json (code : Z) (o : Row)
| Send (code : Z) (text : string)
| Render (view : string) (locals : list (string * Local))
| Redirect (url : string).

Definition image_path_of (f : option MulterFile) : option string :=
  match f with
  | Some f => Some ("/uploads/" ++ filename f)
  | None => None
  end.

Definition dbName (rt : Runtime) : string :=
  JS.or_else (DB_NAME rt) "billboard_portal".

(* ================================================================== *)
(** ** Startup *)

Definition ensureDatabase (rt : Runtime) : M unit :=
  getConnection ;;
  try_finally
    (statement (CREATE_DATABASE (dbName rt)) ;;
     statement (USE (dbName rt)) ;;
     statement CREATE_TABLE_reports ;;
     statement CREATE_TABLE_admin_users)
    release.

Section Handlers.
Context {P : Platform}.

Definition ensureAdminUser (rt : Runtime) : M unit :=
  let username := JS.or_else (ADMIN_USERNAME rt) "admin" in
  let password := JS.or_else (ADMIN_PASSWORD rt) "admin123" in
  getConnection ;;
  try_finally
    (statement (USE (dbName rt)) ;;
     rows <- query_select_admin_id_by_username username ;;
     match rows with
     | [] =>
         let hash := bcrypt_hash password in
         query_insert_admin_user username hash
     | _ :: _ => ret tt
     end)
    release.

(** [ensureAuth]. *)
Definition ensureAuth (next : M Response) : M Response :=
  fun w =>
    match session_user w with
    | Some _ => next w
    | None => (Returned (Redirect "/admin/login"), w)
    end.

(* ---------------------------------------------------------------- *)
(** *** Public routes *)

(** [app.post('/report', ...)], after the upload. *)
Definition POST_report (rt : Runtime) (req : Request) : M Response :=
  getConnection ;;
  try_catch_finally
    (statement (USE (dbName rt)) ;;
     let b := body req in
     let case_id := genCaseId rt in
     let image_path := image_path_of (file req) in
     query_insert_report case_id
       (JS.or_null (Body.citizen_name b)) (JS.or_null (Body.email b))
       (JS.or_null (Body.phone b)) image_path (Body.location b)
       (JS.or_null (Body.description b)) (Body.issue_type b) ;;
     ret (Render "success" [("title", LVal (JStr "Submitted"));
                            ("caseId", LVal (JStr case_id))]))
    (fun e => ret (Send 500 "Failed to submit report."))
    release.

(** [app.get('/track/:caseId', ...)]. *)
Definition GET_track_caseId (rt : Runtime) (req : Request) : M Response :=
  getConnection ;;
  try_catch_finally
    (statement (USE (dbName rt)) ;;
     let caseId := Params.caseId (params req) in
     rows <- query_select_report_by_case_id caseId ;;
     match rows with
     | [] => ret (Render "track_case" [("title", LVal (JStr "Track"));
                                       ("report", LVal JNull)])
     | report :: _ =>
         ret (Render "track_case" [("title", LVal (JStr "Track"));
                                   ("report", LRow report)])
     end)
    (fun e => ret (Send 500 "Failed to fetch case."))
    release.

(* ---------------------------------------------------------------- *)
(** *** REST API *)

(** [app.post('/api/reports', ...)], after the upload. *)
Definition POST_api_reports (rt : Runtime) (req : Request) : M Response :=
  getConnection ;;
  try_catch_finally
    (statement (USE (dbName rt)) ;;
     let b := body req in
     if negb (JS.truthy (Body.location b))
        || negb (JS.truthy (Body.issue_type b))
     then ret (Json 400 [("error", JStr "location and issue_type required")])
     else
       let case_id := genCaseId rt in
       let image_path := image_path_of (file req) in
       query_insert_report case_id
         (JS.or_null (Body.citizen_name b)) (JS.or_null (Body.email b))
         (JS.or_null (Body.phone b)) image_path (Body.location b)
         (JS.or_null (Body.description b)) (Body.issue_type b) ;;
       ret (Json 200 [("ok", JBool true); ("case_id", JStr case_id)]))
    (fun e => ret (Json 500 [("ok", JBool false); ("error", JStr "failed")]))
    release.

(** [app.get('/api/reports/:caseId', ...)]. *)
Definition GET_api_reports_caseId (rt : Runtime) (req : Request)
  : M Response :=
  getConnection ;;
  try_catch_finally
    (statement (USE (dbName rt)) ;;
     let caseId := Params.caseId (params req) in
     rows <- query_select_projection_by_case_id caseId ;;
     match rows with
     | [] => ret (Json 404 [("error", JStr "not found")])
     | row :: _ => ret (Json 200 row)
     end)
    (fun e => ret (Json 500 [("error", JStr "failed")]))
    release.

(** A route with [upload.single('photo')] in front: an upload error goes
    to [next(err)] and the handler does not run. *)
Definition after_upload (handler : Runtime -> Request -> M Response)
    (rt : Runtime) (req : Request) : M Response :=
  match upload_single rt (parts req) with
  | inl e => throw e
  | inr f => handler rt (with_file f req)
  end.

Definition route_POST_report := after_upload POST_report.
Definition route_POST_api_reports := after_upload POST_api_reports.

(* ---------------------------------------------------------------- *)
(** *** Administration *)

Definition invalid_credentials : Response :=
  Render "admin_login" [("title", LVal (JStr "Login"));
                        ("error", LVal (JStr "Invalid credentials"))].

(** [await bcrypt.compare(password, hash)]: data that is no string is
    rejected. *)
Definition compare_password (password : JS.value) (hash : string) : M bool :=
  match password with
  | JS.Str pw => ret (bcrypt_compare pw hash)
  | _ => throw BcryptError
  end.

(** [app.post('/admin/login', ...)]. *)
Definition POST_admin_login (rt : Runtime) (req : Request) : M Response :=
  let username := Body.username (body req) in
  let password := Body.password (body req) in
  getConnection ;;
  try_catch_finally
    (statement (USE (dbName rt)) ;;
     rows <- query_select_admin_by_username username ;;
     match rows with
     | [] => ret invalid_credentials
     | user :: _ =>
         ok <- compare_password password (AdminUser.password_hash user) ;;
         if negb ok then ret invalid_credentials
         else
           session_set_user (mkSessionUser (AdminUser.id user)
                                            (AdminUser.username user)
                                            (AdminUser.role user)) ;;
           ret (Redirect "/admin/dashboard")
     end)
    (fun e => ret (Send 500 "Login failed"))
    release.

(** [app.get('/admin/dashboard', ensureAuth, ...)]. *)
Definition GET_admin_dashboard (rt : Runtime) (req : Request)
  : M Response :=
  ensureAuth
    (getConnection ;;
     try_catch_finally
       (statement (USE (dbName rt)) ;;
        rows <- query_select_recent_reports ;;
        ret (Render "admin_dashboard" [("title", LVal (JStr "Dashboard"));
                                       ("reports", LRows rows)]))
       (fun e => ret (Send 500 "Failed to load dashboard"))
       release).

(** [app.get('/admin/case/:id', ensureAuth, ...)]. *)
Definition GET_admin_case_id (rt : Runtime) (req : Request) : M Response :=
  ensureAuth
    (getConnection ;;
     try_catch_finally
       (statement (USE (dbName rt)) ;;
        let id := Params.id (params req) in
        rows <- query_select_report_by_id id ;;
        match rows with
        | [] => ret (Send 404 "Not found")
        | row :: _ =>
            ret (Render "admin_case" [("title", LVal (JStr "Case"));
                                      ("report", LRow row)])
        end)
       (fun e => ret (Send 500 "Failed to load case"))
       release).

(** [app.post('/admin/case/:id/status', ensureAuth, ...)]. *)
Definition POST_admin_case_id_status (rt : Runtime) (req : Request)
  : M Response :=
  ensureAuth
    (getConnection ;;
     try_catch_finally
       (statement (USE (dbName rt)) ;;
        let id := Params.id (params req) in
        let status := Body.status (body req) in
        query_update_status status id ;;
        ret (Redirect ("/admin/case/" ++ id)))
       (fun e => ret (Send 500 "Failed to update status"))
       release).

(* ---------------------------------------------------------------- *)
(** *** Every operation that uses the store *)

Inductive Operation :=
| Startup_ensureDatabase
| Startup_ensureAdminUser
| Route_POST_report (req : Request)
| Route_GET_track_caseId (req : Request)
| Route_POST_api_reports (req : Request)
| Route_GET_api_reports_caseId (req : Request)
| Route_POST_admin_login (req : Request)
| Route_GET_admin_dashboard (req : Request)
| Route_GET_admin_case_id (req : Request)
| Route_POST_admin_case_id_status (req : Request).

Definition responding (m : M Response) : M (option Response) :=
  r <- m ;; ret (Some r).

Definition silent (m : M unit) : M (option Response) :=
  m ;; ret None.

Definition exec (rt : Runtime) (op : Operation) : M (option Response) :=
  match op with
  | Startup_ensureDatabase => silent (ensureDatabase rt)
  | Startup_ensureAdminUser => silent (ensureAdminUser rt)
  | Route_POST_report req => responding (route_POST_report rt req)
  | Route_GET_track_caseId req => responding (GET_track_caseId rt req)
  | Route_POST_api_reports req => responding (route_POST_api_reports rt req)
  | Route_GET_api_reports_caseId req =>
      responding (GET_api_reports_caseId rt req)
  | Route_POST_admin_login req => responding (POST_admin_login rt req)
  | Route_GET_admin_dashboard req => responding (GET_admin_dashboard rt req)
  | Route_GET_admin_case_id req => responding (GET_admin_case_id rt req)
  | Route_POST_admin_case_id_status req =>
      responding (POST_admin_case_id_status rt req)
  end.
End Handlers.

(* ================================================================== *)
(** ** Vocabulary of the properties *)

(** The decimal value of a string of digits. *)
Fixpoint parse_decimal_from (acc : Z) (s : string) : Z :=
  match s with
  | EmptyString => acc
  | String c r => parse_decimal_from (10 * acc + (Z.of_nat (nat_of_ascii c) - 48)) r
  end.

Definition parse_decimal (s : string) : Z := parse_decimal_from 0 s.

(** The oracle announces no failure: connections are handed out and
    statements reach the store. *)
Definition healthy (w : World) : Prop :=
  Forall (fun f => f = false) (faults w).

Definition pool_available (w : World) : Prop :=
  (held w < connectionLimit)%nat.

(** Two rows that differ in [status] at most. *)
Definition same_but_status (r r' : Report.t) : Prop :=
  Report.id r' = Report.id r
  /\ Report.case_id r' = Report.case_id r
  /\ Report.citizen_name r' = Report.citizen_name r
  /\ Report.email r' = Report.email r
  /\ Report.phone r' = Report.phone r
  /\ Report.image_path r' = Report.image_path r
  /\ Report.location r' = Report.location r
  /\ Report.description r' = Report.description r
  /\ Report.issue_type r' = Report.issue_type r
  /\ Report.created_at r' = Report.created_at r.


(** The same rows, changed in [status] at most. *)
Definition restatused (rs rs' : list Report.t) : Prop :=
  Forall2 same_but_status rs rs'.

(** The case identifiers on file. *)
Fixpoint case_ids (rs : list Report.t) : list string :=
  match rs with
  | [] => []
  | r :: rest =>
      match Report.case_id r with
      | Some c => c :: case_ids rest
      | None => case_ids rest
      end
  end.

(** No two rows carry the same case identifier. *)
Definition unique_case_ids (rs : list Report.t) : Prop :=
  NoDup (case_ids rs).

Definition keeps_unique (rs rs' : list Report.t) : Prop :=
  unique_case_ids rs -> unique_case_ids rs'.

(** A relation between worlds that looks at the rows of [reports] only. *)
Definition on_reports (Q : list Report.t -> list Report.t -> Prop)
    (w w' : World) : Prop :=
  Q (reports w) (reports w').

(** A computation that settles from every world, and whose final world is
    related to the initial one by [R]. *)
Definition steady (R : World -> World -> Prop) {A} (m : M A) : Prop :=
  forall w, R w (snd (m w)) /\ fst (m w) <> Pending.

(** A computation whose final world is related to the initial one. *)
Definition respects (R : World -> World -> Prop) {A} (m : M A) : Prop :=
  forall w, R w (snd (m w)).

(** As many connections are checked out after as before. *)
Definition same_held (w w' : World) : Prop := held w' = held w.

(** An operation gives back what it took from the pool however it ends,
    and ends whenever the pool has a connection to give. *)
Definition scoped {A} (m : M A) : Prop :=
  forall w,
    held (snd (m w)) = held w
    /\ (pool_available w -> fst (m w) <> Pending).

(** A submission lacks a required field. *)
Definition missing_required (req : Request) : Prop :=
  JS.truthy (Body.location (body req)) = false
  \/ JS.truthy (Body.issue_type (body req)) = false.

(** A field sent as text, or not at all: a string, [undefined] or
    [null]. *)
Definition plain (v : JS.value) : Prop :=
  v = JS.Undefined \/ v = JS.Null \/ exists s, v = JS.Str s.

(** What [x || null] binds for such a field: the string when there is one
    and it is not empty, NULL otherwise. *)
Definition text_or_null (v : JS.value) : option string :=
  match v with
  | JS.Str s => if String.eqb s "" then None else Some s
  | _ => None
  end.

(** The optional fields of the form are text, or absent. *)
Definition plain_options (req : Request) : Prop :=
  plain (Body.citizen_name (body req)) /\ plain (Body.email (body req))
  /\ plain (Body.phone (body req)) /\ plain (Body.description (body req)).

(** The row keeps the store within the widths of its columns. *)
Definition within_widths (rt : Runtime) (req : Request) (loc it : string)
  : Prop :=
  fits_reports (genCaseId rt)
               (text_or_null (Body.citizen_name (body req)))
               (text_or_null (Body.email (body req)))
               (text_or_null (Body.phone (body req)))
               (image_path_of (file req)) loc
               (text_or_null (Body.description (body req))) it = true.

(** A submission the store can take: the fields of the form are text,
    both required fields sent and not empty, every value within the width
    of its column, and the identifier drawn for it not yet in the table. *)
Definition storable {P : Platform}
    (rt : Runtime) (req : Request) (w : World) : Prop :=
  exists loc it,
    Body.location (body req) = JS.Str loc /\ loc <> ""
    /\ Body.issue_type (body req) = JS.Str it /\ it <> ""
    /\ plain_options req
    /\ within_widths rt req loc it
    /\ case_id_taken (genCaseId rt) (reports w) = false.

(** What is stored for an optional field sent as text or not at all: the
    value sent when there is one and it is not empty, NULL otherwise. *)
Definition stored_for (v : JS.value) (column : option string) : Prop :=
  match v with
  | JS.Str s => if String.eqb s "" then column = None else column = Some s
  | JS.Undefined | JS.Null => column = None
  | _ => True
  end.

(** An optional field left out, or sent empty. *)
Definition blank (v : JS.value) : Prop := v = JS.Undefined \/ v = JS.Str "".

(** The row has NULL wherever the submission has a blank optional field. *)
Definition nulls_for_blanks (req : Request) (r : Report.t) : Prop :=
  (blank (Body.citizen_name (body req)) -> Report.citizen_name r = None)
  /\ (blank (Body.email (body req)) -> Report.email r = None)
  /\ (blank (Body.phone (body req)) -> Report.phone r = None)
  /\ (blank (Body.description (body req)) -> Report.description r = None).


Definition known_id {P : Platform} (id : string) (w : World) : Prop :=
  exists r, In r (reports w) /\ sql_id_eq id (Report.id r) = true.

(** A field sent empty, taken out of the form. *)
Definition drop_empty (v : JS.value) : JS.value :=
  match v with
  | JS.Str s => if String.eqb s "" then JS.Undefined else v
  | _ => v
  end.

(** The request with every empty optional text field taken out. *)
Definition absent_if_empty (req : Request) : Request :=
  let b := body req in
  mkRequest
    (Body.mk (drop_empty (Body.citizen_name b)) (drop_empty (Body.email b))
             (drop_empty (Body.phone b)) (Body.location b)
             (drop_empty (Body.description b)) (Body.issue_type b)
             (Body.status b) (Body.username b) (Body.password b))
    (params req) (parts req) (file req).

(** The answers of the REST API. *)
Definition created (case_id : string) : Response :=
  Json 200 [("ok", JBool true); ("case_id", JStr case_id)].

Definition failed : Response :=
  Json 500 [("ok", JBool false); ("error", JStr "failed")].

Definition required : Response :=
  Json 400 [("error", JStr "location and issue_type required")].

Definition not_found : Response :=
  Json 404 [("error", JStr "not found")].


(** The operation is no status update, or one whose status is such. *)
Definition status_is (Ok : JS.value -> Prop) (op : Operation) : Prop :=
  match op with
  | Route_POST_admin_case_id_status req => Ok (Body.status (body req))
  | _ => True
  end.


(** A submission the form route stores: as [storable], but [location] and
    [issue_type] may be empty. *)
Definition acceptable {P : Platform}
    (rt : Runtime) (req : Request) (w : World) : Prop :=
  exists loc it,
    Body.location (body req) = JS.Str loc
    /\ Body.issue_type (body req) = JS.Str it
    /\ plain_options req
    /\ within_widths rt req loc it
    /\ case_id_taken (genCaseId rt) (reports w) = false.



(* ------------------------------------------------------------------ *)
(** *** A concrete deployment, for the scenarios *)

(** The enumerated column under the defaults of MySQL 8, on the strings
    of the scenarios: a name that differs from a member in the case of
    its letters is that member, a quoted index from 1 to 5 is the member
    at that index, and what is neither is refused. *)
Definition enum_of_text_default (s : string) : option Status :=
  let l := JS.toLowerCase s in
  if String.eqb l "new" then Some NEW
  else if String.eqb l "under_review" then Some UNDER_REVIEW
  else if String.eqb l "verified" then Some VERIFIED
  else if String.eqb l "action_taken" then Some ACTION_TAKEN
  else if String.eqb l "closed" then Some CLOSED
  else if String.eqb s "1" then Some NEW
  else if String.eqb s "2" then Some UNDER_REVIEW
  else if String.eqb s "3" then Some VERIFIED
  else if String.eqb s "4" then Some ACTION_TAKEN
  else if String.eqb s "5" then Some CLOSED
  else None.

(** The columns an object can assign in the scenarios, with their
    widths. *)
Definition assign_text (k s : string) (r : Report.t) : option Report.t :=
  if String.eqb k "location"
  then if fits 255 (Some s) then Some (Report.set_location s r) else None
  else if String.eqb k "issue_type"
  then if fits 32 (Some s) then Some (Report.set_issue_type s r) else None
  else if String.eqb k "case_id"
  then if fits 32 (Some s) then Some (Report.set_case_id (Some s) r) else None
  else None.

Definition assignable (entry : string * JS.value) : bool :=
  match entry with
  | (k, JS.Str _) =>
      String.eqb k "location" || String.eqb k "issue_type"
      || String.eqb k "case_id"
  | _ => false
  end.

Fixpoint assign_all (entries : list (string * JS.value)) (r : Report.t)
  : option Report.t :=
  match entries with
  | [] => Some r
  | (k, JS.Str s) :: rest =>
      match assign_text k s r with
      | Some r' => assign_all rest r'
      | None => None
      end
  | _ :: _ => None
  end.

(** [SET status=?] with an object for parameter, on the objects of the
    scenarios: the first key is [status], the others are [location],
    [issue_type] or [case_id], every value is a string.  The driver
    writes [SET status=`status` = 's', `k` = 'v', ...]: [status] takes the
    truth value of the comparison of the cell with [s] (true is index 1,
    the member [NEW]; false is index 0, which strict mode refuses; NULL
    stays NULL), then the other columns are assigned.  Every other
    parameter that is no text is refused here, which MySQL need not do;
    no scenario sends one. *)
Definition status_by_object (v : JS.value)
  : option (Report.t -> option Report.t) :=
  match v with
  | JS.Obj ((k, JS.Str s) :: rest) =>
      if String.eqb k "status" && forallb assignable rest then
        Some (fun r =>
                match Report.status r with
                | None => assign_all rest r
                | Some st =>
                    if String.eqb (JS.toLowerCase (status_name st))
                                  (JS.toLowerCase s)
                    then assign_all rest (Report.set_status (Some NEW) r)
                    else None
                end)
      else None
  | _ => None
  end.

(** Identifiers compared as decimal numerals, text without regard to the
    case of its letters, and a stand-in for bcrypt. *)
Definition decimal_platform : Platform :=
  {| sql_id_eq := fun s z => String.eqb s (JS.toString z);
     collation := JS.toLowerCase;
     enum_of_text := enum_of_text_default;
     foreign_value := fun _ _ => None;
     foreign_status := status_by_object;
     foreign_username := fun _ => None;
     bcrypt_hash := fun pw => "$2b$10$" ++ pw;
     bcrypt_compare := fun pw h => String.eqb h ("$2b$10$" ++ pw) |}.

(** A request served in 2025 whose random suffix is [draw]. *)
Definition in_2025 (draw : Z) : Runtime :=
  mkRuntime 2025 draw 1735689600000 123456789 None None None.

(** A provisioned store without rows, an idle pool, nobody logged in. *)
Definition fresh_world : World :=
  mkWorld [] 1 [] 1 1735689600 0 [] [] None.

Definition no_params : Params.t := Params.mk "" "".

(** A form with [location] and [issue_type], and a name when given. *)
Definition form (citizen_name location issue_type : JS.value) : Body.t :=
  Body.mk citizen_name JS.Undefined JS.Undefined location JS.Undefined
          issue_type JS.Undefined JS.Undefined JS.Undefined.

(** [{location: "Main St & 5th", issue_type: "pothole"}], no photo. *)
Definition pothole : Request :=
  mkRequest
    (form JS.Undefined (JS.Str "Main St & 5th") (JS.Str "pothole"))
    no_params [] None.

(** The same submission without its location. *)
Definition no_location : Request :=
  mkRequest (form JS.Undefined JS.Undefined (JS.Str "pothole"))
            no_params [] None.

(** The same submission with the name field of the form left empty. *)
Definition unnamed_pothole : Request :=
  mkRequest
    (form (JS.Str "") (JS.Str "Main St & 5th") (JS.Str "pothole"))
    no_params [] None.

(** The pool hands out a connection, the first statement fails. *)
Definition store_down : World :=
  mkWorld [] 1 [] 1 1735689600 0 [false; true] [] None.

(** Every connection of the pool is checked out. *)
Definition exhausted : World :=
  mkWorld [] 1 [] 1 1735689600 10 [] [] None.

(** One report on file, an officer logged in. *)
Definition on_file : Report.t :=
  Report.mk 1 (Some "REP2025000042") None None None None "Main St & 5th" None
            "pothole" (Some NEW) (Some 1735689600).

Definition triage : World :=
  mkWorld [on_file] 2 [] 1 1735689700 0 [] []
          (Some (mkSessionUser 1 "admin" "officer")).

(** [POST /admin/case/<id>/status] with [status] in the body. *)
Definition status_form (status : JS.value) : Body.t :=
  Body.mk JS.Undefined JS.Undefined JS.Undefined JS.Undefined JS.Undefined
          JS.Undefined status JS.Undefined JS.Undefined.

Definition set_status_request (id : string) (status : string) : Request :=
  mkRequest (status_form (JS.Str status)) (Params.mk "" id) [] None.

(** The same with the body [status[status]=NEW&status[location]=x], which
    [express.urlencoded({extended: true})] parses into an object. *)
Definition status_object_request (id : string) : Request :=
  mkRequest
    (status_form (JS.Obj [("status", JS.Str "NEW"); ("location", JS.Str "x")]))
    (Params.mk "" id) [] None.

(** [GET /api/reports/<caseId>]. *)
Definition track_request (caseId : string) : Request :=
  mkRequest (status_form JS.Undefined) (Params.mk caseId "") [] None.


(* ================================================================== *)
(** ** The rest of the application *)

Module URI.

Definition hex_digit (n : nat) : ascii :=
  if (n <? 10)%nat then ascii_of_nat (48 + n) else ascii_of_nat (55 + n).

(** [%XX], in upper-case hexadecimal. *)
Definition percent (byte : nat) : list ascii :=
  ["%"%char; hex_digit (byte / 16); hex_digit (byte mod 16)].

(** The characters [encodeURIComponent] leaves as they are: letters,
    digits and [- _ . ! ~ * ' ( )]. *)
Definition unreserved (c : ascii) : bool :=
  let n := nat_of_ascii c in
  ((65 <=? n) && (n <=? 90) || (97 <=? n) && (n <=? 122)
   || (48 <=? n) && (n <=? 57))%nat
  || existsb (Ascii.eqb c)
       ["-"; "_"; "."; "!"; "~"; "*"; "'"; "("; ")"]%char.

(** One character: kept, or the bytes of its UTF-8 encoding, each as
    [%XX]; a character from U+0080 to U+00FF takes two bytes. *)
Definition encode_char (c : ascii) : list ascii :=
  let n := nat_of_ascii c in
  if unreserved c then [c]
  else if (n <? 128)%nat then percent n
  else (percent (192 + n / 64) ++ percent (128 + n mod 64))%list.

(** [encodeURIComponent(s)]. *)
Definition encodeURIComponent (s : string) : string :=
  string_of_list_ascii (flat_map encode_char (list_ascii_of_string s)).

(** The other direction, one character at a time: the character a
    component starts with, and what follows it.  A [%XX] below 128 is
    that character; [%C2] and [%C3] open a two-byte sequence. *)
Definition hex_value (c : ascii) : option nat :=
  let n := nat_of_ascii c in
  if ((48 <=? n) && (n <=? 57))%nat then Some (n - 48)%nat
  else if ((65 <=? n) && (n <=? 70))%nat then Some (n - 55)%nat
  else None.

Definition byte_of (h1 h2 : ascii) : option nat :=
  match hex_value h1, hex_value h2 with
  | Some a, Some b => Some (16 * a + b)%nat
  | _, _ => None
  end.

Definition decode_head (l : list ascii) : option (ascii * list ascii) :=
  match l with
  | [] => None
  | c :: rest =>
      if negb (Ascii.eqb c "%") then Some (c, rest)
      else
        match rest with
        | h1 :: h2 :: rest1 =>
            match byte_of h1 h2 with
            | Some b1 =>
                if (b1 <? 128)%nat then Some (ascii_of_nat b1, rest1)
                else
                  match rest1 with
                  | p :: h3 :: h4 :: rest2 =>
                      match byte_of h3 h4 with
                      | Some b2 =>
                          if Ascii.eqb p "%"
                             && ((194 <=? b1) && (b1 <=? 195)
                                 && (128 <=? b2) && (b2 <? 192))%nat
                          then Some (ascii_of_nat
                                       ((b1 - 192) * 64 + (b2 - 128)),
                                     rest2)
                          else None
                      | None => None
                      end
                  | _ => None
                  end
            | None => None
            end
        | _ => None
        end
  end.

Fixpoint decode (fuel : nat) (l : list ascii) : option (list ascii) :=
  match l with
  | [] => Some []
  | _ :: _ =>
      match fuel with
      | O => None
      | S f =>
          match decode_head l with
          | Some (c, rest) =>
              match decode f rest with
              | Some cs => Some (c :: cs)
              | None => None
              end
          | None => None
          end
      end
  end.

End URI.

(** [app.get('/track', ...)], on [req.query.caseId]. *)
Definition GET_track (caseId : JS.field) : Response :=
  match caseId with
  | Some id =>
      if String.eqb id ""
      then Render "track" [("title", LVal (JStr "Track"))]
      else Redirect ("/track/" ++ URI.encodeURIComponent id)
  | None => Render "track" [("title", LVal (JStr "Track"))]
  end.

(** [app.get('/admin/logout', ...)]: the session is destroyed, then the
    browser is sent home. *)
Definition GET_admin_logout : M Response :=
  fun w => (Returned (Redirect "/"), set_session_user None w).

(** How the start of the process ends: [app.listen], or
    [process.exit(1)]. *)
Inductive Boot := Listening | Exit (code : Z).

Section Startup.
Context {P : Platform}.

(** The function called at the end of the file: the database, then the
    administrator, then the server; any exception ends the process. *)
Definition startup (rt : Runtime) : M Boot :=
  try_catch_finally
    (ensureDatabase rt ;;
     ensureAdminUser rt ;;
     ret Listening)
    (fun e => ret (Exit 1))
    (ret tt).

End Startup.

(* ------------------------------------------------------------------ *)
(** *** Vocabulary of the properties of the rest *)

(** An administrator of that name, as the store compares names, is on
    file. *)
Definition admin_named {P : Platform} (username : string) (w : World)
  : Prop :=
  exists u, In u (admin_users w) /\ named username u = true.

(** The name and the password of the administrator created at startup. *)
Definition configured_username (rt : Runtime) : string :=
  JS.or_else (ADMIN_USERNAME rt) "admin".

Definition configured_password (rt : Runtime) : string :=
  JS.or_else (ADMIN_PASSWORD rt) "admin123".

(** A login form. *)
Definition login_request (username password : JS.value) : Request :=
  mkRequest
    (Body.mk JS.Undefined JS.Undefined JS.Undefined JS.Undefined JS.Undefined
             JS.Undefined JS.Undefined username password)
    (Params.mk "" "") [] None.

(** Everything but the statement log and the fault oracle is the same. *)
Definition same_data (w w' : World) : Prop :=
  reports w' = reports w
  /\ reports_auto_increment w' = reports_auto_increment w
  /\ admin_users w' = admin_users w
  /\ admin_users_auto_increment w' = admin_users_auto_increment w
  /\ current_timestamp w' = current_timestamp w
  /\ held w' = held w
  /\ session_user w' = session_user w.

(** A list of rows in descending order of [id]. *)
Fixpoint descending (ids : list Z) : Prop :=
  match ids with
  | [] => True
  | x :: rest =>
      match rest with
      | [] => True
      | y :: _ => y <= x
      end /\ descending rest
  end.

(** The characters of a string. *)
Definition chars (s : string) : list ascii := list_ascii_of_string s.

Definition is_hex (c : ascii) : bool :=
  let n := nat_of_ascii c in
  ((48 <=? n) && (n <=? 57) || (65 <=? n) && (n <=? 70))%nat.

(** What a path segment may hold without ending the segment. *)
Definition url_safe (c : ascii) : bool :=
  URI.unreserved c || Ascii.eqb c "%" || is_hex c.

(** The clock and the random draw behind a stored file name. *)
Definition clock_ok (rt : Runtime) : Prop :=
  0 <= date_now rt < 10 ^ 15 /\ 0 <= rand_1e9 rt <= 10 ^ 9.


(* ================================================================== *)
(** * Properties *)

(** ** The embedding on concrete values *)

Example toString_examples :
  JS.toString 0 = "0" /\ JS.toString 7 = "7" /\ JS.toString 2025 = "2025"
  /\ JS.toString 999999 = "999999" /\ JS.toString (-12) = "-12"
  /\ JS.toString 1735689600000 = "1735689600000".
Proof. repeat split. Qed.

Example padStart_examples :
  JS.padStart "42" 6 "0" = "000042" /\ JS.padStart "" 6 "0" = "000000"
  /\ JS.padStart "123456" 6 "0" = "123456"
  /\ JS.padStart "1234567" 6 "0" = "1234567".
Proof. repeat split. Qed.

(** The examples of the documentation of [path.extname], and a few more. *)
Example extname_examples :
  JS.extname "index.html" = ".html"
  /\ JS.extname "index.coffee.md" = ".md"
  /\ JS.extname "index." = "."
  /\ JS.extname "index" = ""
  /\ JS.extname ".index" = ""
  /\ JS.extname ".index.md" = ".md"
  /\ JS.extname "photos.d/billboard" = ""
  /\ JS.extname "photos/billboard.PNG" = ".PNG"
  /\ JS.extname "billboard.png/" = ".png"
  /\ JS.extname ".." = ""
  /\ JS.extname "" = "".
Proof. repeat split. Qed.

Example truthiness_examples :
  JS.truthy JS.Undefined = false /\ JS.truthy (JS.Str "") = false
  /\ JS.truthy (JS.Str "0") = true
  /\ JS.truthy JS.Null = false /\ JS.truthy (JS.Bool false) = false
  /\ JS.truthy (JS.Num 0) = false /\ JS.truthy (JS.Num (-0)) = false
  /\ JS.truthy (JS.Num (0 / 0)) = false /\ JS.truthy (JS.Num 0.5) = true
  /\ JS.truthy (JS.Arr []) = true /\ JS.truthy (JS.Obj []) = true
  /\ JS.or_null (JS.Str "") = JS.Null /\ JS.or_null JS.Undefined = JS.Null
  /\ JS.or_null (JS.Str "Ada") = JS.Str "Ada"
  /\ JS.or_null (JS.Arr []) = JS.Arr []
  /\ JS.or_else None "admin" = "admin" /\ JS.or_else (Some "") "admin" = "admin"
  /\ JS.or_else (Some "root") "admin" = "root".
Proof. repeat split. Qed.

Example genCaseId_examples :
  genCaseId (in_2025 42) = "REP2025000042"
  /\ genCaseId (in_2025 0) = "REP2025000000"
  /\ genCaseId (in_2025 999999) = "REP2025999999".
Proof. repeat split. Qed.

Example storage_filename_example :
  storage_filename (in_2025 0) (mkUpload "Billboard.JPG" 1024)
  = "1735689600000-123456789.jpg".
Proof. reflexivity. Qed.

Example basename_examples :
  basename "billboard.png" = "billboard.png"
  /\ basename "photos/billboard.PNG" = "billboard.PNG"
  /\ basename "C:\fakepath\billboard.jpg" = "billboard.jpg"
  /\ basename "billboard.png/" = ""
  /\ basename "photos/.." = "" /\ basename "." = "" /\ basename "" = "".
Proof. repeat split. Qed.

(** What the upload middleware does with a few bodies: a photo one byte
    under the limit is stored, one of exactly 5 MiB is refused; a file
    part without a file name is passed over; a file under another field
    and a second photo are unexpected; a body that is not multipart has
    no file. *)
Example upload_single_examples :
  upload_single (in_2025 0) [FilePart "photo" "billboard.png" (fileSize - 1)]
  = inr (Some (mkMulterFile "1735689600000-123456789.png"))
  /\ upload_single (in_2025 0) [FilePart "photo" "billboard.png" fileSize]
     = inl LIMIT_FILE_SIZE
  /\ upload_single (in_2025 0) [FilePart "photo" "" 0] = inr None
  /\ upload_single (in_2025 0) [FilePart "photo" "billboard.png/" 1024]
     = inr None
  /\ upload_single (in_2025 0) [FilePart "avatar" "billboard.png" 1024]
     = inl LIMIT_UNEXPECTED_FILE
  /\ upload_single (in_2025 0) [FilePart "photo" "a.png" 1024;
                                FilePart "photo" "b.png" 1024]
     = inl LIMIT_UNEXPECTED_FILE
  /\ upload_single (in_2025 0) [OtherPart (Some (IntakeError "LIMIT_FIELD_VALUE"));
                                FilePart "photo" "a.gif" 1024]
     = inl (IntakeError "LIMIT_FIELD_VALUE")
  /\ upload_single (in_2025 0) [] = inr None.
Proof. repeat split. Qed.

(** The scenario of the specification: a pothole is reported without a
    photo, and its case is then tracked. *)
Example pothole_scenario :
  let submitted := @POST_api_reports decimal_platform (in_2025 42) pothole
                     fresh_world in
  let tracked := @GET_api_reports_caseId decimal_platform (in_2025 42)
                   (track_request "REP2025000042") (snd submitted) in
  fst submitted = Returned (created "REP2025000042")
  /\ fst tracked
     = Returned (Json 200 [ ("case_id", JStr "REP2025000042");
                            ("status", JStr "NEW");
                            ("issue_type", JStr "pothole");
                            ("location", JStr "Main St & 5th");
                            ("created_at", JDate 1735689600) ])
  /\ held (snd tracked) = 0%nat
  /\ log (snd tracked)
     = [ USE "billboard_portal"; INSERT_report "REP2025000042";
         USE "billboard_portal";
         SELECT_projection_by_case_id "REP2025000042" ].
Proof. cbv zeta. repeat split. Qed.

(** A status change by the officer, then one with a value the column
    does not take. *)
Example triage_scenario :
  let closed := @POST_admin_case_id_status decimal_platform (in_2025 0)
                  (set_status_request "1" "CLOSED") triage in
  let bogus := @POST_admin_case_id_status decimal_platform (in_2025 0)
                 (set_status_request "1" "DONE") (snd closed) in
  fst closed = Returned (Redirect "/admin/case/1")
  /\ map Report.status (reports (snd closed)) = [Some CLOSED]
  /\ fst bogus = Returned (Send 500 "Failed to update status")
  /\ map Report.status (reports (snd bogus)) = [Some CLOSED].
Proof. cbv zeta. repeat split. Qed.

(** ** Strings *)

Lemma length_append (a b : string) :
  String.length (a ++ b) = (String.length a + String.length b)%nat.
Proof. induction a as [|c a IH]; simpl; [reflexivity | now rewrite IH]. Qed.

Lemma all_digits_append (a b : string) :
  JS.all_digits a = true -> JS.all_digits b = true ->
  JS.all_digits (a ++ b) = true.
Proof.
  induction a as [|c a IH]; simpl; intros Ha Hb; [exact Hb|].
  apply andb_true_iff in Ha as [Hc Ha]. rewrite Hc. simpl. now apply IH.
Qed.

Lemma digit_char_code (d : Z) :
  0 <= d < 10 -> Z.of_nat (nat_of_ascii (JS.digit_char d)) = 48 + d.
Proof.
  intros Hd. unfold JS.digit_char.
  rewrite nat_ascii_embedding by lia. lia.
Qed.

Lemma digit_char_is_digit (d : Z) :
  0 <= d < 10 -> JS.is_digit (JS.digit_char d) = true.
Proof.
  intros Hd. unfold JS.is_digit.
  pose proof (digit_char_code d Hd) as E.
  apply andb_true_iff. split; apply Nat.leb_le; lia.
Qed.

Lemma digits_fuel_all_digits (fuel : nat) :
  forall n acc, 0 <= n -> JS.all_digits acc = true ->
  JS.all_digits (JS.digits_fuel fuel n acc) = true.
Proof.
  induction fuel as [|f IH]; intros n acc Hn Hacc; simpl; [exact Hacc|].
  assert (Hd : JS.all_digits (String (JS.digit_char (n mod 10)) acc) = true).
  { cbn [JS.all_digits]. rewrite digit_char_is_digit, Hacc; [reflexivity|].
    apply Z.mod_pos_bound. lia. }
  destruct (n / 10 =? 0); [exact Hd|].
  apply IH; [apply Z.div_pos; lia | exact Hd].
Qed.

Lemma digits_fuel_grows (fuel : nat) :
  forall n acc,
  (String.length acc <= String.length (JS.digits_fuel fuel n acc))%nat.
Proof.
  induction fuel as [|f IH]; intros n acc; simpl; [lia|].
  destruct (n / 10 =? 0); simpl; [lia|].
  specialize (IH (n / 10) (String (JS.digit_char (n mod 10)) acc)).
  simpl in IH. lia.
Qed.

(** At most [k] digits for a number below [10^k]. *)
Lemma digits_fuel_length_le (k : nat) :
  forall fuel n acc, (1 <= k)%nat -> 0 <= n < 10 ^ Z.of_nat k ->
  (String.length (JS.digits_fuel fuel n acc) <= k + String.length acc)%nat.
Proof.
  induction k as [|k IH]; intros fuel n acc Hk Hn; [lia|].
  destruct fuel as [|f]; simpl; [lia|].
  destruct (n / 10 =? 0) eqn:E; simpl; [lia|].
  apply Z.eqb_neq in E.
  rewrite Nat2Z.inj_succ, Z.pow_succ_r in Hn by lia.
  assert (Hq : 0 <= n / 10 < 10 ^ Z.of_nat k).
  { split; [apply Z.div_pos; lia|].
    apply Z.div_lt_upper_bound; lia. }
  destruct k as [|k'].
  { simpl in Hq. lia. }
  specialize (IH f (n / 10) (String (JS.digit_char (n mod 10)) acc)).
  simpl String.length in IH. lia.
Qed.

(** At least [k] digits for a number from [10^(k-1)] on, given the fuel. *)
Lemma digits_fuel_length_ge (k : nat) :
  forall fuel n acc, (k <= fuel)%nat -> 10 ^ (Z.of_nat k - 1) <= n ->
  (k + String.length acc <= String.length (JS.digits_fuel fuel n acc))%nat.
Proof.
  induction k as [|k IH]; intros fuel n acc Hf Hn.
  { apply digits_fuel_grows. }
  destruct fuel as [|f]; [lia|]. simpl.
  destruct k as [|k'].
  { destruct (n / 10 =? 0); simpl; [lia|].
    pose proof (digits_fuel_grows f (n / 10)
                  (String (JS.digit_char (n mod 10)) acc)) as G.
    simpl in G. lia. }
  replace (Z.of_nat (S (S k')) - 1) with (Z.succ (Z.of_nat (S k') - 1)) in Hn
    by lia.
  rewrite Z.pow_succ_r in Hn by lia.
  assert (Hp : 0 < 10 ^ (Z.of_nat (S k') - 1)) by (apply Z.pow_pos_nonneg; lia).
  assert (Hq : 10 ^ (Z.of_nat (S k') - 1) <= n / 10).
  { apply Z.div_le_lower_bound; lia. }
  destruct (n / 10 =? 0) eqn:E; [apply Z.eqb_eq in E; lia|].
  specialize (IH f (n / 10) (String (JS.digit_char (n mod 10)) acc)).
  simpl String.length in IH. lia.
Qed.

Lemma parse_decimal_from_shift (s : string) :
  forall acc,
  parse_decimal_from acc s
  = acc * 10 ^ Z.of_nat (String.length s) + parse_decimal_from 0 s.
Proof.
  induction s as [|c s IH]; intros acc; cbn [parse_decimal_from String.length].
  { rewrite Z.pow_0_r. lia. }
  rewrite (IH (10 * acc + _)), (IH (10 * 0 + _)).
  rewrite Nat2Z.inj_succ, Z.pow_succ_r by lia. ring.
Qed.

(** [digits_fuel] writes [n] in front of [acc], given the fuel. *)
Lemma parse_digits_fuel (fuel : nat) :
  forall n acc, 0 <= n < 10 ^ Z.of_nat fuel ->
  parse_decimal (JS.digits_fuel fuel n acc)
  = n * 10 ^ Z.of_nat (String.length acc) + parse_decimal acc.
Proof.
  unfold parse_decimal.
  induction fuel as [|f IH]; intros n acc Hn.
  { simpl in *. assert (n = 0) by lia. subst. lia. }
  rewrite Nat2Z.inj_succ, Z.pow_succ_r in Hn by lia.
  assert (Hm : 0 <= n mod 10 < 10) by (apply Z.mod_pos_bound; lia).
  assert (Hcons : parse_decimal_from 0 (String (JS.digit_char (n mod 10)) acc)
                  = n mod 10 * 10 ^ Z.of_nat (String.length acc)
                    + parse_decimal_from 0 acc).
  { cbn [parse_decimal_from]. rewrite parse_decimal_from_shift.
    rewrite digit_char_code by exact Hm. f_equal. f_equal. lia. }
  cbn [JS.digits_fuel].
  pose proof (Z.div_mod n 10 ltac:(lia)) as D.
  destruct (n / 10 =? 0) eqn:E.
  - apply Z.eqb_eq in E. rewrite Hcons.
    rewrite E in D. replace (n mod 10) with n by lia. reflexivity.
  - rewrite IH.
    2:{ split; [apply Z.div_pos; lia|]. apply Z.div_lt_upper_bound; lia. }
    rewrite Hcons. cbn [String.length].
    rewrite Nat2Z.inj_succ, Z.pow_succ_r by lia.
    transitivity ((10 * (n / 10) + n mod 10)
                  * 10 ^ Z.of_nat (String.length acc)
                  + parse_decimal_from 0 acc); [ring|].
    rewrite <- D. reflexivity.
Qed.

Lemma log2_fuel_enough (n : Z) :
  0 <= n -> n < 10 ^ Z.of_nat (S (Z.to_nat (Z.log2 n))).
Proof.
  intros Hn. pose proof (Z.log2_nonneg n) as Hl.
  rewrite Nat2Z.inj_succ, Z2Nat.id by lia.
  destruct (Z.eq_dec n 0) as [->|Hz].
  { simpl. lia. }
  pose proof (Z.log2_spec n ltac:(lia)) as [_ Hu].
  apply Z.lt_le_trans with (1 := Hu).
  apply Z.pow_le_mono_l. lia.
Qed.

Lemma parse_toString (n : Z) : 0 <= n -> parse_decimal (JS.toString n) = n.
Proof.
  intros Hn. unfold JS.toString.
  destruct (n <? 0) eqn:E; [apply Z.ltb_lt in E; lia|].
  rewrite parse_digits_fuel by (split; [lia | now apply log2_fuel_enough]).
  simpl. unfold parse_decimal. simpl. lia.
Qed.

Lemma toString_all_digits (n : Z) :
  0 <= n -> JS.all_digits (JS.toString n) = true.
Proof.
  intros Hn. unfold JS.toString.
  destruct (n <? 0) eqn:E; [apply Z.ltb_lt in E; lia|].
  now apply digits_fuel_all_digits.
Qed.

Lemma repeat_char_length (c : ascii) (k : nat) :
  String.length (JS.repeat_char c k) = k.
Proof. induction k; simpl; congruence. Qed.

Lemma repeat_zero_all_digits (k : nat) :
  JS.all_digits (JS.repeat_char "0" k) = true.
Proof. induction k; simpl; auto. Qed.

Lemma parse_leading_zeros (k : nat) (s : string) :
  parse_decimal (JS.repeat_char "0" k ++ s) = parse_decimal s.
Proof.
  unfold parse_decimal. induction k as [|k IH]; simpl; [reflexivity|].
  exact IH.
Qed.

(* ================================================================== *)
(** ** The case-identifier generator *)

Lemma toString_year_length (y : Z) :
  1000 <= y <= 9999 -> String.length (JS.toString y) = 4%nat.
Proof.
  intros Hy. unfold JS.toString.
  destruct (y <? 0) eqn:E; [apply Z.ltb_lt in E; lia|].
  assert (Hl : 9 <= Z.log2 y).
  { change 9 with (Z.log2 1000). apply Z.log2_le_mono. lia. }
  assert (Hf : (4 <= S (Z.to_nat (Z.log2 y)))%nat) by (clear - Hl; lia).
  pose proof (digits_fuel_length_le 4 (S (Z.to_nat (Z.log2 y))) y ""
                ltac:(lia)
                ltac:(change (10 ^ Z.of_nat 4) with 10000; lia)) as Hle.
  pose proof (digits_fuel_length_ge 4 (S (Z.to_nat (Z.log2 y))) y "" Hf
                ltac:(change (10 ^ (Z.of_nat 4 - 1)) with 1000; lia)) as Hge.
  change (String.length "") with 0%nat in Hle, Hge. lia.
Qed.

Lemma toString_suffix_length (n : Z) :
  0 <= n < 10 ^ 6 -> (String.length (JS.toString n) <= 6)%nat.
Proof.
  intros Hn. unfold JS.toString.
  destruct (n <? 0) eqn:E; [apply Z.ltb_lt in E; lia|].
  pose proof (digits_fuel_length_le 6 (S (Z.to_nat (Z.log2 n))) n ""
                ltac:(lia) Hn) as Hle.
  change (String.length "") with 0%nat in Hle. lia.
Qed.

(** C6: every identifier [genCaseId] produces is [REP], the four digits of
    the current year, and six digits that are the random draw padded with
    zeros on the left; so it matches [REP\d{4}\d{6}]. *)
Theorem genCaseId_matches_pattern (rt : Runtime) :
  runtime_ok rt ->
  matches_REP_pattern (genCaseId rt) = true
  /\ exists year suffix,
       genCaseId rt = "REP" ++ year ++ suffix
       /\ String.length year = 4%nat
       /\ JS.all_digits year = true
       /\ parse_decimal year = full_year rt
       /\ String.length suffix = 6%nat
       /\ JS.all_digits suffix = true
       /\ parse_decimal suffix = rand_1e6 rt.
Proof.
  intros [Hy Hn].
  set (year := JS.toString (full_year rt)).
  set (suffix := JS.padStart (JS.toString (rand_1e6 rt)) 6 "0").
  assert (Ly : String.length year = 4%nat) by now apply toString_year_length.
  assert (Dy : JS.all_digits year = true) by (apply toString_all_digits; lia).
  assert (Ls : String.length suffix = 6%nat).
  { unfold suffix, JS.padStart.
    rewrite length_append, repeat_char_length.
    pose proof (toString_suffix_length _ Hn). lia. }
  assert (Ds : JS.all_digits suffix = true).
  { unfold suffix, JS.padStart. apply all_digits_append.
    - apply repeat_zero_all_digits.
    - apply toString_all_digits. lia. }
  split.
  - unfold genCaseId. fold year. fold suffix.
    cbn [append matches_REP_pattern].
    rewrite length_append, Ly, Ls, all_digits_append by assumption.
    reflexivity.
  - exists year, suffix. repeat split; try assumption; try reflexivity.
    + apply parse_toString. lia.
    + unfold suffix, JS.padStart. rewrite parse_leading_zeros.
      apply parse_toString. lia.
Qed.

Lemma genCaseId_matches_pattern_witness :
  runtime_ok (in_2025 42)
  /\ matches_REP_pattern (genCaseId (in_2025 42)) = true.
Proof.
  assert (H : runtime_ok (in_2025 42)) by (unfold runtime_ok; simpl; lia).
  split; [exact H | exact (proj1 (genCaseId_matches_pattern (in_2025 42) H))].
Defined.

(* ================================================================== *)
(** ** Reasoning about computations *)

Section Steady.
Variable R : World -> World -> Prop.
Hypothesis R_refl : forall w, R w w.
Hypothesis R_trans : forall a b c, R a b -> R b c -> R a c.

Lemma steady_ret {A} (a : A) : steady R (ret a).
Proof. intros w. split; [apply R_refl | discriminate]. Qed.

Lemma steady_throw {A} (e : Err) : steady R (@throw A e).
Proof. intros w. split; [apply R_refl | discriminate]. Qed.

Lemma steady_bind {A B} (m : M A) (k : A -> M B) :
  steady R m -> (forall a, steady R (k a)) -> steady R (bind m k).
Proof.
  intros Hm Hk w. unfold bind.
  destruct (Hm w) as [Rm Sm].
  destruct (m w) as [[a| e |] w1]; cbn [fst snd] in *.
  - destruct (Hk a w1) as [Rk Sk]. split; [eauto | exact Sk].
  - split; [exact Rm | discriminate].
  - congruence.
Qed.

(** Reading the world changes nothing. *)
Lemma steady_gets {A} (f : World -> A) :
  steady R (fun w => (Returned (f w), w)).
Proof. intros w. split; [apply R_refl | discriminate]. Qed.

End Steady.

(** *** Every operation has the shape of a scoped acquisition

    Whatever holds of a [try]/[finally] around a steady body, and passes
    through [ensureAuth], the upload middleware and the final answer, holds
    of every operation of the application. *)
Section EveryOperation.
Context {P : Platform}.
Variable R : World -> World -> Prop.
Variable H : forall A, M A -> Prop.
Variable Ok : JS.value -> Prop.
Hypothesis R_refl : forall w, R w w.
Hypothesis R_trans : forall a b c, R a b -> R b c -> R a c.
Hypothesis R_statement : forall s, steady R (statement s).
Hypothesis R_insert_report :
  forall c n e p i l d t, steady R (query_insert_report c n e p i l d t).
Hypothesis R_insert_admin_user :
  forall u h, steady R (query_insert_admin_user u h).
Hypothesis R_update_status :
  forall s i, Ok s -> steady R (query_update_status s i).
Hypothesis R_session : forall u, steady R (session_set_user u).
Hypothesis H_bracket :
  forall A (body : M A) (handler : Err -> M A),
    steady R body -> (forall e, steady R (handler e)) ->
    H A (getConnection ;; try_catch_finally body handler release).
Hypothesis H_throw : forall A e, H A (throw e).
Hypothesis H_auth : forall next, H Response next -> H Response (ensureAuth next).
Hypothesis H_answer :
  forall A B (m : M A) (f : A -> B), H A m -> H B (x <- m ;; ret (f x)).

Ltac steady_body :=
  repeat first
    [ progress cbv zeta
    | apply steady_ret; assumption
    | apply steady_throw; assumption
    | apply steady_gets; assumption
    | apply R_statement
    | apply R_insert_report
    | apply R_insert_admin_user
    | apply R_update_status; assumption
    | apply R_session
    | apply steady_bind; [assumption | | intros ?]
    | match goal with
      | |- steady _ (match ?x with _ => _ end) => destruct x
      | |- steady _ (if ?b then _ else _) => destruct b
      end ].

Ltac scoped_handler :=
  cbv zeta; apply H_bracket; [| intros ?];
  unfold query_select_report_by_case_id, query_select_projection_by_case_id,
         query_select_recent_reports, query_select_admin_by_username,
         query_select_admin_id_by_username, query_select_report_by_id,
         compare_password;
  steady_body.

Lemma every_startup (rt : Runtime) :
  H unit (ensureDatabase rt) /\ H unit (ensureAdminUser rt).
Proof.
  split.
  - unfold ensureDatabase, try_finally. scoped_handler.
  - unfold ensureAdminUser, try_finally. scoped_handler.
Qed.

Lemma every_upload_route (handler : Runtime -> Request -> M Response)
    (rt : Runtime) (req : Request) :
  (forall req', H Response (handler rt req')) ->
  H Response (after_upload handler rt req).
Proof.
  intros Hh. unfold after_upload.
  destruct (upload_single rt (parts req)); [apply H_throw | apply Hh].
Qed.

Lemma every_operation (rt : Runtime) (op : Operation) :
  status_is Ok op -> H (option Response) (exec rt op).
Proof.
  destruct op; intros Hok; unfold exec, responding, silent;
    cbn [status_is] in Hok.
  - apply (H_answer _ _ _ (fun _ => None)). apply every_startup.
  - apply (H_answer _ _ _ (fun _ => None)). apply every_startup.
  - apply H_answer. apply every_upload_route. intros req'.
    unfold POST_report. scoped_handler.
  - apply H_answer. unfold GET_track_caseId. scoped_handler.
  - apply H_answer. apply every_upload_route. intros req'.
    unfold POST_api_reports. scoped_handler.
  - apply H_answer. unfold GET_api_reports_caseId. scoped_handler.
  - apply H_answer. unfold POST_admin_login. scoped_handler.
  - apply H_answer. unfold GET_admin_dashboard. apply H_auth. scoped_handler.
  - apply H_answer. unfold GET_admin_case_id. apply H_auth. scoped_handler.
  - apply H_answer. unfold POST_admin_case_id_status. apply H_auth.
    scoped_handler.
Qed.

End EveryOperation.

(* ================================================================== *)
(** ** Scoped acquisition of connections *)

Ltac settle :=
  intros w; cbn;
  repeat match goal with
         | |- context [match ?x with _ => _ end] => destruct x; cbn
         | |- context [if ?b then _ else _] => destruct b; cbn
         end;
  split; first [reflexivity | discriminate].

Lemma same_held_statement (s : Stmt) : steady same_held (statement s).
Proof. unfold statement, take_fault, same_held. settle. Qed.

Lemma same_held_session (u : SessionUser) :
  steady same_held (session_set_user u).
Proof. unfold session_set_user, same_held. settle. Qed.

Lemma same_held_trans (a b c : World) :
  same_held a b -> same_held b c -> same_held a c.
Proof. unfold same_held. congruence. Qed.

Lemma same_held_insert_report {P : Platform} c n e p i l d t :
  steady same_held (query_insert_report c n e p i l d t).
Proof.
  unfold query_insert_report.
  apply (steady_bind _ same_held_trans); [apply same_held_statement|].
  intros _. unfold same_held, insert_report. settle.
Qed.

Lemma same_held_insert_admin_user {P : Platform} u h :
  steady same_held (query_insert_admin_user u h).
Proof.
  unfold query_insert_admin_user.
  apply (steady_bind _ same_held_trans); [apply same_held_statement|].
  intros _. unfold same_held. settle.
Qed.

Lemma same_held_update_status {P : Platform} s i :
  steady same_held (query_update_status s i).
Proof.
  unfold query_update_status.
  apply (steady_bind _ same_held_trans); [apply same_held_statement|].
  intros _. unfold same_held, update_status. settle.
Qed.

(** [getConnection], then [try]/[catch]/[finally] with [release] in the
    [finally]: the connection goes back on every path. *)
Lemma scoped_bracket {A} (body : M A) (handler : Err -> M A) :
  steady same_held body -> (forall e, steady same_held (handler e)) ->
  scoped (getConnection ;; try_catch_finally body handler release).
Proof.
  intros Hb Hh w. unfold bind, getConnection, pool_available.
  destruct (held w <? connectionLimit)%nat eqn:E.
  2:{ split; [reflexivity|]. apply Nat.ltb_ge in E. intros Hp. lia. }
  unfold take_fault. destruct (hd false (faults w)); cbn [fst snd].
  { split; [reflexivity | discriminate]. }
  set (w1 := set_held _ _).
  assert (E1 : held w1 = S (held w)) by reflexivity.
  unfold try_catch_finally, and_finally, release.
  destruct (Hb w1) as [Rb Sb]. unfold same_held in Rb.
  destruct (body w1) as [[a|e|] w2]; cbn [fst snd] in *.
  - split; [rewrite Rb, E1; reflexivity | discriminate].
  - destruct (Hh e w2) as [Rh Sh]. unfold same_held in Rh.
    destruct (handler e w2) as [[a|e'|] w3]; cbn [fst snd] in *.
    + split; [rewrite Rh, Rb, E1; reflexivity | discriminate].
    + split; [rewrite Rh, Rb, E1; reflexivity | discriminate].
    + congruence.
  - congruence.
Qed.

Lemma scoped_throw A (e : Err) : scoped (@throw A e).
Proof. intros w. split; [reflexivity | discriminate]. Qed.

Lemma scoped_auth {P : Platform} (next : M Response) :
  scoped next -> scoped (ensureAuth next).
Proof.
  intros Hn w. unfold ensureAuth.
  destruct (session_user w); [apply Hn|].
  split; [reflexivity | discriminate].
Qed.

Lemma scoped_answer A B (m : M A) (f : A -> B) :
  scoped m -> scoped (x <- m ;; ret (f x)).
Proof.
  intros Hm w. destruct (Hm w) as [Hh Hp]. unfold bind, ret.
  destruct (m w) as [[a|e|] w1]; cbn [fst snd] in *;
    (split; [exact Hh|]); try discriminate.
  intros Hw. exfalso. now apply Hp.
Qed.

(** C9: every operation that takes a connection from the pool gives it
    back on every exit path: whatever the request, the state of the store
    and the failures met, as many connections are held after the operation
    as before it; and the operation does end when the pool can serve it. *)
Theorem connections_released {P : Platform}
    (rt : Runtime) (op : Operation) (w : World) :
  held (snd (exec rt op w)) = held w
  /\ (pool_available w -> fst (exec rt op w) <> Pending).
Proof.
  revert w. change (scoped (exec rt op)).
  apply (every_operation same_held (@scoped) (fun _ => True)).
  - reflexivity.
  - exact same_held_trans.
  - exact same_held_statement.
  - exact same_held_insert_report.
  - exact same_held_insert_admin_user.
  - intros s i _. apply same_held_update_status.
  - exact same_held_session.
  - exact (@scoped_bracket).
  - exact scoped_throw.
  - exact scoped_auth.
  - exact scoped_answer.
  - destruct op; exact I.
Qed.

Lemma connections_released_witness :
  pool_available store_down
  /\ held (snd (@exec decimal_platform (in_2025 42)
                  (Route_POST_api_reports pothole) store_down))
     = held store_down
  /\ fst (@exec decimal_platform (in_2025 42)
            (Route_POST_api_reports pothole) store_down) <> Pending.
Proof.
  assert (Hp : pool_available store_down)
    by (unfold pool_available, connectionLimit; simpl; lia).
  split; [exact Hp|].
  pose proof (@connections_released decimal_platform (in_2025 42)
                (Route_POST_api_reports pothole) store_down) as [Hh Hs].
  split; [exact Hh | exact (Hs Hp)].
Defined.

(* ================================================================== *)
(** ** What an operation may do to the rows of [reports] *)

Section OnReports.
Variable Q : list Report.t -> list Report.t -> Prop.
Hypothesis Q_refl : forall rs, Q rs rs.
Hypothesis Q_trans : forall a b c, Q a b -> Q b c -> Q a c.

Lemma on_reports_refl (w : World) : on_reports Q w w.
Proof. apply Q_refl. Qed.

Lemma on_reports_trans (a b c : World) :
  on_reports Q a b -> on_reports Q b c -> on_reports Q a c.
Proof. unfold on_reports. apply Q_trans. Qed.

Lemma on_reports_unchanged (w w' : World) :
  reports w' = reports w -> on_reports Q w w'.
Proof. unfold on_reports. intros ->. apply Q_refl. Qed.

Ltac untouched :=
  intros w; cbn;
  repeat match goal with
         | |- context [match ?x with _ => _ end] => destruct x; cbn
         | |- context [if ?b then _ else _] => destruct b; cbn
         end;
  (split; [apply on_reports_unchanged; reflexivity | discriminate]).

Lemma on_reports_statement (s : Stmt) : steady (on_reports Q) (statement s).
Proof. unfold statement, take_fault. untouched. Qed.

Lemma on_reports_session (u : SessionUser) :
  steady (on_reports Q) (session_set_user u).
Proof. unfold session_set_user. untouched. Qed.

Lemma on_reports_insert_admin_user {P : Platform} (u h : string) :
  steady (on_reports Q) (query_insert_admin_user u h).
Proof.
  unfold query_insert_admin_user.
  apply (steady_bind _ on_reports_trans); [apply on_reports_statement|].
  intros _. untouched.
Qed.

(** The pool is no part of the table: the bracket adds nothing to what
    its body and its handler do. *)
Lemma on_reports_bracket A (body : M A) (handler : Err -> M A) :
  steady (on_reports Q) body -> (forall e, steady (on_reports Q) (handler e)) ->
  respects (on_reports Q)
           (getConnection ;; try_catch_finally body handler release).
Proof.
  intros Hb Hh w. unfold bind, getConnection.
  destruct (held w <? connectionLimit)%nat; [|apply on_reports_refl].
  unfold take_fault. destruct (hd false (faults w)); cbn [fst snd].
  { apply on_reports_unchanged. reflexivity. }
  set (w1 := set_held _ _).
  assert (E1 : on_reports Q w w1) by (apply on_reports_unchanged; reflexivity).
  unfold try_catch_finally, and_finally, release.
  destruct (Hb w1) as [Rb _].
  assert (E2 : on_reports Q w (snd (body w1)))
    by (apply on_reports_trans with w1; assumption).
  destruct (body w1) as [[a|e|] w2]; cbn [fst snd] in *.
  - apply on_reports_trans with w2; [exact E2|].
    apply on_reports_unchanged. reflexivity.
  - destruct (Hh e w2) as [Rh _].
    assert (E3 : on_reports Q w (snd (handler e w2)))
      by (apply on_reports_trans with w2; assumption).
    destruct (handler e w2) as [[a|e'|] w3]; cbn [fst snd] in *;
      try exact E3;
      (apply on_reports_trans with w3;
       [exact E3 | apply on_reports_unchanged; reflexivity]).
  - exact E2.
Qed.

Lemma on_reports_throw A (e : Err) : respects (on_reports Q) (@throw A e).
Proof. intros w. apply on_reports_refl. Qed.

Lemma on_reports_auth {P : Platform} (next : M Response) :
  respects (on_reports Q) next -> respects (on_reports Q) (ensureAuth next).
Proof.
  intros Hn w. unfold ensureAuth.
  destruct (session_user w); [apply Hn | apply on_reports_refl].
Qed.

Lemma on_reports_answer A B (m : M A) (f : A -> B) :
  respects (on_reports Q) m -> respects (on_reports Q) (x <- m ;; ret (f x)).
Proof.
  intros Hm w. specialize (Hm w). unfold bind, ret.
  destruct (m w) as [[a|e|] w1]; exact Hm.
Qed.

End OnReports.













(** The outcomes of the [INSERT], once the statement has reached the
    store: an error and the table as it was, or one row appended, made
    of the values of the columns. *)
Lemma insert_report_cases {P : Platform} c n e p i l d t (w : World) :
  let params := [JS.Str c; n; e; p; of_text i; l; d; t] in
  (exists err, insert_report c n e p i l d t w = (Thrown err, w))
  \/ (case_id_taken c (reports w) = false
      /\ exists n' e' p' loc d' it,
           column params n = Some n' /\ column params e = Some e'
           /\ column params p = Some p' /\ column params l = Some (Some loc)
           /\ column params d = Some d' /\ column params t = Some (Some it)
           /\ fits_reports c n' e' p' i loc d' it = true
           /\ insert_report c n e p i l d t w
              = (Returned tt,
                 set_reports
                   (reports w
                    ++ [Report.mk (reports_auto_increment w) (Some c) n' e' p'
                          i loc d' it (Some NEW)
                          (Some (current_timestamp w))])
                   (reports_auto_increment w + 1) w)).
Proof.
  unfold insert_report. cbv zeta.
  repeat match goal with
         | |- context [match ?o with Some _ => _ | None => _ end] =>
             destruct o eqn:?; [|left; eexists; reflexivity]
         end.
  destruct (negb _) eqn:Ef; [left; eexists; reflexivity|].
  destruct (case_id_taken c (reports w)); [left; eexists; reflexivity|].
  apply negb_false_iff in Ef.
  right. split; [reflexivity|]. do 6 eexists.
  repeat split; eassumption || reflexivity.
Qed.

Lemma insert_report_outcomes {P : Platform} c n e p i l d t (w : World) :
  (exists err, insert_report c n e p i l d t w = (Thrown err, w))
  \/ (case_id_taken c (reports w) = false
      /\ exists r,
           insert_report c n e p i l d t w
           = (Returned tt,
              set_reports (reports w ++ [r]) (reports_auto_increment w + 1) w)
           /\ Report.id r = reports_auto_increment w
           /\ Report.case_id r = Some c /\ Report.status r = Some NEW
           /\ Report.created_at r = Some (current_timestamp w)
           /\ Report.image_path r = i).
Proof.
  destruct (insert_report_cases c n e p i l d t w)
    as [He|(Tk & n' & e' & p' & loc & d' & it & _ & _ & _ & _ & _ & _ & _ & E)];
    [now left|].
  right. split; [exact Tk|]. eexists. split; [exact E|]. repeat split.
Qed.




(** C8, at a failing input.  The body [status[status]=NEW&status[location]=x]
    reaches the handler as an object, which the driver writes into the
    statement as [SET status=`status` = 'NEW', `location` = 'x']: the
    update is answered with the usual redirect, and the report of id 1
    has another [location] than before, which is no change of [status]. *)
Theorem status_object_rewrites_location :
  let run := @POST_admin_case_id_status decimal_platform (in_2025 0)
               (status_object_request "1") triage in
  map Report.location (reports triage) = ["Main St & 5th"]
  /\ fst run = Returned (Redirect "/admin/case/1")
  /\ map Report.location (reports (snd run)) = ["x"]
  /\ map Report.status (reports (snd run)) = [Some NEW]
  /\ log (snd run)
     = [ USE "billboard_portal";
         UPDATE_report_status
           (JS.Obj [("status", JS.Str "NEW"); ("location", JS.Str "x")]) "1" ]
  /\ ~ restatused (reports triage) (reports (snd run)).
Proof.
  cbv zeta. repeat split.
  intros Hr. inversion Hr as [|r r' rs rs' Hsame _]. subst.
  destruct Hsame as (_ & _ & _ & _ & _ & _ & Hl & _). discriminate Hl.
Qed.

(* ================================================================== *)
(** ** Case identifiers stay unique *)

Lemma sql_eq_refl {P : Platform} (a : string) : sql_eq a a = true.
Proof. unfold sql_eq. apply String.eqb_refl. Qed.

Lemma case_ids_app (a b : list Report.t) :
  case_ids (a ++ b) = (case_ids a ++ case_ids b)%list.
Proof.
  induction a as [|r a IH]; cbn [app case_ids]; [reflexivity|].
  destruct (Report.case_id r); cbn [app]; now rewrite IH.
Qed.

Lemma In_case_ids (c : string) (rs : list Report.t) :
  In c (case_ids rs) <-> exists r, In r rs /\ Report.case_id r = Some c.
Proof.
  induction rs as [|r rs IH]; cbn [case_ids In].
  - split; [intros [] | intros (r & [] & _)].
  - destruct (Report.case_id r) as [c'|] eqn:E; cbn [In]; rewrite ?IH; split.
    + intros [->|(x & Hin & Hc)]; [exists r; auto | exists x; auto].
    + intros (x & [<-|Hin] & Hc); [left; congruence | right; eauto].
    + intros (x & Hin & Hc). exists x; auto.
    + intros (x & [<-|Hin] & Hc); [congruence | eauto].
Qed.

Lemma not_taken_not_In {P : Platform} (c : string) (rs : list Report.t) :
  case_id_taken c rs = false -> ~ In c (case_ids rs).
Proof.
  unfold case_id_taken. intros E Hin.
  apply In_case_ids in Hin as (r & Hin & Hc).
  assert (T : existsb (carries c) rs = true).
  { apply existsb_exists. exists r. split; [exact Hin|].
    unfold carries. rewrite Hc. apply sql_eq_refl. }
  congruence.
Qed.

Lemma apply_status_case_ids {P : Platform}
    (s : option Status) (id : string) (rs : list Report.t) :
  case_ids (map (apply_status s id) rs) = case_ids rs.
Proof.
  induction rs as [|r rs IH]; cbn [map case_ids]; [reflexivity|].
  rewrite IH. unfold apply_status.
  destruct (id_matches id r); reflexivity.
Qed.

(** The keys of the table hold: so do the case identifiers. *)
Lemma distinct_keys_unique {P : Platform} (rs : list Report.t) :
  distinct_keys rs = true -> unique_case_ids rs.
Proof.
  unfold unique_case_ids.
  induction rs as [|r rs IH]; cbn [distinct_keys case_ids];
    [constructor|].
  intros E. apply andb_true_iff in E as [E1 E2].
  apply negb_true_iff in E1.
  destruct (Report.case_id r) as [c|] eqn:Ec; [|now apply IH].
  constructor; [|now apply IH].
  intros Hin. apply In_case_ids in Hin as (x & Hin & Hc).
  assert (T : existsb (same_key r) rs = true).
  { apply existsb_exists. exists x. split; [exact Hin|].
    unfold same_key, carries. rewrite Ec, Hc, sql_eq_refl.
    apply orb_true_r. }
  congruence.
Qed.

Lemma keeps_unique_insert_report {P : Platform} c n e p i l d t :
  steady (on_reports keeps_unique) (query_insert_report c n e p i l d t).
Proof.
  assert (Rf : forall rs, keeps_unique rs rs) by (intros rs H; exact H).
  assert (Tr : forall a b c, keeps_unique a b -> keeps_unique b c ->
                             keeps_unique a c)
    by (unfold keeps_unique; auto).
  unfold query_insert_report.
  apply (steady_bind _ (on_reports_trans _ Tr));
    [apply on_reports_statement, Rf|].
  intros _ w. unfold on_reports.
  destruct (insert_report_outcomes c n e p i l d t w)
    as [[err ->]|(Tk & r & -> & _ & Hc & _)];
    cbn [fst snd reports set_reports].
  - split; [apply Rf | discriminate].
  - split; [|discriminate].
    intros Hu. unfold unique_case_ids in *. rewrite case_ids_app.
    cbn [case_ids]. rewrite Hc.
    apply NoDup_app; [exact Hu | repeat constructor; intros [] |].
    intros a Ha [<-|[]]. now apply (not_taken_not_In _ _ Tk).
Qed.

Lemma keeps_unique_update_status {P : Platform} (s : JS.value) (i : string) :
  steady (on_reports keeps_unique) (query_update_status s i).
Proof.
  assert (Rf : forall rs, keeps_unique rs rs) by (intros rs H; exact H).
  assert (Tr : forall a b c, keeps_unique a b -> keeps_unique b c ->
                             keeps_unique a c)
    by (unfold keeps_unique; auto).
  unfold query_update_status.
  apply (steady_bind _ (on_reports_trans _ Tr));
    [apply on_reports_statement, Rf|].
  intros _ w. unfold on_reports, keeps_unique, unique_case_ids, update_status.
  destruct (JS.as_text s) as [text|].
  - destruct (existsb (id_matches i) (reports w));
      [|split; [auto | discriminate]].
    destruct text as [t|]; [destruct (status_of_string t)|];
      cbn [fst snd reports set_reports]; (split; [|discriminate]);
      rewrite ?apply_status_case_ids; auto.
  - destruct (foreign_status s) as [f|]; [|split; [auto | discriminate]].
    destruct (existsb (id_matches i) (reports w));
      [|split; [auto | discriminate]].
    destruct (rewrite_rows f i (reports w)) as [rs|];
      [|split; [auto | discriminate]].
    destruct (distinct_keys rs) eqn:Ek;
      cbn [fst snd reports set_reports]; (split; [|discriminate]); auto.
    intros _. now apply distinct_keys_unique.
Qed.

(** The invariant of the table: whatever the operation, case identifiers
    that were distinct before it are distinct after it. *)
Lemma case_ids_stay_unique {P : Platform}
    (rt : Runtime) (op : Operation) (w : World) :
  unique_case_ids (reports w) ->
  unique_case_ids (reports (snd (exec rt op w))).
Proof.
  assert (Rf : forall rs, keeps_unique rs rs) by (intros rs H; exact H).
  assert (Tr : forall a b c, keeps_unique a b -> keeps_unique b c ->
                             keeps_unique a c)
    by (unfold keeps_unique; auto).
  revert w.
  apply (every_operation (on_reports keeps_unique)
                         (fun A m => respects (on_reports keeps_unique) m)
                         (fun _ => True)).
  - apply on_reports_refl, Rf.
  - apply on_reports_trans, Tr.
  - apply on_reports_statement, Rf.
  - exact keeps_unique_insert_report.
  - apply on_reports_insert_admin_user; [exact Rf | exact Tr].
  - intros s i _. apply keeps_unique_update_status.
  - apply on_reports_session, Rf.
  - apply on_reports_bracket; [exact Rf | exact Tr].
  - apply on_reports_throw, Rf.
  - exact (on_reports_auth _ Rf).
  - apply on_reports_answer.
  - destruct op; exact I.
Qed.

(* ================================================================== *)
(** ** Runs against a store that answers *)

Lemma no_fault_hd (fs : list bool) :
  Forall (fun f => f = false) fs -> hd false fs = false.
Proof. intros [|f fs' Hf _]; [reflexivity | exact Hf]. Qed.

Lemma no_fault_tl (fs : list bool) :
  Forall (fun f => f = false) fs -> Forall (fun f => f = false) (tl fs).
Proof. intros [|f fs' _ Hfs]; [constructor | exact Hfs]. Qed.

Lemma pool_available_ltb (w : World) :
  pool_available w -> (held w <? connectionLimit)%nat = true.
Proof. intros Hp. now apply Nat.ltb_lt. Qed.

(** Unfold the monad and the world, and nothing of the strings. *)
Ltac world_cbn :=
  cbn [fst snd
       reports reports_auto_increment admin_users admin_users_auto_increment
       current_timestamp held faults log session_user
       set_reports set_admin_users set_held set_faults add_log
       set_session_user].

Ltac world_cbn_in H :=
  cbn [fst snd
       reports reports_auto_increment admin_users admin_users_auto_increment
       current_timestamp held faults log session_user
       set_reports set_admin_users set_held set_faults add_log
       set_session_user] in H.

Ltac run :=
  unfold bind, ret, throw, try_finally, try_catch_finally, and_finally,
         getConnection, release, statement, take_fault, session_set_user;
  world_cbn.

Ltac no_fault Hh :=
  repeat match goal with
         | |- context [hd false ?fs] =>
             rewrite (no_fault_hd fs) by (repeat apply no_fault_tl; exact Hh)
         end.

Ltac healthy_run Hh Hp :=
  run; rewrite ?(pool_available_ltb _ Hp); world_cbn; no_fault Hh; world_cbn.


(** A row with the very identifier asked for carries it. *)
Lemma carries_own {P : Platform} (c : string) (r : Report.t) :
  Report.case_id r = Some c -> carries c r = true.
Proof. intros E. unfold carries. rewrite E. apply sql_eq_refl. Qed.

(** The answer of [GET /api/reports/:caseId] when the store answers. *)
Lemma GET_api_reports_caseId_healthy {P : Platform}
    (rt : Runtime) (req : Request) (w : World) :
  healthy w -> pool_available w ->
  fst (GET_api_reports_caseId rt req w)
  = Returned
      match select_by_case_id (Params.caseId (params req)) (reports w) with
      | [] => not_found
      | r :: _ => Json 200 (public_projection r)
      end
  /\ reports (snd (GET_api_reports_caseId rt req w)) = reports w.
Proof.
  intros Hh Hp. unfold healthy in Hh.
  unfold GET_api_reports_caseId, query_select_projection_by_case_id.
  healthy_run Hh Hp.
  destruct (select_by_case_id _ (reports w)); cbn [map]; world_cbn;
    split; reflexivity.
Qed.



(** C5, as stated, fails on an identifier that differs from one on file
    in the case of its letters: under the default collation of the store
    no report has the identifier [rep2025000042], and none was ever
    issued under it, yet the lookup answers 200 with the report
    [REP2025000042], not 404. *)
Lemma case_variant_is_found :
  let answer := fst (@GET_api_reports_caseId decimal_platform (in_2025 0)
                       (track_request "rep2025000042") triage) in
  (forall r, In r (reports triage) ->
             Report.case_id r <> Some "rep2025000042")
  /\ answer
     = Returned (Json 200 [ ("case_id", JStr "REP2025000042");
                            ("status", JStr "NEW");
                            ("issue_type", JStr "pothole");
                            ("location", JStr "Main St & 5th");
                            ("created_at", JDate 1735689600) ])
  /\ answer <> Returned not_found.
Proof.
  cbv zeta. split; [|split; [reflexivity | discriminate]].
  intros r [<-|[]]. discriminate.
Qed.

(* ================================================================== *)
(** ** Submission through [POST /api/reports] *)

(** What [x || null] binds for a field that is text or absent. *)
Lemma as_text_or_null (v : JS.value) :
  plain v -> JS.as_text (JS.or_null v) = Some (text_or_null v).
Proof.
  intros [->|[->|[s ->]]]; try reflexivity.
  unfold JS.or_null, text_or_null. cbn [JS.truthy].
  destruct (String.eqb s ""); reflexivity.
Qed.

Lemma column_text {P : Platform} (params : list JS.value) (v : JS.value)
    (text : option string) :
  JS.as_text v = Some text -> column params v = Some text.
Proof. intros E. unfold column. now rewrite E. Qed.

(** A falsy value is bound as NULL, a string that is not empty as
    itself. *)
Lemma column_or_null_falsy {P : Platform} (params : list JS.value)
    (v : JS.value) :
  JS.truthy v = false -> column params (JS.or_null v) = Some None.
Proof. intros E. unfold JS.or_null. rewrite E. reflexivity. Qed.

Lemma column_or_null_text {P : Platform} (params : list JS.value)
    (s : string) :
  s <> "" -> column params (JS.or_null (JS.Str s)) = Some (Some s).
Proof.
  intros Hs. unfold JS.or_null. cbn [JS.truthy].
  apply String.eqb_neq in Hs. rewrite Hs. reflexivity.
Qed.

Lemma stored_for_column {P : Platform} (params : list JS.value)
    (v : JS.value) (text : option string) :
  column params (JS.or_null v) = Some text -> stored_for v text.
Proof.
  destruct v as [| |b|x|s|l|l]; cbn [stored_for]; try exact (fun _ => I).
  - cbn. congruence.
  - cbn. congruence.
  - unfold JS.or_null. cbn [JS.truthy].
    destruct (String.eqb s ""); cbn; congruence.
Qed.

(** The [INSERT], when it returns: the row it has appended. *)
Lemma insert_report_returned {P : Platform} c n e p i l d t (w w' : World) :
  insert_report c n e p i l d t w = (Returned tt, w') ->
  let params := [JS.Str c; n; e; p; of_text i; l; d; t] in
  case_id_taken c (reports w) = false
  /\ exists n' e' p' loc d' it,
       column params n = Some n' /\ column params e = Some e'
       /\ column params p = Some p' /\ column params l = Some (Some loc)
       /\ column params d = Some d' /\ column params t = Some (Some it)
       /\ fits_reports c n' e' p' i loc d' it = true
       /\ w' = set_reports
                 (reports w
                  ++ [Report.mk (reports_auto_increment w) (Some c) n' e' p'
                        i loc d' it (Some NEW) (Some (current_timestamp w))])
                 (reports_auto_increment w + 1) w.
Proof.
  intros E. cbv zeta.
  destruct (insert_report_cases c n e p i l d t w)
    as [[err He]|(Tk & n' & e' & p' & loc & d' & it
                  & En & Ee & Ep & El & Ed & Et & Ef & Er)];
    [congruence|].
  split; [exact Tk|]. exists n', e', p', loc, d', it.
  repeat split; try assumption. congruence.
Qed.

(** The [INSERT] under an identifier that is taken fails, and writes
    nothing. *)
Lemma insert_report_taken {P : Platform} c n e p i l d t (w : World) :
  case_id_taken c (reports w) = true ->
  exists err, insert_report c n e p i l d t w = (Thrown err, w).
Proof.
  intros Tk.
  destruct (insert_report_outcomes c n e p i l d t w) as [He|[Hn _]];
    [exact He | congruence].
Qed.

(** The row a submission writes. *)
Lemma POST_api_reports_created {P : Platform}
    (rt : Runtime) (req : Request) (w : World) (c : string) :
  fst (POST_api_reports rt req w) = Returned (created c) ->
  let b := body req in
  let w' := snd (POST_api_reports rt req w) in
  c = genCaseId rt
  /\ case_id_taken c (reports w) = false
  /\ JS.truthy (Body.location b) = true
  /\ JS.truthy (Body.issue_type b) = true
  /\ held w' = held w
  /\ faults w' = tl (tl (tl (faults w)))
  /\ exists (params : list JS.value) r,
       reports w' = (reports w ++ [r])%list
       /\ Report.id r = reports_auto_increment w
       /\ Report.case_id r = Some c
       /\ Report.status r = Some NEW
       /\ Report.created_at r = Some (current_timestamp w)
       /\ Report.image_path r = image_path_of (file req)
       /\ column params (JS.or_null (Body.citizen_name b))
          = Some (Report.citizen_name r)
       /\ column params (JS.or_null (Body.email b)) = Some (Report.email r)
       /\ column params (JS.or_null (Body.phone b)) = Some (Report.phone r)
       /\ column params (Body.location b) = Some (Some (Report.location r))
       /\ column params (JS.or_null (Body.description b))
          = Some (Report.description r)
       /\ column params (Body.issue_type b)
          = Some (Some (Report.issue_type r)).
Proof.
  cbv zeta. unfold POST_api_reports, query_insert_report, created. run.
  destruct (held w <? connectionLimit)%nat; world_cbn; [|discriminate].
  destruct (hd false (faults w)); world_cbn; [discriminate|].
  destruct (hd false (tl (faults w))); world_cbn; [discriminate|].
  destruct (JS.truthy (Body.location (body req))) eqn:Tl;
    cbn [negb orb]; world_cbn; [|discriminate].
  destruct (JS.truthy (Body.issue_type (body req))) eqn:Ti;
    cbn [negb orb]; world_cbn; [|discriminate].
  destruct (hd false (tl (tl (faults w)))); world_cbn; [discriminate|].
  match goal with
  | |- context [insert_report ?c ?n ?e ?p ?i ?l ?d ?t ?w0] =>
      destruct (insert_report c n e p i l d t w0) as [[[]|err|] w1] eqn:Ei
  end; world_cbn; try discriminate.
  apply insert_report_returned in Ei as (Tk & n' & e' & p' & loc & d' & it
                                         & En & Ee & Ep & El & Ed & Et
                                         & _ & ->).
  world_cbn_in Tk. world_cbn.
  intros E. injection E as E. subst c.
  repeat split; try assumption.
  eexists _, _. repeat split; eassumption.
Qed.

Lemma missing_required_test (req : Request) :
  missing_required req ->
  negb (JS.truthy (Body.location (body req)))
  || negb (JS.truthy (Body.issue_type (body req))) = true.
Proof.
  intros [E|E]; rewrite E; cbn [negb orb]; [reflexivity | apply orb_true_r].
Qed.

(** C3, as the code has it: a submission to [POST /api/reports] that
    lacks [location] or [issue_type] creates no row, whatever the upload
    middleware and the store do, and no statement on [reports] is sent for
    it; the handler checks the fields after it has taken a connection and
    selected the database, so the answer is 400
    [{error: "location and issue_type required"}] when the pool has a
    connection and the store answers, and 500
    [{ok: false, error: "failed"}] when the connection is obtained and
    the [USE] statement fails. *)
Theorem missing_required_is_rejected {P : Platform}
    (rt : Runtime) (req : Request) (w : World) :
  missing_required req ->
  let w' := snd (POST_api_reports rt req w) in
  reports w' = reports w
  /\ (log w' = log w \/ log w' = (log w ++ [USE (dbName rt)])%list)
  /\ (healthy w -> pool_available w ->
      fst (POST_api_reports rt req w) = Returned required
      /\ log w' = (log w ++ [USE (dbName rt)])%list)
  /\ (pool_available w -> hd false (faults w) = false ->
      hd false (tl (faults w)) = true ->
      fst (POST_api_reports rt req w) = Returned failed)
  /\ reports (snd (route_POST_api_reports rt req w)) = reports w.
Proof.
  intros Hm.
  assert (Hrows : forall req0, missing_required req0 ->
            reports (snd (POST_api_reports rt req0 w)) = reports w).
  { intros req0 Hm0. apply missing_required_test in Hm0.
    unfold POST_api_reports. run. rewrite Hm0.
    destruct (held w <? connectionLimit)%nat; world_cbn; [|reflexivity].
    destruct (hd false (faults w)); world_cbn; [reflexivity|].
    destruct (hd false (tl (faults w))); world_cbn; reflexivity. }
  cbv zeta. split; [now apply Hrows|].
  split; [|split; [|split]].
  - apply missing_required_test in Hm.
    unfold POST_api_reports. run. rewrite Hm.
    destruct (held w <? connectionLimit)%nat; world_cbn; [|now left].
    destruct (hd false (faults w)); world_cbn; [now left|].
    destruct (hd false (tl (faults w))); world_cbn; now right.
  - intros Hh Hp. unfold healthy in Hh. apply missing_required_test in Hm.
    unfold POST_api_reports, required. run. rewrite Hm.
    rewrite (pool_available_ltb _ Hp). world_cbn. no_fault Hh. world_cbn.
    split; reflexivity.
  - intros Hp F1 F2. unfold POST_api_reports, failed. run.
    rewrite (pool_available_ltb _ Hp). world_cbn. rewrite F1. world_cbn.
    rewrite F2. world_cbn. reflexivity.
  - unfold route_POST_api_reports, after_upload.
    destruct (upload_single rt (parts req)) as [e|f]; [reflexivity|].
    apply Hrows. exact Hm.
Qed.

Lemma missing_required_is_rejected_witness :
  missing_required no_location
  /\ reports (snd (@POST_api_reports decimal_platform (in_2025 42)
                     no_location fresh_world))
     = reports fresh_world.
Proof.
  assert (H : missing_required no_location) by (left; reflexivity).
  split; [exact H|].
  exact (proj1 (@missing_required_is_rejected decimal_platform (in_2025 42)
                  no_location fresh_world H)).
Defined.

(** C3, as stated, fails: the rejection comes after the store has been
    used (a connection taken, [USE] sent); so a submission without
    [location] is answered 500, not 400, when that statement fails, and
    is not answered at all while the pool has no connection to give. *)
Lemma rejection_follows_store_access :
  log (snd (@POST_api_reports decimal_platform (in_2025 42) no_location
              fresh_world))
  = [USE "billboard_portal"]
  /\ fst (@POST_api_reports decimal_platform (in_2025 42) no_location
            store_down)
     = Returned failed
  /\ fst (@POST_api_reports decimal_platform (in_2025 42) no_location
            store_down)
     <> Returned required
  /\ fst (@POST_api_reports decimal_platform (in_2025 42) no_location
            exhausted) = Pending.
Proof.
  split; [reflexivity|]. split; [reflexivity|].
  split; [discriminate | reflexivity].
Qed.

(** The answer to a submission whose identifier is already in the table. *)
Lemma POST_api_reports_collision {P : Platform}
    (rt : Runtime) (req : Request) (w : World) :
  healthy w -> pool_available w ->
  JS.truthy (Body.location (body req)) = true ->
  JS.truthy (Body.issue_type (body req)) = true ->
  case_id_taken (genCaseId rt) (reports w) = true ->
  fst (POST_api_reports rt req w) = Returned failed
  /\ reports (snd (POST_api_reports rt req w)) = reports w
  /\ log (snd (POST_api_reports rt req w))
     = (log w ++ [USE (dbName rt); INSERT_report (genCaseId rt)])%list
  /\ held (snd (POST_api_reports rt req w)) = held w.
Proof.
  intros Hh Hp Tl Ti Tk. unfold healthy in Hh.
  unfold POST_api_reports, query_insert_report, failed.
  healthy_run Hh Hp. rewrite Tl, Ti. cbn [negb orb]. world_cbn.
  no_fault Hh. world_cbn.
  match goal with
  | |- context [insert_report ?c ?n ?e ?p ?i ?l ?d ?t ?w0] =>
      destruct (insert_report_taken c n e p i l d t w0 Tk) as [err ->]
  end.
  world_cbn. repeat split. now rewrite <- app_assoc.
Qed.

(** C1, as the code has it: the identifier is generated once and the
    [INSERT] sent once; when the identifier is already in the table the
    statement fails, the answer is 500 [{ok: false, error: "failed"}],
    no row is written and nothing is tried again; so, of two submissions
    that draw the same suffix in the same year, the one that reaches the
    store second fails. *)
Theorem collision_is_not_retried {P : Platform} :
  (forall rt req w,
     healthy w -> pool_available w ->
     JS.truthy (Body.location (body req)) = true ->
     JS.truthy (Body.issue_type (body req)) = true ->
     case_id_taken (genCaseId rt) (reports w) = true ->
     let w' := snd (POST_api_reports rt req w) in
     fst (POST_api_reports rt req w) = Returned failed
     /\ reports w' = reports w
     /\ log w' = (log w ++ [USE (dbName rt); INSERT_report (genCaseId rt)])%list
     /\ held w' = held w)
  /\ (forall rt1 req1 rt2 req2 w,
        healthy w -> pool_available w ->
        JS.truthy (Body.location (body req2)) = true ->
        JS.truthy (Body.issue_type (body req2)) = true ->
        genCaseId rt2 = genCaseId rt1 ->
        fst (POST_api_reports rt1 req1 w) = Returned (created (genCaseId rt1)) ->
        fst (POST_api_reports rt2 req2 (snd (POST_api_reports rt1 req1 w)))
        = Returned failed).
Proof.
  split.
  - intros rt req w Hh Hp Tl Ti Tk. now apply POST_api_reports_collision.
  - intros rt1 req1 rt2 req2 w Hh Hp Tl Ti Eg E1.
    apply POST_api_reports_created in E1
      as (_ & _ & _ & _ & Eh & Ef & params & r & Er & _ & Ec & _).
    apply POST_api_reports_collision; try assumption.
    + unfold healthy in *. rewrite Ef. now repeat apply no_fault_tl.
    + unfold pool_available in *. now rewrite Eh.
    + rewrite Er, Eg. unfold case_id_taken.
      rewrite existsb_app. cbn [existsb].
      rewrite (carries_own _ _ Ec). cbn [orb]. apply orb_true_r.
Qed.

Lemma collision_is_not_retried_witness :
  fst (@POST_api_reports decimal_platform (in_2025 42) pothole triage)
  = Returned failed.
Proof.
  refine (proj1 (proj1 (@collision_is_not_retried decimal_platform)
                   (in_2025 42) pothole triage _ _ _ _ _)).
  - constructor.
  - unfold pool_available, connectionLimit. simpl. lia.
  - reflexivity.
  - reflexivity.
  - reflexivity.
Defined.

(** C1, as stated, fails: two submissions in 2025 that both draw the
    suffix 000042 do not both succeed with distinct identifiers; the
    first is created, the second is answered 500, one [INSERT] having
    been sent for it and no second identifier drawn. *)
Lemma same_suffix_second_submission_fails :
  let first := @POST_api_reports decimal_platform (in_2025 42) pothole
                 fresh_world in
  let second := @POST_api_reports decimal_platform (in_2025 42) pothole
                  (snd first) in
  fst first = Returned (created "REP2025000042")
  /\ fst second = Returned failed
  /\ map Report.case_id (reports (snd second)) = [Some "REP2025000042"]
  /\ log (snd second)
     = [ USE "billboard_portal"; INSERT_report "REP2025000042";
         USE "billboard_portal"; INSERT_report "REP2025000042" ]
  /\ ~ (exists c1 c2,
          fst first = Returned (created c1)
          /\ fst second = Returned (created c2) /\ c1 <> c2).
Proof.
  cbv zeta. repeat split; try reflexivity.
  intros (c1 & c2 & _ & E & _). discriminate E.
Qed.

Lemma not_taken_select {P : Platform} (c : string) (rs : list Report.t) :
  case_id_taken c rs = false -> select_by_case_id c rs = [].
Proof.
  unfold case_id_taken, select_by_case_id.
  induction rs as [|r rs IH]; cbn [existsb filter]; [reflexivity|].
  intros E. apply orb_false_iff in E as [E1 E2].
  rewrite E1. now apply IH.
Qed.

Ltac split_run :=
  repeat (world_cbn;
          match goal with
          | |- context [if ?b then _ else _] => destruct b
          | |- context [match ?o with Some _ => _ | None => _ end] =>
              destruct o
          end);
  world_cbn.

(** A handler around the [INSERT]: what it does to the table is what
    the [INSERT] does. *)
Ltac insert_run :=
  run; split_run;
  try match goal with
      | |- context [insert_report ?c ?n ?e ?p ?i ?l ?d ?t ?w0] =>
          let Ei := fresh "Ei" in
          destruct (insert_report_outcomes c n e p i l d t w0)
            as [[? Ei]|(? & ? & Ei & ? & ? & ? & ? & ?)];
          rewrite Ei; world_cbn
      end.

(** Whatever a submission handler adds to the table is one row, [NEW]. *)
Lemma submission_adds_NEW {P : Platform}
    (rt : Runtime) (req : Request) (w : World) :
  (reports (snd (POST_api_reports rt req w)) = reports w
   \/ exists r,
        reports (snd (POST_api_reports rt req w)) = (reports w ++ [r])%list
        /\ Report.status r = Some NEW)
  /\ (reports (snd (POST_report rt req w)) = reports w
      \/ exists r,
           reports (snd (POST_report rt req w)) = (reports w ++ [r])%list
           /\ Report.status r = Some NEW).
Proof.
  split.
  - unfold POST_api_reports, query_insert_report. insert_run;
      first [left; reflexivity | right; eexists; split; [reflexivity|assumption]].
  - unfold POST_report, query_insert_report. insert_run;
      first [left; reflexivity | right; eexists; split; [reflexivity|assumption]].
Qed.

(** The [INSERT] of a storable submission. *)
Lemma insert_report_storable {P : Platform}
    (rt : Runtime) (req : Request) (w w0 : World) (loc it : string) :
  Body.location (body req) = JS.Str loc ->
  Body.issue_type (body req) = JS.Str it ->
  plain_options req -> within_widths rt req loc it ->
  case_id_taken (genCaseId rt) (reports w) = false ->
  reports w0 = reports w ->
  let b := body req in
  insert_report (genCaseId rt)
    (JS.or_null (Body.citizen_name b)) (JS.or_null (Body.email b))
    (JS.or_null (Body.phone b)) (image_path_of (file req)) (Body.location b)
    (JS.or_null (Body.description b)) (Body.issue_type b) w0
  = (Returned tt,
     set_reports
       (reports w0
        ++ [Report.mk (reports_auto_increment w0) (Some (genCaseId rt))
              (text_or_null (Body.citizen_name b))
              (text_or_null (Body.email b)) (text_or_null (Body.phone b))
              (image_path_of (file req)) loc
              (text_or_null (Body.description b)) it
              (Some NEW) (Some (current_timestamp w0))])
       (reports_auto_increment w0 + 1) w0).
Proof.
  intros El Ei (Hn & He & Hp & Hd) Hf Tk Er. cbv zeta.
  unfold insert_report. cbv zeta. rewrite El, Ei.
  rewrite !(column_text _ _ _ (as_text_or_null _ Hn)),
          !(column_text _ _ _ (as_text_or_null _ He)),
          !(column_text _ _ _ (as_text_or_null _ Hp)),
          !(column_text _ _ _ (as_text_or_null _ Hd)).
  unfold column at 1 2. cbn [JS.as_text].
  unfold within_widths in Hf. rewrite Hf. cbn [negb].
  rewrite Er, Tk. reflexivity.
Qed.

(** A storable submission is stored, when the store answers. *)
Lemma POST_api_reports_storable {P : Platform}
    (rt : Runtime) (req : Request) (w : World) :
  healthy w -> pool_available w -> storable rt req w ->
  fst (POST_api_reports rt req w) = Returned (created (genCaseId rt)).
Proof.
  intros Hh Hp (loc & it & El & Nl & Ei & Ni & Ho & Hf & Tk).
  unfold healthy in Hh.
  assert (Tl : JS.truthy (Body.location (body req)) = true).
  { rewrite El. cbn. apply negb_true_iff. now apply String.eqb_neq. }
  assert (Ti : JS.truthy (Body.issue_type (body req)) = true).
  { rewrite Ei. cbn. apply negb_true_iff. now apply String.eqb_neq. }
  unfold POST_api_reports, query_insert_report, created.
  healthy_run Hh Hp. rewrite Tl, Ti. cbn [negb orb]. world_cbn.
  no_fault Hh. world_cbn.
  rewrite (insert_report_storable rt req w _ loc it El Ei Ho Hf Tk)
    by reflexivity.
  reflexivity.
Qed.

(** What a column holds of a required field sent as text. *)
Lemma column_plain {P : Platform} (params : list JS.value) (v : JS.value)
    (s : string) :
  column params v = Some (Some s) -> plain v -> v = JS.Str s.
Proof.
  intros E [->|[->|[s' ->]]]; cbn in E; congruence.
Qed.

(** C2, as the code has it: a submission with both required fields that
    the store can take is created; looking up the identifier returned
    finds exactly the row created, with status [NEW], [location] and
    [issue_type] as submitted, each optional text field as submitted when
    it was not empty and NULL when it was empty or left out, and the
    tracking API answers with its projection; and whatever a submission
    adds to the table is [NEW]. *)
Theorem created_report_is_found {P : Platform} :
  (forall rt req w,
     healthy w -> pool_available w -> storable rt req w ->
     fst (POST_api_reports rt req w) = Returned (created (genCaseId rt)))
  /\ (forall rt req w c,
        fst (POST_api_reports rt req w) = Returned (created c) ->
        let w' := snd (POST_api_reports rt req w) in
        exists r,
          reports w' = (reports w ++ [r])%list
          /\ select_by_case_id c (reports w') = [r]
          /\ Report.case_id r = Some c
          /\ Report.status r = Some NEW
          /\ (plain (Body.location (body req)) ->
              Body.location (body req) = JS.Str (Report.location r))
          /\ (plain (Body.issue_type (body req)) ->
              Body.issue_type (body req) = JS.Str (Report.issue_type r))
          /\ stored_for (Body.citizen_name (body req)) (Report.citizen_name r)
          /\ stored_for (Body.email (body req)) (Report.email r)
          /\ stored_for (Body.phone (body req)) (Report.phone r)
          /\ stored_for (Body.description (body req)) (Report.description r)
          /\ Report.image_path r = image_path_of (file req)
          /\ forall rt' req',
               healthy w' -> pool_available w' ->
               Params.caseId (params req') = c ->
               fst (GET_api_reports_caseId rt' req' w')
               = Returned
                   (Json 200 [ ("case_id", JStr c);
                               ("status", JStr "NEW");
                               ("issue_type", JStr (Report.issue_type r));
                               ("location", JStr (Report.location r));
                               ("created_at", JDate (current_timestamp w)) ]))
  /\ (forall rt req w,
        (reports (snd (POST_api_reports rt req w)) = reports w
         \/ exists r,
              reports (snd (POST_api_reports rt req w))
              = (reports w ++ [r])%list
              /\ Report.status r = Some NEW)
        /\ (reports (snd (POST_report rt req w)) = reports w
            \/ exists r,
                 reports (snd (POST_report rt req w)) = (reports w ++ [r])%list
                 /\ Report.status r = Some NEW)).
Proof.
  split; [exact POST_api_reports_storable|].
  split; [|exact submission_adds_NEW].
  intros rt req w c E w'.
  destruct (POST_api_reports_created rt req w c E)
    as (Ec & Tk & _ & _ & _ & _ & params & r & Er & _ & Hc & Hn & Ht & Hi
        & Cn & Ce & Cp & Cl & Cd & Ci).
  fold w' in Er.
  assert (Es : select_by_case_id c (reports w') = [r]).
  { rewrite Er. unfold select_by_case_id. rewrite filter_app.
    fold (select_by_case_id c (reports w)). rewrite (not_taken_select _ _ Tk).
    cbn [filter app]. now rewrite (carries_own _ _ Hc). }
  exists r. repeat split; try assumption;
    try (eapply stored_for_column; eassumption);
    try (now apply (column_plain params)).
  intros rt' req' Hh Hp Hq.
  destruct (GET_api_reports_caseId_healthy rt' req' w' Hh Hp) as [Ha _].
  rewrite Ha, Hq, Es. unfold public_projection.
  now rewrite Hc, Hn, Ht.
Qed.

Lemma created_report_is_found_witness :
  fst (@POST_api_reports decimal_platform (in_2025 42) pothole fresh_world)
  = Returned (created "REP2025000042")
  /\ exists r,
       @select_by_case_id decimal_platform
         "REP2025000042"
         (reports (snd (@POST_api_reports decimal_platform (in_2025 42)
                          pothole fresh_world)))
       = [r]
       /\ Report.status r = Some NEW.
Proof.
  assert (H : fst (@POST_api_reports decimal_platform (in_2025 42) pothole
                     fresh_world)
              = Returned (created "REP2025000042")) by reflexivity.
  split; [exact H|].
  destruct (proj1 (proj2 (@created_report_is_found decimal_platform))
              _ _ _ _ H)
    as (r & _ & Es & _ & En & _).
  exists r. split; [exact Es | exact En].
Defined.

(** C2, as stated, fails on an empty optional field: a submission whose
    [citizen_name] is the empty string is created, and the record found
    under the returned identifier has NULL there, not the value sent. *)
Lemma empty_name_is_not_echoed :
  let run := @POST_api_reports decimal_platform (in_2025 42) unnamed_pothole
               fresh_world in
  fst run = Returned (created "REP2025000042")
  /\ Body.citizen_name (body unnamed_pothole) = JS.Str ""
  /\ map Report.citizen_name
         (@select_by_case_id decimal_platform "REP2025000042"
            (reports (snd run)))
     = [None]
  /\ map Report.citizen_name
         (@select_by_case_id decimal_platform "REP2025000042"
            (reports (snd run)))
     <> [Some ""].
Proof.
  cbv zeta. repeat split; try reflexivity. discriminate.
Qed.

(* ================================================================== *)
(** ** Status updates *)


Lemma known_id_existsb {P : Platform} (id : string) (w : World) :
  known_id id w -> existsb (id_matches id) (reports w) = true.
Proof.
  intros (r & Hin & Hm). apply existsb_exists. now exists r.
Qed.








(* ================================================================== *)
(** ** Media intake *)

Lemma allowed_test (ext : string) :
  existsb (String.eqb ext) allowed = true <-> In ext allowed.
Proof.
  rewrite existsb_exists. split.
  - intros (x & Hin & E). apply String.eqb_eq in E. now subst.
  - intros Hin. exists ext. split; [exact Hin | apply String.eqb_refl].
Qed.





(** C7, as stated, fails at the limit: a [.png] of exactly 5 MiB has an
    allowed extension and is at most 5 MiB, yet it is not accepted:
    multer refuses a file once its size reaches [limits.fileSize]. *)
Lemma five_MiB_photo_is_refused :
  let size := 5 * 1024 * 1024 in
  let upload := upload_single (in_2025 0)
                  [FilePart "photo" "billboard.png" size] in
  In (JS.toLowerCase (JS.extname "billboard.png")) [".jpg"; ".jpeg"; ".png"]
  /\ size <= 5 * 1024 * 1024
  /\ upload = inl LIMIT_FILE_SIZE
  /\ ~ (exists f, upload = inr (Some f)).
Proof.
  cbv zeta.
  assert (E : upload_single (in_2025 0)
                [FilePart "photo" "billboard.png" (5 * 1024 * 1024)]
              = inl LIMIT_FILE_SIZE) by (vm_compute; reflexivity).
  rewrite E. split; [right; right; left; reflexivity|].
  split; [reflexivity|]. split; [reflexivity|].
  intros [f Hf]. discriminate Hf.
Qed.

(* ================================================================== *)
(** ** Optional fields *)

Lemma or_null_drop_empty (v : JS.value) :
  JS.or_null (drop_empty v) = JS.or_null v.
Proof.
  destruct v as [| |b|x|s|l|l]; try reflexivity.
  cbn [drop_empty]. destruct (String.eqb s "") eqn:E; [|reflexivity].
  unfold JS.or_null. cbn [JS.truthy]. now rewrite E.
Qed.

Lemma column_blank {P : Platform} (params : list JS.value) (v : JS.value)
    (text : option string) :
  column params (JS.or_null v) = Some text -> blank v -> text = None.
Proof. intros E [->| ->]; cbn in E; congruence. Qed.

(** The rows a submission handler adds, column by column. *)
Lemma submission_rows {P : Platform}
    (rt : Runtime) (req : Request) (w : World) :
  let b := body req in
  let added (w' : World) :=
    exists (params : list JS.value) r,
      reports w' = (reports w ++ [r])%list
      /\ column params (JS.or_null (Body.citizen_name b))
         = Some (Report.citizen_name r)
      /\ column params (JS.or_null (Body.email b)) = Some (Report.email r)
      /\ column params (JS.or_null (Body.phone b)) = Some (Report.phone r)
      /\ column params (JS.or_null (Body.description b))
         = Some (Report.description r) in
  (reports (snd (POST_api_reports rt req w)) = reports w
   \/ added (snd (POST_api_reports rt req w)))
  /\ (reports (snd (POST_report rt req w)) = reports w
      \/ added (snd (POST_report rt req w))).
Proof.
  cbv zeta. split.
  - unfold POST_api_reports, query_insert_report. run. split_run;
      try (left; reflexivity);
      match goal with
      | |- context [insert_report ?c ?n ?e ?p ?i ?l ?d ?t ?w0] =>
          destruct (insert_report_cases c n e p i l d t w0)
            as [[err Ei]|(_ & n' & e' & p' & loc & d' & it
                          & En & Ee & Ep & El & Ed & Et & _ & Ei)];
          rewrite Ei; world_cbn
      end;
      first [ left; reflexivity
            | right; eexists _, _; repeat split; eassumption || reflexivity ].
  - unfold POST_report, query_insert_report. run. split_run;
      try (left; reflexivity);
      match goal with
      | |- context [insert_report ?c ?n ?e ?p ?i ?l ?d ?t ?w0] =>
          destruct (insert_report_cases c n e p i l d t w0)
            as [[err Ei]|(_ & n' & e' & p' & loc & d' & it
                          & En & Ee & Ep & El & Ed & Et & _ & Ei)];
          rewrite Ei; world_cbn
      end;
      first [ left; reflexivity
            | right; eexists _, _; repeat split; eassumption || reflexivity ].
Qed.

Lemma nulls_for_blanks_columns {P : Platform} (params : list JS.value)
    (req : Request) (r : Report.t) :
  let b := body req in
  column params (JS.or_null (Body.citizen_name b))
  = Some (Report.citizen_name r) ->
  column params (JS.or_null (Body.email b)) = Some (Report.email r) ->
  column params (JS.or_null (Body.phone b)) = Some (Report.phone r) ->
  column params (JS.or_null (Body.description b))
  = Some (Report.description r) ->
  nulls_for_blanks req r.
Proof.
  intros b E1 E2 E3 E4. unfold nulls_for_blanks.
  repeat split; eapply column_blank; eassumption.
Qed.

(** The form route stores an acceptable submission, when the store
    answers. *)
Lemma POST_report_acceptable {P : Platform}
    (rt : Runtime) (req : Request) (w : World) :
  healthy w -> pool_available w -> acceptable rt req w ->
  fst (POST_report rt req w)
  = Returned (Render "success" [ ("title", LVal (JStr "Submitted"));
                                 ("caseId", LVal (JStr (genCaseId rt))) ])
  /\ exists r,
       reports (snd (POST_report rt req w)) = (reports w ++ [r])%list
       /\ Report.status r = Some NEW
       /\ Body.location (body req) = JS.Str (Report.location r)
       /\ Body.issue_type (body req) = JS.Str (Report.issue_type r).
Proof.
  intros Hh Hp (loc & it & El & Ei & Ho & Hf & Tk). unfold healthy in Hh.
  unfold POST_report, query_insert_report.
  healthy_run Hh Hp.
  rewrite (insert_report_storable rt req w _ loc it El Ei Ho Hf Tk)
    by reflexivity.
  world_cbn. split; [reflexivity|].
  eexists. repeat split; assumption.
Qed.

(** C10: an optional text field ([citizen_name], [email], [phone],
    [description]) sent empty is treated as one left out: either handler
    does, answers and stores the same for a submission and for that
    submission with its empty optional fields removed; the row a
    submission adds has NULL in the column of every optional field that
    was empty or absent; and a submission the store can take does add
    its row, when the store answers. *)
Theorem empty_optional_field_is_null {P : Platform}
    (rt : Runtime) (req : Request) (w : World) :
  POST_api_reports rt (absent_if_empty req) w = POST_api_reports rt req w
  /\ POST_report rt (absent_if_empty req) w = POST_report rt req w
  /\ (reports (snd (POST_api_reports rt req w)) = reports w
      \/ exists r,
           reports (snd (POST_api_reports rt req w)) = (reports w ++ [r])%list
           /\ nulls_for_blanks req r)
  /\ (reports (snd (POST_report rt req w)) = reports w
      \/ exists r,
           reports (snd (POST_report rt req w)) = (reports w ++ [r])%list
           /\ nulls_for_blanks req r)
  /\ (healthy w -> pool_available w -> storable rt req w ->
      fst (POST_api_reports rt req w) = Returned (created (genCaseId rt))
      /\ exists r,
           reports (snd (POST_api_reports rt req w)) = (reports w ++ [r])%list
           /\ Report.case_id r = Some (genCaseId rt)
           /\ nulls_for_blanks req r)
  /\ (healthy w -> pool_available w -> acceptable rt req w ->
      exists r,
        reports (snd (POST_report rt req w)) = (reports w ++ [r])%list
        /\ nulls_for_blanks req r).
Proof.
  destruct (submission_rows rt req w) as [Ha Hf]. cbv zeta in Ha, Hf.
  assert (Added : forall w',
            (exists (params : list JS.value) r,
               reports w' = (reports w ++ [r])%list
               /\ column params (JS.or_null (Body.citizen_name (body req)))
                  = Some (Report.citizen_name r)
               /\ column params (JS.or_null (Body.email (body req)))
                  = Some (Report.email r)
               /\ column params (JS.or_null (Body.phone (body req)))
                  = Some (Report.phone r)
               /\ column params (JS.or_null (Body.description (body req)))
                  = Some (Report.description r)) ->
            exists r, reports w' = (reports w ++ [r])%list
                      /\ nulls_for_blanks req r).
  { intros w' (params & r & Er & E1 & E2 & E3 & E4). exists r.
    split; [exact Er|]. now apply (nulls_for_blanks_columns params). }
  repeat match goal with |- _ /\ _ => split end.
  - unfold POST_api_reports, absent_if_empty.
    cbn [body file Body.citizen_name Body.email Body.phone Body.location
         Body.description Body.issue_type].
    now rewrite !or_null_drop_empty.
  - unfold POST_report, absent_if_empty.
    cbn [body file Body.citizen_name Body.email Body.phone Body.location
         Body.description Body.issue_type].
    now rewrite !or_null_drop_empty.
  - destruct Ha as [Ha|Ha]; [now left | right; now apply Added].
  - destruct Hf as [Hf|Hf]; [now left | right; now apply Added].
  - intros Hh Hp Hs.
    pose proof (POST_api_reports_storable rt req w Hh Hp Hs) as Ec.
    split; [exact Ec|].
    destruct (POST_api_reports_created rt req w _ Ec)
      as (_ & _ & _ & _ & _ & _ & params & r & Er & _ & Hc & _ & _ & _
          & E1 & E2 & E3 & _ & E4 & _).
    exists r. split; [exact Er|]. split; [exact Hc|].
    now apply (nulls_for_blanks_columns params).
  - intros Hh Hp Hs.
    destruct (POST_report_acceptable rt req w Hh Hp Hs) as (_ & r & Er & _).
    destruct Hf as [Hf|Hf].
    + rewrite Hf in Er. exfalso.
      apply (f_equal (@List.length _)) in Er.
      rewrite length_app in Er. cbn in Er. lia.
    + now apply Added.
Qed.

(** The form of the scenario with an empty name is stored with NULL for
    its name. *)
Lemma empty_optional_field_is_null_witness :
  healthy fresh_world /\ pool_available fresh_world
  /\ @storable decimal_platform (in_2025 42) unnamed_pothole fresh_world
  /\ blank (Body.citizen_name (body unnamed_pothole))
  /\ exists r,
       reports (snd (@POST_api_reports decimal_platform (in_2025 42)
                       unnamed_pothole fresh_world))
       = (reports fresh_world ++ [r])%list
       /\ Report.citizen_name r = None.
Proof.
  assert (Hh : healthy fresh_world) by constructor.
  assert (Hp : pool_available fresh_world)
    by (unfold pool_available, connectionLimit; simpl; lia).
  assert (Hs : @storable decimal_platform (in_2025 42) unnamed_pothole
                 fresh_world).
  { exists "Main St & 5th", "pothole".
    repeat split; try reflexivity; try discriminate;
      first [left; reflexivity | right; right; eexists; reflexivity]. }
  assert (Hb : blank (Body.citizen_name (body unnamed_pothole)))
    by (right; reflexivity).
  split; [exact Hh|]. split; [exact Hp|]. split; [exact Hs|].
  split; [exact Hb|].
  destruct (proj2 (proj1 (proj2 (proj2 (proj2 (proj2
              (@empty_optional_field_is_null decimal_platform (in_2025 42)
                 unnamed_pothole fresh_world))))) Hh Hp Hs))
    as (r & Er & _ & Hn).
  exists r. split; [exact Er|]. exact (proj1 Hn Hb).
Defined.

(* ================================================================== *)
(** * More of the application *)

(** ** Lookups write nothing *)

Ltac case_run :=
  repeat (world_cbn;
          match goal with
          | |- context [if ?b then _ else _] => destruct b
          | |- context [match ?o with Some _ => _ | None => _ end] =>
              destruct o
          | |- context [match ?l with [] => _ | _ :: _ => _ end] =>
              destruct l
          end);
  world_cbn.

Ltac same_data_run :=
  run; case_run; unfold same_data; world_cbn; repeat split.

(** The tracker page, the tracking API, the dashboard, the case page and
    the schema bootstrap leave the tables, their counters, the clock, the
    pool and the session as they found them, whatever fails on the way:
    only the statement log and the failures still to come differ. *)
Theorem lookups_write_nothing {P : Platform}
    (rt : Runtime) (req : Request) (w : World) :
  same_data w (snd (GET_track_caseId rt req w))
  /\ same_data w (snd (GET_api_reports_caseId rt req w))
  /\ same_data w (snd (GET_admin_dashboard rt req w))
  /\ same_data w (snd (GET_admin_case_id rt req w))
  /\ same_data w (snd (ensureDatabase rt w)).
Proof.
  repeat match goal with |- _ /\ _ => split end.
  - unfold GET_track_caseId, query_select_report_by_case_id. same_data_run.
  - unfold GET_api_reports_caseId, query_select_projection_by_case_id.
    same_data_run.
  - unfold GET_admin_dashboard, ensureAuth, query_select_recent_reports.
    destruct (session_user w); same_data_run.
  - unfold GET_admin_case_id, ensureAuth, query_select_report_by_id.
    destruct (session_user w); same_data_run.
  - unfold ensureDatabase. same_data_run.
Qed.

(** ** Tracking *)







(** ** Submissions *)

Ltac pick_disjunct :=
  first [ reflexivity
        | left; reflexivity
        | right; left; reflexivity
        | right; right; reflexivity
        | right; right; left; reflexivity
        | right; right; right; reflexivity ].

(** The answer to a submission says what happened to it: on either
    route a row is written exactly when the answer is the success one,
    and then it is one row, carrying the identifier announced; every
    other outcome (the 400 of the API, the 500 of either route, a refused
    connection, a wait for the pool) leaves the table as it was. *)
Theorem submission_answer_is_truthful {P : Platform}
    (rt : Runtime) (req : Request) (w : World) :
  ((fst (POST_api_reports rt req w) = Returned (created (genCaseId rt))
    /\ exists r,
         reports (snd (POST_api_reports rt req w)) = (reports w ++ [r])%list
         /\ Report.case_id r = Some (genCaseId rt))
   \/ (reports (snd (POST_api_reports rt req w)) = reports w
       /\ (fst (POST_api_reports rt req w) = Pending
           \/ fst (POST_api_reports rt req w) = Thrown ConnectionError
           \/ fst (POST_api_reports rt req w) = Returned required
           \/ fst (POST_api_reports rt req w) = Returned failed)))
  /\ ((fst (POST_report rt req w)
       = Returned (Render "success" [ ("title", LVal (JStr "Submitted"));
                                      ("caseId", LVal (JStr (genCaseId rt))) ])
       /\ exists r,
            reports (snd (POST_report rt req w)) = (reports w ++ [r])%list
            /\ Report.case_id r = Some (genCaseId rt))
      \/ (reports (snd (POST_report rt req w)) = reports w
          /\ (fst (POST_report rt req w) = Pending
              \/ fst (POST_report rt req w) = Thrown ConnectionError
              \/ fst (POST_report rt req w)
                 = Returned (Send 500 "Failed to submit report.")))).
Proof.
  split.
  - unfold POST_api_reports, query_insert_report, created, required, failed.
    insert_run;
      first [ left; split;
              [reflexivity | eexists; split; [reflexivity | assumption]]
            | right; split; [reflexivity | pick_disjunct] ].
  - unfold POST_report, query_insert_report.
    insert_run;
      first [ left; split;
              [reflexivity | eexists; split; [reflexivity | assumption]]
            | right; split; [reflexivity | pick_disjunct] ].
Qed.

(** The [INSERT] of a row without a required column fails. *)
Lemma insert_report_not_sent {P : Platform} c n e p i l d t (w : World) :
  l = JS.Undefined \/ t = JS.Undefined ->
  exists err, insert_report c n e p i l d t w = (Thrown err, w).
Proof.
  intros Hnone.
  destruct (insert_report_cases c n e p i l d t w)
    as [He|(_ & n' & e' & p' & loc & d' & it & _ & _ & _ & El & _ & Et & _)];
    [exact He|].
  destruct Hnone as [-> | ->]; cbn in El, Et; discriminate.
Qed.

(** The form route does not check its fields: with the store answering,
    [POST /report] stores whatever [location] and [issue_type] it is sent,
    the empty string included, where [POST /api/reports] answers 400 for
    an empty one; and when one of the two is not sent at all, the NOT NULL
    column refuses the row and the form route answers 500. *)
Theorem form_route_does_not_validate {P : Platform} :
  (forall rt req w,
     healthy w -> pool_available w -> acceptable rt req w ->
     fst (POST_report rt req w)
     = Returned (Render "success" [ ("title", LVal (JStr "Submitted"));
                                    ("caseId", LVal (JStr (genCaseId rt))) ])
     /\ (exists r,
           reports (snd (POST_report rt req w)) = (reports w ++ [r])%list
           /\ Body.location (body req) = JS.Str (Report.location r)
           /\ Body.issue_type (body req) = JS.Str (Report.issue_type r)
           /\ Report.status r = Some NEW)
     /\ (Body.location (body req) = JS.Str ""
         \/ Body.issue_type (body req) = JS.Str "" ->
         fst (POST_api_reports rt req w) = Returned required
         /\ reports (snd (POST_api_reports rt req w)) = reports w))
  /\ (forall rt req w,
        healthy w -> pool_available w ->
        Body.location (body req) = JS.Undefined
        \/ Body.issue_type (body req) = JS.Undefined ->
        fst (POST_report rt req w)
        = Returned (Send 500 "Failed to submit report.")
        /\ reports (snd (POST_report rt req w)) = reports w).
Proof.
  split.
  - intros rt req w Hh Hp Ha.
    destruct (POST_report_acceptable rt req w Hh Hp Ha)
      as (E & r & Er & Es & El & Ei).
    split; [exact E|]. split; [exists r; auto|].
    intros Hempty. unfold healthy in Hh.
    assert (Hm : missing_required req).
    { unfold missing_required.
      destruct Hempty as [-> | ->]; [left | right]; reflexivity. }
    apply missing_required_test in Hm.
    unfold POST_api_reports, required. healthy_run Hh Hp.
    rewrite Hm. world_cbn. split; reflexivity.
  - intros rt req w Hh Hp Hnone. unfold healthy in Hh.
    unfold POST_report, query_insert_report. healthy_run Hh Hp.
    match goal with
    | |- context [insert_report ?c ?n ?e ?p ?i ?l ?d ?t ?w0] =>
        destruct (insert_report_not_sent c n e p i l d t w0 Hnone) as [err ->]
    end.
    world_cbn. split; reflexivity.
Qed.

Lemma form_route_does_not_validate_witness :
  fst (@POST_report decimal_platform (in_2025 7)
         (mkRequest (form JS.Undefined (JS.Str "") (JS.Str "pothole"))
                    no_params [] None)
         fresh_world)
  = Returned (Render "success" [ ("title", LVal (JStr "Submitted"));
                                 ("caseId", LVal (JStr "REP2025000007")) ]).
Proof.
  refine (proj1 (proj1 (@form_route_does_not_validate decimal_platform)
                   (in_2025 7) _ fresh_world _ _ _)).
  - constructor.
  - unfold pool_available, connectionLimit. simpl. lia.
  - exists "", "pothole". repeat split; try reflexivity;
      left; reflexivity.
Defined.

(** ** Sessions *)

Lemma filter_head {A} (f : A -> bool) (l : list A) (x : A) (rest : list A) :
  filter f l = x :: rest -> In x l /\ f x = true.
Proof.
  intros E. apply filter_In. rewrite E. now left.
Qed.

(** Whatever fails, [POST /admin/login] opens a session only for an
    administrator on file whom the store selects for the name sent (when
    the name is sent as text: one whose name the store holds equal to
    it) and whose stored hash bcrypt accepts for the password sent, a
    string; the session is that administrator's id, name and role; in
    every other case the session is as it was.  The tables and the pool
    are never changed by a login. *)
Theorem login_opens_a_session_only_on_a_match {P : Platform}
    (rt : Runtime) (req : Request) (w : World) :
  let w' := snd (POST_admin_login rt req w) in
  (session_user w' = session_user w
   \/ exists u test pw,
        In u (admin_users w)
        /\ username_matches (Body.username (body req)) = Some test
        /\ test u = true
        /\ (forall s, Body.username (body req) = JS.Str s ->
                      named s u = true)
        /\ Body.password (body req) = JS.Str pw
        /\ bcrypt_compare pw (AdminUser.password_hash u) = true
        /\ session_user w'
           = Some (mkSessionUser (AdminUser.id u) (AdminUser.username u)
                                 (AdminUser.role u))
        /\ fst (POST_admin_login rt req w)
           = Returned (Redirect "/admin/dashboard"))
  /\ reports w' = reports w
  /\ admin_users w' = admin_users w
  /\ held w' = held w.
Proof.
  cbv zeta.
  unfold POST_admin_login, query_select_admin_by_username, compare_password.
  run.
  destruct (held w <? connectionLimit)%nat; world_cbn;
    [|repeat split; now left].
  destruct (hd false (faults w)); world_cbn; [repeat split; now left|].
  destruct (hd false (tl (faults w))); world_cbn; [repeat split; now left|].
  destruct (hd false (tl (tl (faults w)))); world_cbn;
    [repeat split; now left|].
  destruct (username_matches (Body.username (body req))) as [test|] eqn:Et;
    run; [|repeat split; now left].
  destruct (filter test (admin_users w)) as [|u rest] eqn:Ef; world_cbn;
    [repeat split; now left|].
  destruct (Body.password (body req)) as [| |b|x|pw|l|l] eqn:Ep; run;
    try (repeat split; now left).
  destruct (bcrypt_compare pw (AdminUser.password_hash u)) eqn:Ec;
    cbn [negb]; world_cbn; [|repeat split; now left].
  destruct (filter_head _ _ _ _ Ef) as [Hin Hm].
  repeat split. right. exists u, test, pw.
  repeat split; try assumption.
  intros s Es. rewrite Es in Et. cbn in Et. injection Et as <-. exact Hm.
Qed.

(** The answers of [POST /admin/login] when the store answers, to a
    name the store takes (a name sent as text is one, and the rows found
    for it are those whose name the store holds equal to it): a name no
    administrator has and a wrong password get one and the same page, so
    the answer does not tell which it was; a login whose password is no
    string, for a name on file, is a 500; and the right password is sent
    to the dashboard with the session opened. *)
Theorem login_outcomes {P : Platform}
    (rt : Runtime) (req : Request) (w : World)
    (test : AdminUser.t -> bool) :
  healthy w -> pool_available w ->
  username_matches (Body.username (body req)) = Some test ->
  let found := filter test (admin_users w) in
  let answer := fst (POST_admin_login rt req w) in
  let w' := snd (POST_admin_login rt req w) in
  (forall s, Body.username (body req) = JS.Str s ->
             found = filter (named s) (admin_users w))
  /\ (found = [] ->
      answer = Returned invalid_credentials
      /\ session_user w' = session_user w)
  /\ (forall u rest pw,
        found = u :: rest -> Body.password (body req) = JS.Str pw ->
        bcrypt_compare pw (AdminUser.password_hash u) = false ->
        answer = Returned invalid_credentials
        /\ session_user w' = session_user w)
  /\ (forall u rest,
        found = u :: rest ->
        (forall pw, Body.password (body req) <> JS.Str pw) ->
        answer = Returned (Send 500 "Login failed")
        /\ session_user w' = session_user w)
  /\ (forall u rest pw,
        found = u :: rest -> Body.password (body req) = JS.Str pw ->
        bcrypt_compare pw (AdminUser.password_hash u) = true ->
        answer = Returned (Redirect "/admin/dashboard")
        /\ session_user w'
           = Some (mkSessionUser (AdminUser.id u) (AdminUser.username u)
                                 (AdminUser.role u))).
Proof.
  intros Hh Hp Et found answer w'. unfold healthy in Hh. subst answer w'.
  unfold POST_admin_login, query_select_admin_by_username, compare_password.
  healthy_run Hh Hp. rewrite Et. run. fold found.
  repeat match goal with |- _ /\ _ => split end.
  - intros s Es. rewrite Es in Et. cbn in Et. injection Et as <-.
    reflexivity.
  - intros ->. split; reflexivity.
  - intros u rest pw -> -> Ec. run. rewrite Ec. split; reflexivity.
  - intros u rest -> Hpw.
    destruct (Body.password (body req)) as [| |b|x|pw|l|l]; run;
      try (split; reflexivity).
    now destruct (Hpw pw).
  - intros u rest pw -> -> Ec. run. rewrite Ec. split; reflexivity.
Qed.

Lemma login_outcomes_witness :
  healthy triage /\ pool_available triage
  /\ fst (@POST_admin_login decimal_platform (in_2025 0)
            (login_request (JS.Str "admin") (JS.Str "admin123")) triage)
     = Returned invalid_credentials.
Proof.
  assert (Hh : healthy triage) by constructor.
  assert (Hp : pool_available triage)
    by (unfold pool_available, connectionLimit; simpl; lia).
  split; [exact Hh|]. split; [exact Hp|].
  exact (proj1 (proj1 (proj2 (@login_outcomes decimal_platform (in_2025 0)
                                (login_request (JS.Str "admin")
                                               (JS.Str "admin123"))
                                triage _ Hh Hp eq_refl))
                      eq_refl)).
Defined.

(** Without a session the dashboard, the case page and the status update
    answer with the redirect to the login page and do nothing else: no
    connection is taken, no statement is sent, no row is changed.  A
    logout puts any client in that position, and changes nothing but the
    session. *)
Theorem admin_routes_need_a_session {P : Platform}
    (rt : Runtime) (req : Request) :
  (forall w,
     session_user w = None ->
     GET_admin_dashboard rt req w = (Returned (Redirect "/admin/login"), w)
     /\ GET_admin_case_id rt req w = (Returned (Redirect "/admin/login"), w)
     /\ POST_admin_case_id_status rt req w
        = (Returned (Redirect "/admin/login"), w))
  /\ (forall w,
        let w1 := snd (GET_admin_logout w) in
        fst (GET_admin_logout w) = Returned (Redirect "/")
        /\ reports w1 = reports w /\ admin_users w1 = admin_users w
        /\ held w1 = held w /\ log w1 = log w
        /\ POST_admin_case_id_status rt req w1
           = (Returned (Redirect "/admin/login"), w1)
        /\ GET_admin_dashboard rt req w1
           = (Returned (Redirect "/admin/login"), w1)
        /\ GET_admin_case_id rt req w1
           = (Returned (Redirect "/admin/login"), w1)).
Proof.
  split.
  - intros w Hs.
    unfold GET_admin_dashboard, GET_admin_case_id, POST_admin_case_id_status,
           ensureAuth.
    rewrite Hs. repeat split.
  - intros w. cbv zeta. repeat split.
Qed.

(** ** Startup *)

Lemma filter_nil_not_named {P : Platform} (name : string) (w : World) :
  filter (named name) (admin_users w) = [] ->
  ~ admin_named name w.
Proof.
  intros Ef (u & Hin & Hn).
  assert (H : In u (filter (named name) (admin_users w))).
  { apply filter_In. now split. }
  rewrite Ef in H. contradiction.
Qed.

Lemma filter_cons_named {P : Platform} (name : string) (w : World)
    (u : AdminUser.t) (rest : list AdminUser.t) :
  filter (named name) (admin_users w) = u :: rest ->
  admin_named name w.
Proof.
  intros Ef. destruct (filter_head _ _ _ _ Ef) as [Hin Hm].
  exists u. now split.
Qed.

(** What [ensureAdminUser] has done when it returns. *)
Lemma ensureAdminUser_returned {P : Platform} (rt : Runtime) (w : World) :
  fst (ensureAdminUser rt w) = Returned tt ->
  let name := configured_username rt in
  let w' := snd (ensureAdminUser rt w) in
  (admin_named name w /\ admin_users w' = admin_users w)
  \/ (~ admin_named name w
      /\ admin_users w'
         = (admin_users w
            ++ [AdminUser.mk (admin_users_auto_increment w) name
                  (bcrypt_hash (configured_password rt)) "officer"
                  (current_timestamp w)])%list).
Proof.
  cbv zeta. unfold configured_username, configured_password.
  unfold ensureAdminUser, query_select_admin_id_by_username,
         query_insert_admin_user. run.
  destruct (held w <? connectionLimit)%nat; world_cbn; [|discriminate].
  destruct (hd false (faults w)); world_cbn; [discriminate|].
  destruct (hd false (tl (faults w))); world_cbn; [discriminate|].
  destruct (hd false (tl (tl (faults w)))); world_cbn; [discriminate|].
  destruct (filter _ (admin_users w)) as [|u rest] eqn:Ef; cbn [map];
    world_cbn.
  - destruct (hd false (tl (tl (tl (faults w))))); world_cbn; [discriminate|].
    destruct (negb _); world_cbn; [discriminate|].
    destruct (existsb _ (admin_users w)); world_cbn; [discriminate|].
    intros _. right. split; [now apply filter_nil_not_named | reflexivity].
  - intros _. left. split; [now apply (filter_cons_named _ _ _ _ Ef) | reflexivity].
Qed.

Lemma ensureDatabase_same_data (rt : Runtime) (w : World) :
  same_data w (snd (ensureDatabase rt w)).
Proof. unfold ensureDatabase. same_data_run. Qed.

Lemma ensureAdminUser_keeps {P : Platform} (rt : Runtime) (w : World) :
  reports (snd (ensureAdminUser rt w)) = reports w
  /\ held (snd (ensureAdminUser rt w)) = held w
  /\ session_user (snd (ensureAdminUser rt w)) = session_user w
  /\ current_timestamp (snd (ensureAdminUser rt w)) = current_timestamp w.
Proof.
  unfold ensureAdminUser, query_select_admin_id_by_username,
         query_insert_admin_user. run. case_run; repeat split.
Qed.

Lemma ensureAdminUser_creates {P : Platform}
    (rt : Runtime) (w : World) :
  fst (ensureAdminUser rt w) = Returned tt ->
  admin_named (configured_username rt) (snd (ensureAdminUser rt w)).
Proof.
  intros E. pose proof (ensureAdminUser_returned rt w E) as Hr.
  cbv zeta in Hr.
  destruct Hr as [[(u & Hin & Hu) Ea] | [_ Ea]];
    unfold admin_named; rewrite Ea.
  - exists u. auto.
  - eexists. split; [apply in_or_app; right; now left|].
    unfold named. cbn [AdminUser.username]. apply sql_eq_refl.
Qed.

(** The default administrator: when [ensureAdminUser] returns, an
    administrator of the configured name is on file; one already on file
    is left as it is, password included, and nothing is added; otherwise
    exactly one is added, with the hash of the configured password and the
    role [officer]; so a second run adds nothing.  The reports, the pool
    and the session are not touched, however the run ends. *)
Theorem default_admin_is_created_once {P : Platform}
    (rt : Runtime) (w : World) :
  let name := configured_username rt in
  let w' := snd (ensureAdminUser rt w) in
  (fst (ensureAdminUser rt w) = Returned tt ->
   admin_named name w'
   /\ ((admin_named name w /\ admin_users w' = admin_users w)
       \/ (~ admin_named name w
           /\ admin_users w'
              = (admin_users w
                 ++ [AdminUser.mk (admin_users_auto_increment w) name
                       (bcrypt_hash (configured_password rt)) "officer"
                       (current_timestamp w)])%list))
   /\ (fst (ensureAdminUser rt w') = Returned tt ->
       admin_users (snd (ensureAdminUser rt w')) = admin_users w'))
  /\ reports w' = reports w
  /\ held w' = held w
  /\ session_user w' = session_user w.
Proof.
  intros name w'. split.
  - intros E. pose proof (ensureAdminUser_returned rt w E) as Hr.
    cbv zeta in Hr. fold name in Hr. fold w' in Hr.
    assert (Hn : admin_named name w') by now apply ensureAdminUser_creates.
    split; [exact Hn|]. split; [exact Hr|].
    intros E'. pose proof (ensureAdminUser_returned rt w' E') as Hr'.
    cbv zeta in Hr'. fold name in Hr'.
    destruct Hr' as [[_ Ea'] | [Hnot _]]; [exact Ea' | contradiction].
  - destruct (ensureAdminUser_keeps rt w) as (Hr & Hh & Hs & _).
    repeat split; assumption.
Qed.

Lemma startup_listening {P : Platform} (rt : Runtime) (w : World) :
  fst (startup rt w) = Returned Listening ->
  fst (ensureDatabase rt w) = Returned tt
  /\ fst (ensureAdminUser rt (snd (ensureDatabase rt w))) = Returned tt
  /\ snd (startup rt w) = snd (ensureAdminUser rt (snd (ensureDatabase rt w))).
Proof.
  unfold startup, try_catch_finally, and_finally, bind, ret.
  destruct (ensureDatabase rt w) as [[[]|e|] w1]; cbn [fst snd];
    try discriminate.
  destruct (ensureAdminUser rt w1) as [[[]|e|] w2]; cbn [fst snd];
    try discriminate.
  intros _. repeat split.
Qed.

(** The start of the process: it never ends in an uncaught exception; it
    listens only when the schema statements and the administrator
    bootstrap have both gone through, and then an administrator of the
    configured name is on file; any failure ends the process with exit
    code 1.  No report is touched and no connection is kept. *)
Theorem startup_listens_with_an_admin {P : Platform}
    (rt : Runtime) (w : World) :
  let w' := snd (startup rt w) in
  (fst (startup rt w) = Returned Listening
   \/ fst (startup rt w) = Returned (Exit 1)
   \/ fst (startup rt w) = Pending)
  /\ (fst (startup rt w) = Returned Listening ->
      admin_named (configured_username rt) w'
      /\ fst (ensureDatabase rt w) = Returned tt)
  /\ (forall e, fst (ensureDatabase rt w) = Thrown e ->
                fst (startup rt w) = Returned (Exit 1))
  /\ reports w' = reports w
  /\ held w' = held w.
Proof.
  intros w'.
  pose proof (ensureDatabase_same_data rt w) as (Dr & _ & _ & _ & _ & Dh & _).
  pose proof (ensureAdminUser_keeps rt (snd (ensureDatabase rt w)))
    as (Ar & Ah & _ & _).
  repeat match goal with |- _ /\ _ => split end.
  - unfold startup, try_catch_finally, and_finally, bind, ret.
    destruct (ensureDatabase rt w) as [[[]|e|] w1]; cbn [fst snd]; auto.
    destruct (ensureAdminUser rt w1) as [[[]|e|] w2]; cbn [fst snd]; auto.
  - intros E. destruct (startup_listening rt w E) as (Ed & Ea & Ew).
    split; [|exact Ed]. unfold w'. rewrite Ew.
    now apply (ensureAdminUser_creates rt).
  - intros e E. unfold startup, try_catch_finally, and_finally, bind, ret.
    destruct (ensureDatabase rt w) as [[[]|e'|] w1]; cbn [fst snd] in *;
      try discriminate. reflexivity.
  - subst w'. unfold startup, try_catch_finally, and_finally, bind, ret.
    destruct (ensureDatabase rt w) as [[[]|e|] w1]; cbn [fst snd] in *;
      try assumption.
    destruct (ensureAdminUser rt w1) as [[[]|e|] w2]; cbn [fst snd] in *;
      congruence.
  - subst w'. unfold startup, try_catch_finally, and_finally, bind, ret.
    destruct (ensureDatabase rt w) as [[[]|e|] w1]; cbn [fst snd] in *;
      try assumption.
    destruct (ensureAdminUser rt w1) as [[[]|e|] w2]; cbn [fst snd] in *;
      congruence.
Qed.

Lemma not_named_filter {P : Platform} (name : string)
    (us : list AdminUser.t) :
  (forall u, In u us -> named name u = false) ->
  filter (named name) us = [].
Proof.
  induction us as [|u us IH]; intros Hn; cbn [filter]; [reflexivity|].
  rewrite (Hn u (or_introl eq_refl)).
  apply IH. intros u' Hin. apply Hn. now right.
Qed.

Lemma POST_admin_login_match {P : Platform}
    (rt : Runtime) (req : Request) (w : World)
    (name : string) (u : AdminUser.t) (rest : list AdminUser.t)
    (pw : string) :
  healthy w -> pool_available w ->
  Body.username (body req) = JS.Str name ->
  filter (named name) (admin_users w) = u :: rest ->
  Body.password (body req) = JS.Str pw ->
  bcrypt_compare pw (AdminUser.password_hash u) = true ->
  fst (POST_admin_login rt req w) = Returned (Redirect "/admin/dashboard")
  /\ session_user (snd (POST_admin_login rt req w))
     = Some (mkSessionUser (AdminUser.id u) (AdminUser.username u)
                           (AdminUser.role u)).
Proof.
  intros Hh Hp En Ef Ep Ec. unfold healthy in Hh.
  unfold POST_admin_login, query_select_admin_by_username, compare_password.
  healthy_run Hh Hp. rewrite En. cbn [username_matches JS.as_text].
  run. rewrite Ef, Ep. run. rewrite Ec.
  split; reflexivity.
Qed.

(** First start, then login: when the process has started on a store
    that had no administrator whose name the store holds equal to the
    configured one, and bcrypt accepts a password for its own hash, a
    login with the configured name and password is sent to the dashboard,
    in a session of role [officer]. *)
Theorem bootstrapped_admin_can_log_in {P : Platform}
    (rt : Runtime) (w : World) :
  (forall pw, bcrypt_compare pw (bcrypt_hash pw) = true) ->
  ~ admin_named (configured_username rt) w ->
  fst (startup rt w) = Returned Listening ->
  let w' := snd (startup rt w) in
  healthy w' -> pool_available w' ->
  forall rt',
    let req := login_request (JS.Str (configured_username rt))
                             (JS.Str (configured_password rt)) in
    fst (POST_admin_login rt' req w') = Returned (Redirect "/admin/dashboard")
    /\ session_user (snd (POST_admin_login rt' req w'))
       = Some (mkSessionUser (admin_users_auto_increment w)
                             (configured_username rt) "officer").
Proof.
  intros Hb Hn E w' Hh Hp rt' req.
  destruct (startup_listening rt w E) as (_ & Ea & Ew).
  pose proof (ensureDatabase_same_data rt w) as (_ & _ & Du & Dn & Dt & _).
  set (wd := snd (ensureDatabase rt w)) in *.
  pose proof (ensureAdminUser_returned rt wd Ea) as Hr. cbv zeta in Hr.
  assert (Hnd : ~ admin_named (configured_username rt) wd).
  { unfold admin_named. rewrite Du. exact Hn. }
  destruct Hr as [[Hyes _] | [_ Eu]]; [contradiction|].
  rewrite <- Ew in Eu. fold w' in Eu. rewrite Du, Dn, Dt in Eu.
  set (u := AdminUser.mk _ _ _ _ _) in Eu.
  assert (Ef : filter (named (configured_username rt)) (admin_users w')
               = [u]).
  { rewrite Eu, filter_app.
    rewrite not_named_filter.
    - cbn [filter app]. unfold named at 1.
      cbn [AdminUser.username u]. now rewrite sql_eq_refl.
    - intros u' Hin. destruct (named (configured_username rt) u') eqn:Hu';
        [|reflexivity].
      destruct Hn. now exists u'. }
  destruct (POST_admin_login_match rt' req w' (configured_username rt) u []
              (configured_password rt) Hh Hp eq_refl Ef eq_refl (Hb _))
    as [Ha Hs].
  split; [exact Ha | exact Hs].
Qed.

Lemma bootstrapped_admin_can_log_in_witness :
  fst (@POST_admin_login decimal_platform (in_2025 0)
         (login_request (JS.Str "admin") (JS.Str "admin123"))
         (snd (@startup decimal_platform (in_2025 0) fresh_world)))
  = Returned (Redirect "/admin/dashboard").
Proof.
  refine (proj1 (@bootstrapped_admin_can_log_in decimal_platform (in_2025 0)
                   fresh_world _ _ _ _ _ (in_2025 0))).
  - intros pw. apply String.eqb_refl.
  - intros (u & [] & _).
  - reflexivity.
  - constructor.
  - unfold pool_available, connectionLimit. simpl. lia.
Defined.

(** ** The dashboard *)

Lemma insert_desc_In (r x : Report.t) (l : list Report.t) :
  In x (insert_desc r l) <-> x = r \/ In x l.
Proof.
  induction l as [|y l IH]; cbn [insert_desc].
  - cbn. intuition.
  - destruct (Report.id y <=? Report.id r); cbn [In].
    + intuition.
    + rewrite IH. intuition.
Qed.

Lemma insert_desc_length (r : Report.t) (l : list Report.t) :
  List.length (insert_desc r l) = S (List.length l).
Proof.
  induction l as [|y l IH]; cbn [insert_desc]; [reflexivity|].
  destruct (Report.id y <=? Report.id r); cbn [List.length]; congruence.
Qed.

Lemma order_by_id_desc_In (x : Report.t) (l : list Report.t) :
  In x (order_by_id_desc l) <-> In x l.
Proof.
  unfold order_by_id_desc. induction l as [|y l IH]; cbn [fold_right].
  - reflexivity.
  - rewrite insert_desc_In, IH. cbn. intuition.
Qed.

Lemma order_by_id_desc_length (l : list Report.t) :
  List.length (order_by_id_desc l) = List.length l.
Proof.
  unfold order_by_id_desc. induction l as [|y l IH]; cbn [fold_right];
    [reflexivity|].
  rewrite insert_desc_length. cbn. congruence.
Qed.

Lemma insert_desc_descending (r : Report.t) (l : list Report.t) :
  descending (map Report.id l) ->
  descending (map Report.id (insert_desc r l)).
Proof.
  induction l as [|y l IH]; intros Hd; cbn [insert_desc].
  - cbn. auto.
  - destruct (Report.id y <=? Report.id r) eqn:E.
    + apply Z.leb_le in E. cbn [map descending] in *. auto.
    + apply Z.leb_gt in E. cbn [map descending] in Hd.
      destruct Hd as [Hh Ht]. specialize (IH Ht).
      cbn [map descending]. split; [|exact IH].
      destruct l as [|z l]; cbn [insert_desc map] in *; [lia|].
      destruct (Report.id z <=? Report.id r); cbn [map]; lia.
Qed.

Lemma order_by_id_desc_descending (l : list Report.t) :
  descending (map Report.id (order_by_id_desc l)).
Proof.
  unfold order_by_id_desc. induction l as [|y l IH]; cbn [fold_right].
  - exact I.
  - now apply insert_desc_descending.
Qed.

Lemma descending_bound (l : list Z) (x : Z) :
  descending (x :: l) -> forall y, In y l -> y <= x.
Proof.
  revert x. induction l as [|z l IH]; intros x Hd y Hin; [contradiction|].
  cbn [descending] in Hd. destruct Hd as [Hzx Hd].
  destruct Hin as [<-|Hin]; [exact Hzx|].
  specialize (IH z Hd y Hin). lia.
Qed.

Lemma descending_app (a b : list Z) :
  descending (a ++ b) ->
  descending a /\ forall x y, In x a -> In y b -> y <= x.
Proof.
  induction a as [|h a IH]; intros Hd.
  - split; [exact I | contradiction].
  - cbn [app] in Hd. pose proof (descending_bound _ _ Hd) as Hb.
    cbn [descending] in Hd. destruct Hd as [Hh Hd].
    destruct (IH Hd) as [Ha Hab]. split.
    + cbn [descending]. split; [|exact Ha].
      destruct a as [|z a]; [exact I | exact Hh].
    + intros x y [<-|Hx] Hy.
      * apply Hb. apply in_or_app. now right.
      * now apply Hab.
Qed.

(** What the dashboard shows, when the store answers and an
    administrator is logged in: the hundred newest reports, or all of them
    when there are fewer, newest first; every report left out is at
    least as old (of an id no larger) as every report shown. *)
Theorem dashboard_shows_the_newest
    (rt : Runtime) (req : Request) (w : World) :
  healthy w -> pool_available w -> session_user w <> None ->
  exists shown,
    fst (GET_admin_dashboard rt req w)
    = Returned (Render "admin_dashboard"
                  [ ("title", LVal (JStr "Dashboard"));
                    ("reports", LRows (map dashboard_projection shown)) ])
    /\ List.length shown = Nat.min 100 (List.length (reports w))
    /\ descending (map Report.id shown)
    /\ (forall r, In r shown -> In r (reports w))
    /\ (forall r r', In r shown -> In r' (reports w) -> ~ In r' shown ->
                     Report.id r' <= Report.id r).
Proof.
  intros Hh Hp Hs. unfold healthy in Hh.
  set (sorted := order_by_id_desc (reports w)).
  exists (firstn 100 sorted).
  pose proof (order_by_id_desc_descending (reports w)) as Hd.
  fold sorted in Hd.
  rewrite <- (firstn_skipn 100 sorted), map_app in Hd.
  apply descending_app in Hd as [Hd1 Hd2].
  repeat match goal with |- _ /\ _ => split end.
  - unfold GET_admin_dashboard, ensureAuth, query_select_recent_reports.
    destruct (session_user w) as [u|]; [|congruence].
    healthy_run Hh Hp. reflexivity.
  - rewrite length_firstn. unfold sorted.
    now rewrite order_by_id_desc_length.
  - exact Hd1.
  - intros r Hin. apply order_by_id_desc_In. fold sorted.
    rewrite <- (firstn_skipn 100 sorted). apply in_or_app. now left.
  - intros r r' Hin Hin' Hout.
    apply order_by_id_desc_In in Hin'. fold sorted in Hin'.
    rewrite <- (firstn_skipn 100 sorted) in Hin'.
    apply in_app_or in Hin' as [Hin'|Hin']; [contradiction|].
    apply Hd2; now apply in_map.
Qed.

Lemma dashboard_shows_the_newest_witness :
  healthy triage /\ pool_available triage /\ session_user triage <> None
  /\ exists shown,
       fst (GET_admin_dashboard (in_2025 0) (track_request "") triage)
       = Returned (Render "admin_dashboard"
                     [ ("title", LVal (JStr "Dashboard"));
                       ("reports", LRows (map dashboard_projection shown)) ])
       /\ List.length shown = Nat.min 100 (List.length (reports triage)).
Proof.
  assert (Hh : healthy triage) by constructor.
  assert (Hp : pool_available triage)
    by (unfold pool_available, connectionLimit; simpl; lia).
  assert (Hs : session_user triage <> None) by discriminate.
  split; [exact Hh|]. split; [exact Hp|]. split; [exact Hs|].
  destruct (dashboard_shows_the_newest (in_2025 0)
              (track_request "") triage Hh Hp Hs)
    as (shown & Ha & Hl & _).
  exists shown. split; [exact Ha | exact Hl].
Defined.

(** ** More on status updates *)

Lemma POST_admin_case_id_status_known {P : Platform}
    (rt : Runtime) (req : Request) (w : World) (text : option string) :
  healthy w -> pool_available w -> session_user w <> None ->
  known_id (Params.id (params req)) w ->
  JS.as_text (Body.status (body req)) = Some text ->
  session_user (snd (POST_admin_case_id_status rt req w)) = session_user w
  /\ match text with
     | None =>
         fst (POST_admin_case_id_status rt req w)
         = Returned (Redirect ("/admin/case/" ++ Params.id (params req)))
         /\ reports (snd (POST_admin_case_id_status rt req w))
            = map (apply_status None (Params.id (params req))) (reports w)
     | Some s =>
         match status_of_string s with
         | Some st =>
             fst (POST_admin_case_id_status rt req w)
             = Returned (Redirect ("/admin/case/" ++ Params.id (params req)))
             /\ reports (snd (POST_admin_case_id_status rt req w))
                = map (apply_status (Some st) (Params.id (params req)))
                      (reports w)
         | None =>
             fst (POST_admin_case_id_status rt req w)
             = Returned (Send 500 "Failed to update status")
             /\ reports (snd (POST_admin_case_id_status rt req w)) = reports w
         end
     end.
Proof.
  intros Hh Hp Hs Hk Et. unfold healthy in Hh.
  unfold POST_admin_case_id_status, ensureAuth, query_update_status,
         update_status.
  destruct (session_user w) as [u|] eqn:Eu; [|congruence].
  healthy_run Hh Hp. rewrite Et, (known_id_existsb _ _ Hk).
  destruct text as [s|]; [destruct (status_of_string s)|];
    world_cbn; repeat split; exact Eu.
Qed.

Lemma filter_apply_status {P : Platform}
    (s : option Status) (id : string) (rs : list Report.t) :
  filter (id_matches id) (map (apply_status s id) rs)
  = map (Report.set_status s) (filter (id_matches id) rs).
Proof.
  induction rs as [|r rs IH]; cbn [map filter]; [reflexivity|].
  assert (Em : id_matches id (apply_status s id r) = id_matches id r).
  { unfold apply_status. destruct (id_matches id r) eqn:E; [|exact E].
    unfold id_matches in *. exact E. }
  rewrite Em. destruct (id_matches id r) eqn:E.
  - cbn [map]. rewrite IH. unfold apply_status. now rewrite E.
  - exact IH.
Qed.

Lemma known_id_filter {P : Platform} (id : string) (w : World) :
  known_id id w ->
  exists r rest,
    filter (id_matches id) (reports w) = r :: rest
    /\ In r (reports w) /\ sql_id_eq id (Report.id r) = true.
Proof.
  intros (r0 & Hin & Hm).
  destruct (filter (id_matches id) (reports w)) as [|r rest] eqn:Ef.
  - assert (H : In r0 (filter (id_matches id) (reports w)))
      by (apply filter_In; split; assumption).
    rewrite Ef in H. contradiction.
  - destruct (filter_head _ _ _ _ Ef) as [Hr Hmr]. exists r, rest. auto.
Qed.

Lemma GET_admin_case_id_known {P : Platform}
    (rt : Runtime) (req : Request) (w : World)
    (r : Report.t) (rest : list Report.t) :
  healthy w -> pool_available w -> session_user w <> None ->
  filter (id_matches (Params.id (params req))) (reports w) = r :: rest ->
  fst (GET_admin_case_id rt req w)
  = Returned (Render "admin_case" [ ("title", LVal (JStr "Case"));
                                    ("report", LRow (row_of_report r)) ]).
Proof.
  intros Hh Hp Hs Ef. unfold healthy in Hh.
  unfold GET_admin_case_id, ensureAuth, query_select_report_by_id.
  destruct (session_user w) as [u|] eqn:Eu; [|congruence].
  healthy_run Hh Hp. rewrite Ef. reflexivity.
Qed.

(** Update, then look: after a status update for the id of a report
    with a member of the enumeration, from whatever status, the case
    page the answer redirects to shows that report with the new status
    and every other column as before. *)
Theorem updated_status_is_shown {P : Platform}
    (rt : Runtime) (req : Request) (w : World) (s : string) (st : Status) :
  healthy w -> pool_available w -> session_user w <> None ->
  known_id (Params.id (params req)) w ->
  Body.status (body req) = JS.Str s -> status_of_string s = Some st ->
  let w' := snd (POST_admin_case_id_status rt req w) in
  fst (POST_admin_case_id_status rt req w)
  = Returned (Redirect ("/admin/case/" ++ Params.id (params req)))
  /\ forall rt',
       healthy w' -> pool_available w' ->
       exists r,
         In r (reports w)
         /\ sql_id_eq (Params.id (params req)) (Report.id r) = true
         /\ fst (GET_admin_case_id rt' req w')
            = Returned
                (Render "admin_case"
                   [ ("title", LVal (JStr "Case"));
                     ("report",
                      LRow (row_of_report
                              (Report.set_status (Some st) r))) ]).
Proof.
  intros Hh Hp Hs Hk Es En w'.
  assert (Et : JS.as_text (Body.status (body req)) = Some (Some s))
    by now rewrite Es.
  destruct (POST_admin_case_id_status_known rt req w _ Hh Hp Hs Hk Et)
    as [Eu Hc].
  rewrite En in Hc. destruct Hc as [Ea Er]. fold w' in Eu, Er.
  split; [exact Ea|].
  intros rt' Hh' Hp'.
  destruct (known_id_filter _ _ Hk) as (r & rest & Ef & Hin & Hm).
  exists r. split; [exact Hin|]. split; [exact Hm|].
  apply GET_admin_case_id_known with (rest := map (Report.set_status (Some st)) rest);
    try assumption.
  - congruence.
  - rewrite Er, filter_apply_status, Ef. reflexivity.
Qed.

Lemma updated_status_is_shown_witness :
  fst (@POST_admin_case_id_status decimal_platform (in_2025 0)
         (set_status_request "1" "VERIFIED") triage)
  = Returned (Redirect "/admin/case/1").
Proof.
  refine (proj1 (@updated_status_is_shown decimal_platform (in_2025 0)
                   (set_status_request "1" "VERIFIED") triage
                   "VERIFIED" VERIFIED _ _ _ _ _ _)).
  - constructor.
  - unfold pool_available, connectionLimit. simpl. lia.
  - discriminate.
  - exists on_file. split; [now left | reflexivity].
  - reflexivity.
  - reflexivity.
Defined.

(** A status update that carries no [status] field is not refused: for
    the id of a report, [undefined] is bound as NULL, the nullable column
    takes it, and the reports with that id are left without a status,
    which is no member of the enumeration; the answer is the usual
    redirect. *)
Theorem update_without_status_writes_null {P : Platform}
    (rt : Runtime) (req : Request) (w : World) :
  healthy w -> pool_available w -> session_user w <> None ->
  known_id (Params.id (params req)) w ->
  Body.status (body req) = JS.Undefined ->
  let w' := snd (POST_admin_case_id_status rt req w) in
  fst (POST_admin_case_id_status rt req w)
  = Returned (Redirect ("/admin/case/" ++ Params.id (params req)))
  /\ List.length (reports w') = List.length (reports w)
  /\ (forall r', In r' (reports w') ->
        sql_id_eq (Params.id (params req)) (Report.id r') = true ->
        Report.status r' = None)
  /\ exists r',
       In r' (reports w')
       /\ sql_id_eq (Params.id (params req)) (Report.id r') = true
       /\ Report.status r' = None.
Proof.
  intros Hh Hp Hs Hk Es w'.
  assert (Et : JS.as_text (Body.status (body req)) = Some None)
    by now rewrite Es.
  destruct (POST_admin_case_id_status_known rt req w _ Hh Hp Hs Hk Et)
    as [_ Hc].
  destruct Hc as [Ea Er]. fold w' in Er.
  split; [exact Ea|]. rewrite Er. split; [apply length_map|]. split.
  - intros r' Hin Hm. apply in_map_iff in Hin as (r & <- & Hin).
    unfold apply_status, id_matches in *.
    destruct (sql_id_eq (Params.id (params req)) (Report.id r)) eqn:E.
    + reflexivity.
    + congruence.
  - destruct Hk as (r & Hin & Hm).
    exists (apply_status None (Params.id (params req)) r).
    split; [now apply in_map|].
    unfold apply_status, id_matches. rewrite Hm. split; [exact Hm | reflexivity].
Qed.

Lemma update_without_status_writes_null_witness :
  map Report.status
      (reports (snd (@POST_admin_case_id_status decimal_platform (in_2025 0)
                       (mkRequest (status_form JS.Undefined)
                                  (Params.mk "" "1") [] None)
                       triage)))
  = [None]
  /\ fst (@POST_admin_case_id_status decimal_platform (in_2025 0)
            (mkRequest (status_form JS.Undefined) (Params.mk "" "1") [] None)
            triage)
     = Returned (Redirect "/admin/case/1").
Proof.
  split; [reflexivity|].
  refine (proj1 (@update_without_status_writes_null decimal_platform
                   (in_2025 0) _ triage _ _ _ _ _)).
  - constructor.
  - unfold pool_available, connectionLimit. simpl. lia.
  - discriminate.
  - exists on_file. split; [now left | reflexivity].
  - reflexivity.
Defined.



Section Frame.
Context {P : Platform}.
Variable id : string.
Variable T : Prop.



End Frame.



(** ** More on uploads *)

Lemma toString_length_le (k : nat) (n : Z) :
  (1 <= k)%nat -> 0 <= n < 10 ^ Z.of_nat k ->
  (String.length (JS.toString n) <= k)%nat.
Proof.
  intros Hk Hn. unfold JS.toString.
  destruct (n <? 0) eqn:E; [apply Z.ltb_lt in E; lia|].
  pose proof (digits_fuel_length_le k (S (Z.to_nat (Z.log2 n))) n ""
                Hk Hn) as Hle.
  change (String.length "") with 0%nat in Hle. lia.
Qed.

Lemma allowed_length (ext : string) :
  In ext allowed -> (String.length ext <= 5)%nat.
Proof.
  unfold allowed. intros [<-|[<-|[<-|[]]]]; cbn; lia.
Qed.

(** A file part is stored only under [photo], under its base name, with
    an allowed extension and below the limit. *)
Lemma handle_file_stored (rt : Runtime) (left : nat)
    (fieldname filename : string) (size : Z) (f : MulterFile) :
  handle_file rt left fieldname filename size = Stored f ->
  fieldname = "photo"
  /\ basename filename <> ""
  /\ In (JS.toLowerCase (JS.extname (basename filename))) allowed
  /\ size < fileSize
  /\ f = mkMulterFile (storage_filename rt (mkUpload (basename filename) size)).
Proof.
  unfold handle_file, fileFilter. cbv zeta. cbn [originalname].
  destruct (String.eqb (basename filename) "") eqn:En; [discriminate|].
  destruct (String.eqb fieldname "photo") eqn:Ef; cbn [negb orb];
    [|discriminate].
  destruct (left =? 0)%nat; [discriminate|].
  destruct (existsb _ allowed) eqn:Ea; cbn [negb]; [|discriminate].
  destruct (fileSize <=? size) eqn:Es; [discriminate|].
  intros E. injection E as <-.
  apply String.eqb_eq in Ef. apply String.eqb_neq in En.
  apply allowed_test in Ea. apply Z.leb_gt in Es.
  repeat split; assumption.
Qed.

(** The file multer hands to the handler is one of the file parts of
    the body. *)
Lemma intake_stored (rt : Runtime) (parts : list Part) :
  forall (left : nat) (stored : option MulterFile) (f : MulterFile),
    intake rt left stored parts = inr (Some f) ->
    stored = Some f
    \/ exists filename size,
         In (FilePart "photo" filename size) parts
         /\ basename filename <> ""
         /\ In (JS.toLowerCase (JS.extname (basename filename))) allowed
         /\ size < fileSize
         /\ f = mkMulterFile
                  (storage_filename rt (mkUpload (basename filename) size)).
Proof.
  induction parts as [|p rest IH]; intros left stored f; cbn [intake].
  - intros E. injection E as ->. now left.
  - assert (Hrest : forall left' stored',
               intake rt left' stored' rest = inr (Some f) ->
               stored' = stored ->
               stored = Some f
               \/ exists filename size,
                    In (FilePart "photo" filename size) (p :: rest)
                    /\ basename filename <> ""
                    /\ In (JS.toLowerCase (JS.extname (basename filename)))
                          allowed
                    /\ size < fileSize
                    /\ f = mkMulterFile
                             (storage_filename rt
                                (mkUpload (basename filename) size))).
    { intros left' stored' E ->.
      destruct (IH _ _ _ E) as [Hs|(fn & sz & Hin & H)]; [now left|].
      right. exists fn, sz. split; [now right | exact H]. }
    destruct p as [fieldname filename size|[e|]].
    + destruct (handle_file rt left fieldname filename size) as [| |e|g]
        eqn:Eh; try discriminate; intros E.
      * now apply (Hrest _ _ E).
      * now apply (Hrest _ _ E).
      * destruct (handle_file_stored _ _ _ _ _ _ Eh)
          as (-> & Hn & Ha & Hs & ->).
        destruct (IH _ _ _ E) as [Hst|(fn & sz & Hin & H)].
        -- injection Hst as <-. right. exists filename, size.
           split; [now left|]. repeat split; assumption.
        -- right. exists fn, sz. split; [now right | exact H].
    + discriminate.
    + intros E. now apply (Hrest _ _ E).
Qed.

Lemma upload_single_accepted (rt : Runtime) (parts : list Part)
    (f : MulterFile) :
  upload_single rt parts = inr (Some f) ->
  exists filename size,
    In (FilePart "photo" filename size) parts
    /\ basename filename <> ""
    /\ In (JS.toLowerCase (JS.extname (basename filename))) allowed
    /\ size < fileSize
    /\ f = mkMulterFile
             (storage_filename rt (mkUpload (basename filename) size)).
Proof.
  intros E. destruct (intake_stored _ _ _ _ _ E) as [H|H];
    [discriminate | exact H].
Qed.

(** The name under which an upload is stored owes nothing to the name it
    was sent with but its extension: it is the digits of the clock, a
    dash, the digits of a random draw, and [.jpg], [.jpeg] or [.png]; so
    the reference [/uploads/<name>] is at most 40 characters long and
    always fits the column [image_path]. *)
Theorem stored_name_is_generated (rt : Runtime) (parts : list Part)
    (f : MulterFile) :
  clock_ok rt ->
  upload_single rt parts = inr (Some f) ->
  exists stamp draw ext,
    filename f = stamp ++ "-" ++ draw ++ ext
    /\ JS.all_digits stamp = true /\ parse_decimal stamp = date_now rt
    /\ JS.all_digits draw = true /\ parse_decimal draw = rand_1e9 rt
    /\ In ext [".jpg"; ".jpeg"; ".png"]
    /\ image_path_of (Some f) = Some ("/uploads/" ++ filename f)
    /\ (String.length ("/uploads/" ++ filename f) <= 40)%nat
    /\ fits 255 (image_path_of (Some f)) = true.
Proof.
  intros [[Hd0 Hd1] [Hr0 Hr1]] Hu.
  apply upload_single_accepted in Hu as (sent & n & _ & _ & Ha & _ & ->).
  set (file := mkUpload (basename sent) n).
  set (ext := JS.toLowerCase (JS.extname (basename sent))) in *.
  exists (JS.toString (date_now rt)), (JS.toString (rand_1e9 rt)), ext.
  assert (L1 : (String.length (JS.toString (date_now rt)) <= 15)%nat)
    by (apply toString_length_le; [lia | split; assumption]).
  assert (L2 : (String.length (JS.toString (rand_1e9 rt)) <= 10)%nat).
  { apply toString_length_le; [lia|]. split; [assumption|].
    change (10 ^ Z.of_nat 10) with (10 * 10 ^ 9). lia. }
  pose proof (allowed_length _ Ha) as L3.
  assert (L : (String.length
                 ("/uploads/" ++ filename
                    (mkMulterFile (storage_filename rt file))) <= 40)%nat).
  { cbn [filename]. unfold storage_filename. cbn [originalname file].
    fold ext. rewrite !length_append. cbn [String.length]. lia. }
  repeat match goal with |- _ /\ _ => split end;
    try reflexivity; try assumption.
  - apply toString_all_digits. lia.
  - apply parse_toString. lia.
  - apply toString_all_digits. lia.
  - apply parse_toString. lia.
  - cbn [image_path_of fits]. apply Z.leb_le. lia.
Qed.

Lemma stored_name_is_generated_witness :
  clock_ok (in_2025 0)
  /\ exists stamp draw ext,
       filename (mkMulterFile
                   (storage_filename (in_2025 0)
                      (mkUpload "Billboard.PNG" 2048)))
       = stamp ++ "-" ++ draw ++ ext
       /\ JS.all_digits stamp = true /\ JS.all_digits draw = true
       /\ In ext [".jpg"; ".jpeg"; ".png"].
Proof.
  assert (Hc : clock_ok (in_2025 0)) by (unfold clock_ok; simpl; lia).
  split; [exact Hc|].
  assert (Hu : upload_single (in_2025 0)
                 [FilePart "photo" "../../etc/Billboard.PNG" 2048]
               = inr (Some (mkMulterFile
                              (storage_filename (in_2025 0)
                                 (mkUpload "Billboard.PNG" 2048)))))
    by (vm_compute; reflexivity).
  destruct (stored_name_is_generated (in_2025 0) _ _ Hc Hu)
    as (stamp & draw & ext & E & D1 & _ & D2 & _ & Hin & _).
  exists stamp, draw, ext. repeat split; assumption.
Defined.






Lemma lower_char_separators (c : ascii) :
  Ascii.eqb (JS.lower_char c) "/" = Ascii.eqb c "/"
  /\ Ascii.eqb (JS.lower_char c) "." = Ascii.eqb c "."
  /\ is_separator (JS.lower_char c) = is_separator c.
Proof.
  destruct c as [[] [] [] [] [] [] [] []]; repeat split; reflexivity.
Qed.

Lemma extname_scan_lower (l : list ascii) :
  forall i st,
  JS.extname_scan (map JS.lower_char l) i st = JS.extname_scan l i st.
Proof.
  induction l as [|c l IH]; intros i st; cbn [map JS.extname_scan];
    [reflexivity|].
  destruct (lower_char_separators c) as (-> & -> & _).
  destruct (Ascii.eqb c "/").
  - destruct (negb (JS.matchedSlash st)); [reflexivity | apply IH].
  - apply IH.
Qed.

Lemma chars_toLowerCase (s : string) :
  list_ascii_of_string (JS.toLowerCase s)
  = map JS.lower_char (list_ascii_of_string s).
Proof.
  induction s as [|c s IH]; cbn; [reflexivity | now rewrite IH].
Qed.

Lemma substring_toLowerCase (n m : nat) (s : string) :
  substring n m (JS.toLowerCase s) = JS.toLowerCase (substring n m s).
Proof.
  revert n m. induction s as [|c s IH]; intros n m.
  - destruct n, m; reflexivity.
  - destruct n as [|n].
    + destruct m as [|m]; cbn [JS.toLowerCase substring]; [reflexivity|].
      now rewrite IH.
    + cbn [JS.toLowerCase substring]. apply IH.
Qed.

Lemma extname_toLowerCase (p : string) :
  JS.extname (JS.toLowerCase p) = JS.toLowerCase (JS.extname p).
Proof.
  unfold JS.extname. cbv zeta.
  rewrite chars_toLowerCase, <- map_rev, length_map, extname_scan_lower.
  match goal with |- (if ?b then _ else _) = _ => destruct b end;
    [reflexivity | apply substring_toLowerCase].
Qed.

Lemma after_separator_toLowerCase (s : string) :
  after_separator (JS.toLowerCase s)
  = option_map JS.toLowerCase (after_separator s).
Proof.
  induction s as [|c s IH]; cbn [JS.toLowerCase after_separator option_map];
    [reflexivity|].
  rewrite IH. destruct (after_separator s); cbn [option_map]; [reflexivity|].
  destruct (lower_char_separators c) as (_ & _ & ->).
  destruct (is_separator c); reflexivity.
Qed.

(** Lower-casing does not make a string of dots, nor unmake one. *)
Lemma eqb_dots_toLowerCase (t s : string) :
  Forall (fun c => c = "."%char) (list_ascii_of_string t) ->
  String.eqb (JS.toLowerCase s) t = String.eqb s t.
Proof.
  revert s. induction t as [|d t IH]; intros s Hd.
  - destruct s; reflexivity.
  - destruct s as [|c s]; [reflexivity|].
    cbn [list_ascii_of_string] in Hd. inversion Hd as [|? ? -> Hd']. subst.
    cbn [JS.toLowerCase String.eqb].
    rewrite (IH s Hd').
    assert (E : Ascii.eqb (JS.lower_char c) "." = Ascii.eqb c ".")
      by apply lower_char_separators.
    rewrite E. reflexivity.
Qed.

Lemma basename_toLowerCase (p : string) :
  basename (JS.toLowerCase p) = JS.toLowerCase (basename p).
Proof.
  unfold basename. cbv zeta. rewrite after_separator_toLowerCase.
  assert (H : forall b,
             (if String.eqb (JS.toLowerCase b) ".."
                 || String.eqb (JS.toLowerCase b) "."
              then "" else JS.toLowerCase b)
             = JS.toLowerCase
                 (if String.eqb b ".." || String.eqb b "." then "" else b)).
  { intros b.
    rewrite (eqb_dots_toLowerCase ".." b)
      by (repeat constructor).
    rewrite (eqb_dots_toLowerCase "." b)
      by (repeat constructor).
    destruct (String.eqb b ".." || String.eqb b "."); reflexivity. }
  destruct (after_separator p); cbn [option_map]; apply H.
Qed.

Lemma handle_file_lower (rt : Runtime) (left : nat)
    (fieldname a b : string) (n : Z) :
  JS.toLowerCase a = JS.toLowerCase b ->
  handle_file rt left fieldname a n = handle_file rt left fieldname b n.
Proof.
  intros E.
  assert (Eb : JS.toLowerCase (basename a) = JS.toLowerCase (basename b))
    by (rewrite <- !basename_toLowerCase; now rewrite E).
  assert (Ex : JS.toLowerCase (JS.extname (basename a))
               = JS.toLowerCase (JS.extname (basename b)))
    by (rewrite <- !extname_toLowerCase; now rewrite Eb).
  assert (En : String.eqb (basename a) "" = String.eqb (basename b) "").
  { rewrite <- (eqb_dots_toLowerCase "" (basename a)) by constructor.
    rewrite <- (eqb_dots_toLowerCase "" (basename b)) by constructor.
    now rewrite Eb. }
  unfold handle_file, fileFilter, storage_filename. cbv zeta.
  cbn [originalname size]. now rewrite En, Ex.
Qed.

(** What the upload middleware decides does not depend on the case of
    the letters of a file name: of two bodies that differ only in the
    case of the letters of the name of one file, both have their file
    stored or both are refused, with the same error, and the file is
    stored under the same generated name. *)
Theorem upload_ignores_letter_case (rt : Runtime) (a b : string) (n : Z) :
  JS.toLowerCase a = JS.toLowerCase b ->
  upload_single rt [FilePart "photo" a n]
  = upload_single rt [FilePart "photo" b n]
  /\ (forall before fieldname after,
        upload_single rt (before ++ FilePart fieldname a n :: after)
        = upload_single rt (before ++ FilePart fieldname b n :: after))
  /\ fileFilter (mkUpload a n) = fileFilter (mkUpload b n).
Proof.
  intros E.
  assert (Hgen : forall before fieldname after left stored,
             intake rt left stored (before ++ FilePart fieldname a n :: after)
             = intake rt left stored
                 (before ++ FilePart fieldname b n :: after)).
  { induction before as [|p before IH]; intros fieldname after left stored;
      cbn [app intake].
    - now rewrite (handle_file_lower rt left fieldname a b n E).
    - destruct p as [fn sent sz|[e|]]; [|reflexivity|apply IH].
      destruct (handle_file rt left fn sent sz); try reflexivity; apply IH. }
  split; [exact (Hgen [] "photo" [] _ _)|].
  split; [intros before fieldname after; apply Hgen|].
  assert (Ex : JS.toLowerCase (JS.extname a) = JS.toLowerCase (JS.extname b))
    by (rewrite <- !extname_toLowerCase; now rewrite E).
  unfold fileFilter. cbn [originalname]. now rewrite Ex.
Qed.

Lemma upload_ignores_letter_case_witness :
  JS.toLowerCase "Billboard.PNG" = JS.toLowerCase "billboard.png"
  /\ upload_single (in_2025 0) [FilePart "photo" "Billboard.PNG" 2048]
     = upload_single (in_2025 0) [FilePart "photo" "billboard.png" 2048].
Proof.
  assert (H : JS.toLowerCase "Billboard.PNG" = JS.toLowerCase "billboard.png")
    by reflexivity.
  split; [exact H|].
  exact (proj1 (upload_ignores_letter_case (in_2025 0) "Billboard.PNG"
                  "billboard.png" 2048 H)).
Defined.

(** ** The tracker form *)

Lemma encode_char_safe (c : ascii) :
  forallb url_safe (URI.encode_char c) = true.
Proof.
  destruct c as [[] [] [] [] [] [] [] []]; reflexivity.
Qed.

Lemma decode_head_encode_char (c : ascii) (rest : list ascii) :
  URI.decode_head (URI.encode_char c ++ rest) = Some (c, rest).
Proof.
  destruct c as [[] [] [] [] [] [] [] []]; reflexivity.
Qed.

Lemma encode_char_length (c : ascii) :
  (1 <= List.length (URI.encode_char c))%nat.
Proof.
  unfold URI.encode_char, URI.percent.
  destruct (URI.unreserved c); [cbn; lia|].
  destruct (nat_of_ascii c <? 128)%nat; cbn; lia.
Qed.

Lemma encode_char_nonempty (c : ascii) (rest : list ascii) :
  exists x xs, (URI.encode_char c ++ rest)%list = x :: xs.
Proof.
  pose proof (encode_char_length c) as H.
  destruct (URI.encode_char c) as [|x xs]; [cbn in H; lia|].
  cbn. eauto.
Qed.

Lemma decode_encode (l : list ascii) :
  forall fuel, (List.length l <= fuel)%nat ->
  URI.decode fuel (flat_map URI.encode_char l) = Some l.
Proof.
  induction l as [|c l IH]; intros fuel Hf.
  - destruct fuel; reflexivity.
  - cbn [flat_map].
    destruct (encode_char_nonempty c (flat_map URI.encode_char l))
      as (x & xs & Ex).
    destruct fuel as [|f]; [cbn in Hf; lia|].
    cbn [List.length] in Hf.
    assert (Hd : URI.decode (S f)
                   (URI.encode_char c ++ flat_map URI.encode_char l)
                 = match URI.decode_head
                           (URI.encode_char c ++ flat_map URI.encode_char l)
                   with
                   | Some (c0, rest) =>
                       match URI.decode f rest with
                       | Some cs => Some (c0 :: cs)
                       | None => None
                       end
                   | None => None
                   end)
      by (rewrite Ex; reflexivity).
    rewrite Hd, decode_head_encode_char, IH by lia. reflexivity.
Qed.

Lemma encodeURIComponent_chars (s : string) :
  chars (URI.encodeURIComponent s)
  = flat_map URI.encode_char (list_ascii_of_string s).
Proof.
  unfold chars, URI.encodeURIComponent.
  apply list_ascii_of_string_of_list_ascii.
Qed.

(** The tracker form: without an identifier, or with an empty one, the
    form is shown again; otherwise the browser is sent to
    [/track/<identifier>], the identifier written so that it stays one
    path segment, of letters, digits, [- _ . ! ~ * ' ( )] and [%XX]
    only, with no [/], [?], [#] or space in it, and so that different
    identifiers lead to different addresses. *)
Theorem tracker_form_redirects_within_track :
  GET_track None = Render "track" [("title", LVal (JStr "Track"))]
  /\ GET_track (Some "") = Render "track" [("title", LVal (JStr "Track"))]
  /\ (forall id,
        id <> "" ->
        GET_track (Some id)
        = Redirect ("/track/" ++ URI.encodeURIComponent id)
        /\ forallb url_safe (chars (URI.encodeURIComponent id)) = true
        /\ forall c,
             In c (chars (URI.encodeURIComponent id)) ->
             c <> "/"%char /\ c <> "?"%char /\ c <> "#"%char
             /\ c <> " "%char)
  /\ (forall a b,
        URI.encodeURIComponent a = URI.encodeURIComponent b -> a = b).
Proof.
  split; [reflexivity|]. split; [reflexivity|]. split.
  - intros id Hid.
    assert (Hs : forallb url_safe (chars (URI.encodeURIComponent id)) = true).
    { rewrite encodeURIComponent_chars.
      induction (list_ascii_of_string id) as [|c l IH]; [reflexivity|].
      cbn [flat_map]. rewrite forallb_app, encode_char_safe, IH.
      reflexivity. }
    split; [|split; [exact Hs|]].
    + unfold GET_track. cbn [JS.truthy].
      apply String.eqb_neq in Hid. rewrite Hid. reflexivity.
    + intros c Hin. rewrite forallb_forall in Hs. specialize (Hs c Hin).
      repeat split; intros ->; discriminate Hs.
  - intros a b E.
    assert (Ec : chars (URI.encodeURIComponent a)
                 = chars (URI.encodeURIComponent b)) by now rewrite E.
    rewrite !encodeURIComponent_chars in Ec.
    pose proof (decode_encode (list_ascii_of_string a)
                  (List.length (list_ascii_of_string a)
                   + List.length (list_ascii_of_string b))
                  ltac:(lia)) as Da.
    pose proof (decode_encode (list_ascii_of_string b)
                  (List.length (list_ascii_of_string a)
                   + List.length (list_ascii_of_string b))
                  ltac:(lia)) as Db.
    rewrite Ec, Db in Da. injection Da as Da.
    rewrite <- (string_of_list_ascii_of_string a),
            <- (string_of_list_ascii_of_string b).
    now rewrite Da.
Qed.

Example encodeURIComponent_examples :
  URI.encodeURIComponent "REP2025000042" = "REP2025000042"
  /\ URI.encodeURIComponent "a/b c?d#e" = "a%2Fb%20c%3Fd%23e"
  /\ URI.encodeURIComponent "100%" = "100%25"
  /\ URI.encodeURIComponent "-_.!~*'()" = "-_.!~*'()"
  /\ GET_track (Some "../admin") = Redirect "/track/..%2Fadmin".
Proof. repeat split. Qed.

(** ** One operation, one effect *)










Lemma case_ids_stay_unique_witness :
  unique_case_ids (reports triage)
  /\ unique_case_ids
       (reports (snd (@exec decimal_platform (in_2025 42)
                        (Route_POST_api_reports pothole) triage))).
Proof.
  assert (Hu : unique_case_ids (reports triage)).
  { unfold unique_case_ids. cbn. repeat constructor. intros []. }
  split; [exact Hu|].
  exact (@case_ids_stay_unique decimal_platform (in_2025 42)
           (Route_POST_api_reports pothole) triage Hu).
Defined.

(** ** Two submissions, and a pool with nothing to give *)

Lemma storable_after {P : Platform}
    (rt1 rt2 : Runtime) (req1 req2 : Request) (w : World) :
  storable rt2 req2 w ->
  sql_eq (genCaseId rt1) (genCaseId rt2) = false ->
  fst (POST_api_reports rt1 req1 w) = Returned (created (genCaseId rt1)) ->
  storable rt2 req2 (snd (POST_api_reports rt1 req1 w)).
Proof.
  intros (loc & it & El & Nl & Ei & Ni & Ho & Ef & Tk) Hne E1.
  destruct (POST_api_reports_created rt1 req1 w _ E1)
    as (_ & _ & _ & _ & _ & _ & params & r & Er & _ & Ec & _).
  exists loc, it. repeat split; try assumption; try apply Ho.
  rewrite Er. unfold case_id_taken in *. rewrite existsb_app, Tk.
  cbn [existsb orb]. unfold carries. rewrite Ec, Hne. reflexivity.
Qed.

(** Two submissions whose identifiers the store tells apart do not
    disturb each other: when the store answers and each could be stored
    on its own, both are created, one after the other, and afterwards
    each identifier finds its own report, with the location and the issue
    type of its own submission. *)
Theorem distinct_draws_are_both_stored {P : Platform}
    (rt1 rt2 : Runtime) (req1 req2 : Request) (w : World) :
  healthy w -> pool_available w ->
  storable rt1 req1 w -> storable rt2 req2 w ->
  sql_eq (genCaseId rt1) (genCaseId rt2) = false ->
  let w1 := snd (POST_api_reports rt1 req1 w) in
  let w2 := snd (POST_api_reports rt2 req2 w1) in
  fst (POST_api_reports rt1 req1 w) = Returned (created (genCaseId rt1))
  /\ fst (POST_api_reports rt2 req2 w1) = Returned (created (genCaseId rt2))
  /\ exists r1 r2,
       reports w2 = (reports w ++ [r1; r2])%list
       /\ select_by_case_id (genCaseId rt1) (reports w2) = [r1]
       /\ select_by_case_id (genCaseId rt2) (reports w2) = [r2]
       /\ Body.location (body req1) = JS.Str (Report.location r1)
       /\ Body.issue_type (body req1) = JS.Str (Report.issue_type r1)
       /\ Body.location (body req2) = JS.Str (Report.location r2)
       /\ Body.issue_type (body req2) = JS.Str (Report.issue_type r2).
Proof.
  intros Hh Hp S1 S2 Hne w1 w2.
  pose proof (POST_api_reports_storable rt1 req1 w Hh Hp S1) as E1.
  destruct (POST_api_reports_created rt1 req1 w _ E1)
    as (_ & T1 & _ & _ & Eh & Ef & ps1 & r1 & Er1 & _ & Ec1 & _ & _ & _
        & _ & _ & _ & El1 & _ & Ei1).
  fold w1 in Eh, Ef, Er1.
  assert (Hh1 : healthy w1).
  { unfold healthy in *. rewrite Ef. now repeat apply no_fault_tl. }
  assert (Hp1 : pool_available w1)
    by (unfold pool_available in *; now rewrite Eh).
  pose proof (storable_after rt1 rt2 req1 req2 w S2 Hne E1) as S2'.
  fold w1 in S2'.
  pose proof (POST_api_reports_storable rt2 req2 w1 Hh1 Hp1 S2') as E2.
  destruct (POST_api_reports_created rt2 req2 w1 _ E2)
    as (_ & T2 & _ & _ & _ & _ & ps2 & r2 & Er2 & _ & Ec2 & _ & _ & _
        & _ & _ & _ & El2 & _ & Ei2).
  fold w2 in Er2.
  split; [exact E1|]. split; [exact E2|].
  rewrite Er1 in Er2, T2. rewrite <- app_assoc in Er2. cbn [app] in Er2.
  exists r1, r2. split; [exact Er2|].
  assert (N21 : sql_eq (genCaseId rt2) (genCaseId rt1) = false).
  { unfold sql_eq in *. now rewrite String.eqb_sym. }
  unfold case_id_taken in T2. rewrite existsb_app in T2.
  apply orb_false_iff in T2 as [T2 _].
  destruct S1 as (loc1 & it1 & L1 & _ & I1 & _).
  destruct S2 as (loc2 & it2 & L2 & _ & I2 & _).
  assert (P1 : plain (Body.location (body req1)))
    by (rewrite L1; unfold plain; eauto).
  assert (P2 : plain (Body.issue_type (body req1)))
    by (rewrite I1; unfold plain; eauto).
  assert (P3 : plain (Body.location (body req2)))
    by (rewrite L2; unfold plain; eauto).
  assert (P4 : plain (Body.issue_type (body req2)))
    by (rewrite I2; unfold plain; eauto).
  rewrite Er2. unfold select_by_case_id. rewrite !filter_app.
  fold (select_by_case_id (genCaseId rt1) (reports w)).
  fold (select_by_case_id (genCaseId rt2) (reports w)).
  rewrite (not_taken_select _ _ T1), (not_taken_select _ _ T2).
  cbn [filter app]. unfold carries. rewrite Ec1, Ec2.
  rewrite !sql_eq_refl, Hne, N21.
  repeat split; try reflexivity; eapply column_plain; eassumption.
Qed.

Lemma distinct_draws_are_both_stored_witness :
  fst (@POST_api_reports decimal_platform (in_2025 7) pothole
         (snd (@POST_api_reports decimal_platform (in_2025 42) pothole
                 fresh_world)))
  = Returned (created "REP2025000007").
Proof.
  refine (proj1 (proj2 (@distinct_draws_are_both_stored decimal_platform
                          (in_2025 42) (in_2025 7)
                          pothole pothole fresh_world _ _ _ _ _))).
  - constructor.
  - unfold pool_available, connectionLimit. simpl. lia.
  - exists "Main St & 5th", "pothole".
    repeat split; try reflexivity; try discriminate; left; reflexivity.
  - exists "Main St & 5th", "pothole".
    repeat split; try reflexivity; try discriminate; left; reflexivity.
  - vm_compute. reflexivity.
Defined.


